(** * cpuid_helper: CPU frequency, cache and topology discovery

    A shallow embedding of [src/cpuid_helper.cpp] and the properties of
    its frequency fallback chain, deterministic-cache-leaf decoder,
    topology enumerator and cache-sharing grouper.

    Conventions of the embedding
    - a C [int] is a [Z] in the range [-2^31, 2^31); arithmetic that can
      leave the range is wrapped explicitly with [wrap32];
    - [>>] on [int] is the arithmetic shift ([Z.shiftr]), [&] is [Z.land];
    - a C [double] is an IEEE-754 binary64 value of [spec_float];
    - the processor is a function from (logical processor, leaf, subleaf)
      to four words; the operating system is an explicit state record. *)

From Stdlib Require Import ZArith Lia List Bool Ascii String SpecFloat.
From stdpp Require Import base list gmap.
Import ListNotations.
Open Scope Z_scope.

(** ** Machine integers *)

Module Int.

Definition wrap32 (z : Z) : Z := (z + 2^31) mod 2^32 - 2^31.
Definition wrap64 (z : Z) : Z := (z + 2^63) mod 2^64 - 2^63.
Definition to_u32 (z : Z) : Z := z mod 2^32.
Definition to_u64 (z : Z) : Z := z mod 2^64.

Definition in_int (z : Z) : Prop := -2^31 <= z < 2^31.

End Int.
Import Int.

(** ** CPUID *)

(** [typedef struct { int eax, ebx, ecx, edx; } CPUIDResult;] *)
Record CPUIDResult := mkCPUID { eax : Z; ebx : Z; ecx : Z; edx : Z }.

(** What the [cpuid] instruction answers on one logical processor:
    leaf (as an unsigned 32-bit number) and subleaf to four words. *)
Definition Cpuid := Z -> Z -> CPUIDResult.

(** [read_cpuid]: the four words land in [int] fields. *)
Definition read_cpuid (hw : Cpuid) (leaf subleaf : Z) : CPUIDResult :=
  let r := hw (to_u32 leaf) subleaf in
  mkCPUID (wrap32 (eax r)) (wrap32 (ebx r)) (wrap32 (ecx r)) (wrap32 (edx r)).

(** [get_max_cpuid_leaf] *)
Definition get_max_cpuid_leaf (hw : Cpuid) : Z := eax (read_cpuid hw 0 0).

(** ** Cache hierarchy *)

Record CacheInfo := mkCache {
  size_kb : Z;
  assoc : Z;
  line_size : Z;
  partitions : Z;
  sets : Z;
  cores_sharing : Z;
  is_inclusive : Z
}.

(** [CacheInfo x = {0}] *)
Definition cache_zero : CacheInfo := mkCache 0 0 0 0 0 0 0.

(** The four records [main] passes by pointer to the decoders. *)
Record Caches := mkCaches {
  l1d : CacheInfo; l1i : CacheInfo; l2 : CacheInfo; l3 : CacheInfo
}.

Definition caches_zero : Caches :=
  mkCaches cache_zero cache_zero cache_zero cache_zero.

Inductive Level := L1D | L1I | L2 | L3.

Definition get_level (t : Level) (c : Caches) : CacheInfo :=
  match t with L1D => l1d c | L1I => l1i c | L2 => l2 c | L3 => l3 c end.

Definition set_level (t : Level) (x : CacheInfo) (c : Caches) : Caches :=
  match t with
  | L1D => mkCaches x (l1i c) (l2 c) (l3 c)
  | L1I => mkCaches (l1d c) x (l2 c) (l3 c)
  | L2 => mkCaches (l1d c) (l1i c) x (l3 c)
  | L3 => mkCaches (l1d c) (l1i c) (l2 c) x
  end.

Module Intel.

(** The [target] pointer of [detect_intel_caches]; [None] is [NULL]. *)
Definition select_target (cache_type level : Z) : option Level :=
  if cache_type =? 1 then
    if level =? 1 then Some L1D else None
  else if cache_type =? 2 then
    if level =? 1 then Some L1I else None
  else if cache_type =? 3 then
    if level =? 1 then Some L1D
    else if level =? 2 then Some L2
    else if level =? 3 then Some L3
    else None
  else None.

(** [for (int i = 0; i < 12 && ((apic_mask >> i) & 1); i++) bit_count++;]
    with [n] the iterations left before [i] reaches 12. *)
Fixpoint count_low_ones (n : nat) (i : Z) (apic_mask : Z) (bit_count : Z) : Z :=
  match n with
  | O => bit_count
  | S n' =>
      if Z.land (Z.shiftr apic_mask i) 1 =? 0 then bit_count
      else count_low_ones n' (i + 1) apic_mask (bit_count + 1)
  end.

(** The values decoded from one subleaf of leaf 4. *)
Definition dec_cache_type (r : CPUIDResult) : Z := Z.land (eax r) 31.
Definition dec_level (r : CPUIDResult) : Z := Z.land (Z.shiftr (eax r) 5) 7.
Definition dec_line_size (r : CPUIDResult) : Z := Z.land (ebx r) 4095 + 1.
Definition dec_partitions (r : CPUIDResult) : Z :=
  Z.land (Z.shiftr (ebx r) 12) 1023 + 1.
Definition dec_ways (r : CPUIDResult) : Z :=
  Z.land (Z.shiftr (ebx r) 22) 1023 + 1.
Definition dec_sets (r : CPUIDResult) : Z := wrap32 (ecx r + 1).

(** [long long size_bytes = (long long)ways * partitions * line_size * sets;] *)
Definition dec_size_bytes (r : CPUIDResult) : Z :=
  wrap64 (wrap64 (wrap64 (dec_ways r * dec_partitions r) * dec_line_size r)
          * dec_sets r).

(** [int size_kb = (int)(size_bytes / 1024);] C division truncates. *)
Definition dec_size_kb (r : CPUIDResult) : Z :=
  wrap32 (Z.quot (dec_size_bytes r) 1024).

Definition dec_cores_sharing (r : CPUIDResult) : Z :=
  let apic_mask := Z.land (Z.shiftr (eax r) 14) 4095 in
  let bit_count := count_low_ones 12 0 apic_mask 0 in
  if bit_count >? 0 then Z.shiftl 1 bit_count else 1.

(** The record written under [if (target && target->size_kb == 0)]. *)
Definition decoded (r : CPUIDResult) : CacheInfo :=
  mkCache (dec_size_kb r) (dec_ways r) (dec_line_size r) (dec_partitions r)
          (dec_sets r) (dec_cores_sharing r) (Z.land (Z.shiftr (eax r) 9) 1).

(** The loop body after the [cache_type == 0] test. *)
Definition fill (r : CPUIDResult) (c : Caches) : Caches :=
  match select_target (dec_cache_type r) (dec_level r) with
  | Some t =>
      if size_kb (get_level t c) =? 0 then set_level t (decoded r) c else c
  | None => c
  end.

(** [for (int ecx = 0; ecx < 32; ++ecx) { ... if (cache_type == 0) break; ... }]
    with [n] the iterations left before [ecx] reaches 32. *)
Fixpoint subleaf_loop (hw : Cpuid) (n : nat) (sub : Z) (c : Caches) : Caches :=
  match n with
  | O => c
  | S n' =>
      let r := read_cpuid hw 4 sub in
      if dec_cache_type r =? 0 then c
      else subleaf_loop hw n' (sub + 1) (fill r c)
  end.

(** [detect_intel_caches]; the four pointers are the fields of [c] and are
    never null at the call in [main]. *)
Definition detect_intel_caches (hw : Cpuid) (c : Caches) : Caches :=
  subleaf_loop hw 32 0 c.

End Intel.

Module Amd.

(** [detect_amd_caches]: sizes only, sharing and inclusivity marked [-1]. *)
Definition mark (val : Z) (x : CacheInfo) : CacheInfo :=
  if val >? 0 then
    mkCache val (assoc x) (line_size x) (partitions x) (sets x) (-1) (-1)
  else x.

Definition detect_amd_caches (hw : Cpuid) (c : Caches) : Caches :=
  let r5 := read_cpuid hw 0x80000005 0 in
  let r6 := read_cpuid hw 0x80000006 0 in
  let l1d_val := Z.land (Z.shiftr (ecx r5) 24) 255 in
  let l1i_val := Z.land (Z.shiftr (edx r5) 24) 255 in
  let l2_val := Z.land (Z.shiftr (ecx r6) 16) 65535 in
  let l3_chunks := Z.land (Z.shiftr (edx r6) 18) 16383 in
  let l3_val := l3_chunks * 512 in
  mkCaches (mark l1d_val (l1d c)) (mark l1i_val (l1i c))
           (mark l2_val (l2 c)) (mark l3_val (l3 c)).

End Amd.

(** ** C strings *)

Module CStr.

Definition NUL : ascii := Ascii.zero.

(** The bytes a [char*] denotes: everything before the first NUL. *)
Fixpoint c_str (buf : list ascii) : list ascii :=
  match buf with
  | [] => []
  | c :: rest => if Ascii.eqb c NUL then [] else c :: c_str rest
  end.

Definition chars (s : string) : list ascii := list_ascii_of_string s.

Definition code (c : ascii) : Z := Z.of_N (N_of_ascii c).
Definition char_of (z : Z) : ascii := ascii_of_N (Z.to_N (z mod 256)).

(** The four bytes of an [int] in memory order (little endian). *)
Definition int_bytes (r : Z) : list ascii :=
  [ char_of (Z.land r 255);
    char_of (Z.land (Z.shiftr r 8) 255);
    char_of (Z.land (Z.shiftr r 16) 255);
    char_of (Z.land (Z.shiftr r 24) 255) ].

Fixpoint is_prefix (needle hay : list ascii) : bool :=
  match needle, hay with
  | [], _ => true
  | _ :: _, [] => false
  | a :: n', b :: h' => Ascii.eqb a b && is_prefix n' h'
  end.

(** [strstr]: offset of the first occurrence of [needle], if any. *)
Fixpoint strstr (hay needle : list ascii) : option nat :=
  if is_prefix needle hay then Some O
  else match hay with
       | [] => None
       | _ :: h' => option_map S (strstr h' needle)
       end.

End CStr.
Import CStr.

(** ** Vendor *)

Inductive CpuVendor := VENDOR_UNKNOWN | VENDOR_INTEL | VENDOR_AMD.

Fixpoint bytes_eqb (a b : list ascii) : bool :=
  match a, b with
  | [], [] => true
  | x :: a', y :: b' => Ascii.eqb x y && bytes_eqb a' b'
  | _, _ => false
  end.

(** [get_cpu_vendor]: the twelve bytes of EBX, EDX, ECX against the two
    signatures ([strncmp] over 12 bytes none of which is NUL in the
    signature is byte equality). *)
Definition get_cpu_vendor (hw : Cpuid) : CpuVendor :=
  let r := read_cpuid hw 0 0 in
  let vendor := int_bytes (ebx r) ++ int_bytes (edx r) ++ int_bytes (ecx r) in
  if bytes_eqb vendor (chars "GenuineIntel") then VENDOR_INTEL
  else if bytes_eqb vendor (chars "AuthenticAMD") then VENDOR_AMD
  else VENDOR_UNKNOWN.

(** ** Doubles *)

Module Dbl.

Definition prec : Z := 53.
Definition emax : Z := 1024.

Definition of_int (z : Z) : spec_float := binary_normalize prec emax z 0 false.
Definition add := SFadd prec emax.
Definition mul := SFmul prec emax.
Definition div := SFdiv prec emax.
Definition zero : spec_float := S754_zero false.
Definition half : spec_float := binary_normalize prec emax 1 (-1) false.

(** [x > 0.0] and [x <= 0.0]; both are false on a NaN. *)
Definition gt0 (x : spec_float) : bool := SFltb zero x.
Definition le0 (x : spec_float) : bool := SFleb x zero.

(** [(int)x]: truncation toward zero. A value outside [int] is undefined in
    C; the x86 conversion instruction the compiler emits yields [INT_MIN]
    there, which is what is modelled. *)
Definition to_int (x : spec_float) : Z :=
  match x with
  | S754_zero _ => 0
  | S754_finite s m e =>
      let mag := if 0 <=? e then Z.pos m * 2 ^ e
                 else Z.quot (Z.pos m) (2 ^ (- e)) in
      let v := if s then - mag else mag in
      if (- 2^31 <=? v) && (v <? 2^31) then v else - 2^31
  | _ => - 2^31
  end.

(** The double nearest to [m / 10^k] for [m >= 0] (ties to even), as a
    correctly rounding [atof] returns it: the quotient is taken with at
    least 64 significant bits and a sticky bit, then rounded once. *)
Definition of_decimal (m : Z) (k : Z) : spec_float :=
  if m <=? 0 then zero
  else
    let d := 10 ^ k in
    let sh := Z.max 0 (64 + Z.log2 d - Z.log2 m) in
    let q := (m * 2 ^ sh) / d in
    let sticky := if (m * 2 ^ sh) mod d =? 0 then 0 else 1 in
    binary_normalize prec emax (2 * q + sticky) (- (sh + 1)) false.

End Dbl.

(** ** Brand string *)

Module Brand.

(** [get_brand_string] on the zero-initialised 64-byte [brand] buffer of
    [main]: the twelve words of leaves 0x80000002..4 followed by NUL, or
    the empty string when the extended leaves are missing. The comparison
    with [0x80000004] is unsigned. *)
Definition leaf_bytes (hw : Cpuid) (i : Z) : list ascii :=
  let r := read_cpuid hw (0x80000002 + i) 0 in
  int_bytes (eax r) ++ int_bytes (ebx r) ++ int_bytes (ecx r)
    ++ int_bytes (edx r).

Definition get_brand_string (hw : Cpuid) : list ascii :=
  let max_ext := eax (read_cpuid hw 0x80000000 0) in
  if to_u32 max_ext <? 0x80000004 then replicate 64 NUL
  else leaf_bytes hw 0 ++ leaf_bytes hw 1 ++ leaf_bytes hw 2
         ++ replicate 16 NUL.

(** [if (c >= 'a' && c <= 'z') c = (char)(c - 32);] *)
Definition to_upper (c : ascii) : ascii :=
  if (97 <=? code c) && (code c <=? 122) then char_of (code c - 32) else c.

Definition is_digit (c : ascii) : bool := (48 <=? code c) && (code c <=? 57).
Definition is_dot (c : ascii) : bool := code c =? 46.
Definition is_space (c : ascii) : bool := code c =? 32.

(** The test of the backward walk: digit, ['.'] or [' ']. *)
Definition is_num_or_space (c : ascii) : bool :=
  is_digit c || is_dot c || is_space c.

(** The test of the forward copy: digit or ['.']. *)
Definition is_num (c : ascii) : bool := is_digit c || is_dot c.

(** The longest prefix whose characters satisfy [f]. *)
Fixpoint span (f : ascii -> bool) (l : list ascii) : list ascii :=
  match l with
  | [] => []
  | c :: l' => if f c then c :: span f l' else []
  end.

(** [while (p >= upper && ...) p--; p++;] leaves [p] at the start of the
    longest run of digits, dots and spaces that ends just before [target];
    the characters from [p] up to [target] are that run. *)
Definition run_before (upper : list ascii) (target : nat) : list ascii :=
  rev (span is_num_or_space (rev (take target upper))).

(** [while (p < target && nlen < sizeof(number) - 1)]: copy digits and
    dots, at most 31 of them. *)
Fixpoint collect (run : list ascii) (nlen : nat) : list ascii :=
  match run with
  | [] => []
  | c :: run' =>
      if (31 <=? nlen)%nat then []
      else if is_num c then c :: collect run' (S nlen)
      else collect run' nlen
  end.

(** [atof] on a string of digits and dots: digits, then optionally a dot
    and digits; anything after that is ignored; no digit at all gives 0. *)
Fixpoint digits_val (l : list ascii) (acc : Z) : Z :=
  match l with
  | [] => acc
  | c :: l' => digits_val l' (10 * acc + (code c - 48))
  end.

Definition atof (number : list ascii) : spec_float :=
  let ip := span is_digit number in
  let rest := drop (length ip) number in
  let fp := match rest with
            | c :: rest' => if is_dot c then span is_digit rest' else []
            | [] => []
            end in
  match ip ++ fp with
  | [] => Dbl.zero
  | ds => Dbl.of_decimal (digits_val ds 0) (Z.of_nat (length fp))
  end.

(** [parse_frequency_from_brand]: [Some mhz] when it returns 1 having
    stored [mhz], [None] when it returns 0. Both pointers are non-null at
    the call in [main]. *)
Definition parse_frequency_from_brand (brand : list ascii) : option Z :=
  let s := c_str brand in
  let len := Nat.min (length s) 127 in
  let upper := map to_upper (take len s) in
  let ghz := strstr upper (chars "GHZ") in
  let mhz := strstr upper (chars "MHZ") in
  let target := match ghz with Some g => Some g | None => mhz end in
  match target with
  | None => None
  | Some t =>
      let number := collect (run_before upper t) 0 in
      match number with
      | [] => None
      | _ =>
          let val := atof number in
          if Dbl.le0 val then None
          else
            match ghz with
            | Some _ =>
                Some (Dbl.to_int
                        (Dbl.add (Dbl.mul val (Dbl.of_int 1000)) Dbl.half))
            | None => Some (Dbl.to_int (Dbl.add val Dbl.half))
            end
      end
  end.

End Brand.

(** ** Frequency fallback chain *)

Module Freq.

(** What a stage of the chain consults. *)
Inductive Source := SrcLeaf16 | SrcLeaf15 | SrcBrand | SrcWmi.

(** The locals of [main] the chain works on, and the sources consulted so
    far (most recent first). *)
Record State := mkState {
  base_mhz : Z;
  max_mhz : Z;
  bus_mhz : Z;
  turbo_supported : Z;
  success : Z;
  consulted : list Source
}.

(** [int base_mhz = 0, max_mhz = 0, bus_mhz = 0; int turbo_supported = 0;
    int success = 0;] *)
Definition init : State := mkState 0 0 0 0 0 [].

(** [get_max_clock_wmi]: the management layer either fails or hands back
    the 32-bit [MaxClockSpeed] value, kept only when positive. *)
Definition get_max_clock_wmi (wmi : option Z) : Z :=
  match wmi with
  | Some lVal => if wrap32 lVal >? 0 then wrap32 lVal else 0
  | None => 0
  end.

(** [if (max_leaf >= 0x16) { ... }] *)
Definition stage_leaf16 (hw : Cpuid) (max_leaf : Z) (s : State) : State :=
  if max_leaf >=? 0x16 then
    let result := read_cpuid hw 0x16 0 in
    let base := Z.land (eax result) 0xFFFF in
    let max := Z.land (ebx result) 0xFFFF in
    let bus := Z.land (ecx result) 0xFFFF in
    mkState base max bus (turbo_supported s)
            (if (base >? 0) && (max >? 0) then 1 else success s)
            (SrcLeaf16 :: consulted s)
  else s.

(** [if (max_leaf >= 0x15) { ... }] *)
Definition stage_leaf15 (hw : Cpuid) (max_leaf : Z) (s : State) : State :=
  if max_leaf >=? 0x15 then
    let r15 := read_cpuid hw 0x15 0 in
    let s := mkState (base_mhz s) (max_mhz s) (bus_mhz s) (turbo_supported s)
                     (success s) (SrcLeaf15 :: consulted s) in
    if (eax r15 >? 0) && (ebx r15 >? 0) && (ecx r15 >? 0) then
      let crystal_mhz := Dbl.div (Dbl.of_int (ecx r15)) (Dbl.of_int 1000000) in
      let ratio := Dbl.div (Dbl.of_int (ebx r15)) (Dbl.of_int (eax r15)) in
      let derived_base := Dbl.mul crystal_mhz ratio in
      let bus := if bus_mhz s =? 0
                 then Dbl.to_int (Dbl.add crystal_mhz Dbl.half)
                 else bus_mhz s in
      if (base_mhz s =? 0) && Dbl.gt0 derived_base then
        let base := Dbl.to_int (Dbl.add derived_base Dbl.half) in
        let max := if max_mhz s =? 0 then base else max_mhz s in
        mkState base max bus (turbo_supported s) 1 (consulted s)
      else
        mkState (base_mhz s) (max_mhz s) bus (turbo_supported s) (success s)
                (consulted s)
    else s
  else s.

(** [if (max_leaf >= 0x06) { ... }] *)
Definition stage_leaf06 (hw : Cpuid) (max_leaf : Z) (s : State) : State :=
  if max_leaf >=? 0x06 then
    let result := read_cpuid hw 0x06 0 in
    mkState (base_mhz s) (max_mhz s) (bus_mhz s)
            (if Z.land (eax result) 2 =? 0 then 0 else 1)
            (success s) (consulted s)
  else s.

(** [if (!success || base_mhz == 0 || max_mhz == 0) { ... }] *)
Definition stage_brand (brand : list ascii) (s : State) : State :=
  if (success s =? 0) || (base_mhz s =? 0) || (max_mhz s =? 0) then
    let s := mkState (base_mhz s) (max_mhz s) (bus_mhz s) (turbo_supported s)
                     (success s) (SrcBrand :: consulted s) in
    match Brand.parse_frequency_from_brand brand with
    | Some parsed_mhz =>
        if parsed_mhz >? 0 then
          mkState (if base_mhz s =? 0 then parsed_mhz else base_mhz s)
                  (if max_mhz s =? 0 then parsed_mhz else max_mhz s)
                  (bus_mhz s) (turbo_supported s) 1 (consulted s)
        else s
    | None => s
    end
  else s.

(** [if (max_mhz == 0) { int wmi_max = get_max_clock_wmi(); ... }] *)
Definition stage_wmi (wmi : option Z) (s : State) : State :=
  if max_mhz s =? 0 then
    let s := mkState (base_mhz s) (max_mhz s) (bus_mhz s) (turbo_supported s)
                     (success s) (SrcWmi :: consulted s) in
    let wmi_max := get_max_clock_wmi wmi in
    if wmi_max >? 0 then
      mkState (if base_mhz s =? 0 then wmi_max else base_mhz s)
              wmi_max (bus_mhz s) (turbo_supported s) 1 (consulted s)
    else s
  else s.

(** [if (!success && max_leaf >= 0x80000002) success = 0;] (unsigned
    comparison). *)
Definition stage_final (max_leaf : Z) (s : State) : State :=
  if (success s =? 0) && (to_u32 max_leaf >=? 0x80000002) then
    mkState (base_mhz s) (max_mhz s) (bus_mhz s) (turbo_supported s) 0
            (consulted s)
  else s.

(** Lines 530-619 of [main]. *)
Definition resolve (hw : Cpuid) (wmi : option Z) : State :=
  let brand := Brand.get_brand_string hw in
  let max_leaf := get_max_cpuid_leaf hw in
  let s1 := stage_leaf16 hw max_leaf init in
  let s2 := stage_leaf15 hw max_leaf s1 in
  let s3 := stage_leaf06 hw max_leaf s2 in
  let s4 := stage_brand brand s3 in
  let s5 := stage_wmi wmi s4 in
  stage_final max_leaf s5.

(** [get_turbo_ratios]: [None] when it returns 0, else the three values. *)
Definition get_turbo_ratios (hw : Cpuid) : option (Z * Z * Z) :=
  let max_leaf := get_max_cpuid_leaf hw in
  if max_leaf <? 0x16 then None
  else
    let result := read_cpuid hw 0x16 0 in
    Some (Z.land (eax result) 0xFFFF, Z.land (ebx result) 0xFFFF,
          Z.land (ecx result) 0xFFFF).

End Freq.

(** ** Operating system *)

Module Os.

(** The part of the host the program touches: the affinity mask of the
    calling thread and the affinity mask of its process (64-bit masks,
    bit [i] standing for logical processor [i]). *)
Record State := mkOs { thread_affinity : Z; process_affinity : Z }.

(** [SetThreadAffinityMask]: the new mask must be non-zero and a subset of
    the process mask; on success the previous thread mask is returned, on
    failure 0 is returned and nothing changes. *)
Definition SetThreadAffinityMask (st : State) (mask : Z) : State * Z :=
  if (mask =? 0) || negb (Z.land mask (process_affinity st) =? mask)
  then (st, 0)
  else (mkOs mask (process_affinity st), thread_affinity st).

(** One [SYSTEM_LOGICAL_PROCESSOR_INFORMATION_EX] entry: its relationship
    tag and the masks of its [GroupMask] array. *)
Record ProcessorInfo := mkInfo { Relationship : Z; GroupMask : list Z }.

Definition RelationProcessorCore : Z := 0.

(** How the two calls of [GetLogicalProcessorInformationEx] and the
    [malloc] between them turn out. *)
Inductive CoreQuery :=
  | QueryNoSize
  | QueryAllocFails
  | QueryFails
  | QueryOk (infos : list ProcessorInfo).

(** The environment of one run. *)
Record World := mkWorld {
  cpuid_on : Z -> Cpuid;       (* the instruction, per logical processor *)
  running_on : Z -> Z;         (* the processor scheduled under a mask *)
  core_query : CoreQuery;
  wmi : option Z;              (* MaxClockSpeed, when the query succeeds *)
  heap_l1d : option (nat -> Z); (* malloc: NULL, or a block's old content *)
  heap_l2 : option (nat -> Z);
  heap_l3 : option (nat -> Z)
}.

(** The [cpuid] instruction as the calling thread sees it. *)
Definition cpu (w : World) (st : State) : Cpuid :=
  cpuid_on w (running_on w (thread_affinity st)).

End Os.

(** ** Topology enumeration *)

Record PerCoreTopology := mkTopo {
  apic_id : Z;
  core_type : Z;
  core_index : Z;
  logical_index : Z;
  package_id : Z;
  tile_id : Z;
  die_id : Z;
  module_id : Z
}.

Definition topo_zero : PerCoreTopology := mkTopo 0 0 0 0 0 0 0 0.

Module Topo.
Import Os.

(** [while (mask) { if (mask & 1) total++; mask >>= 1; }] on a 64-bit
    mask, with [n] bounding the shifts left. *)
Fixpoint count_bits (n : nat) (mask : Z) (total : Z) : Z :=
  match n with
  | O => total
  | S n' =>
      if mask =? 0 then total
      else count_bits n' (Z.shiftr mask 1)
             (if Z.land mask 1 =? 0 then total else total + 1)
  end.

Definition count_info (total : Z) (info : ProcessorInfo) : Z :=
  if Relationship info =? RelationProcessorCore then
    fold_left (fun t mask => count_bits 64 (to_u64 mask) t) (GroupMask info) total
  else total.

Definition count_processors (infos : list ProcessorInfo) : Z :=
  fold_left count_info infos 0.

(** The shift widths found by the subleaf loop. *)
Record Widths := mkWidths { smt_bits : Z; core_bits : Z; tile_bits : Z }.

(** [for (int subleaf = 0; subleaf < 8; subleaf++) { ... }] *)
Fixpoint level_loop (hw : Cpuid) (topo_leaf : Z) (n : nat) (subleaf : Z)
    (ws : Widths) : Widths :=
  match n with
  | O => ws
  | S n' =>
      let r_sub := read_cpuid hw topo_leaf subleaf in
      let level_type := Z.land (Z.shiftr (ecx r_sub) 8) 0xFF in
      let shift_bits := Z.land (eax r_sub) 0x1F in
      if level_type =? 0 then ws
      else
        level_loop hw topo_leaf n' (subleaf + 1)
          (if level_type =? 1 then mkWidths shift_bits (core_bits ws) (tile_bits ws)
           else if level_type =? 2 then mkWidths (smt_bits ws) shift_bits (tile_bits ws)
           else if level_type =? 5 then mkWidths (smt_bits ws) (core_bits ws) shift_bits
           else ws)
  end.

(** The [core_type] field: the high byte of EAX of leaf 0x1A when the leaf
    is supported, 0 otherwise. *)
Definition read_core_type (hw : Cpuid) (max_leaf : Z) : Z :=
  if max_leaf >=? 0x1A then
    let r1a := read_cpuid hw 0x1A 0 in
    Z.land (Z.shiftr (eax r1a) 24) 0xFF
  else 0.

(** The record built for logical processor [lp] once the thread is pinned
    to it; [hw] is the instruction on the processor the thread runs on. *)
Definition make_record (hw : Cpuid) (max_leaf topo_leaf lp : Z)
    : PerCoreTopology :=
  let r := read_cpuid hw topo_leaf 0 in
  let apic := edx r in
  let ws := level_loop hw topo_leaf 8 0 (mkWidths 0 0 0) in
  let smt_mask := wrap32 (wrap32 (Z.shiftl 1 (smt_bits ws)) - 1) in
  let core_mask :=
    Z.land (wrap32 (wrap32 (Z.shiftl 1 (core_bits ws)) - 1)) (Z.lnot smt_mask) in
  mkTopo apic
         (read_core_type hw max_leaf)
         (Z.shiftr (Z.land apic core_mask) (smt_bits ws))
         lp
         (Z.shiftr apic (core_bits ws))
         (if tile_bits ws >? 0 then Z.shiftr apic (tile_bits ws) else 0)
         0 0.

(** The state the enumeration loop threads: the host, the caller's array
    and [*num_cores]. *)
Record Enum := mkEnum {
  os : Os.State;
  topo_array : list PerCoreTopology;
  num_cores : Z
}.

(** [for (int lp = 0; lp < total_logical_processors && *num_cores < 256; lp++)]
    with [n] the iterations left before [lp] reaches the total. The shift
    [(DWORD_PTR)1 << lp] takes its count modulo 64, as the 64-bit shift
    instruction does. *)
Fixpoint pin_loop (w : World) (max_leaf topo_leaf : Z) (n : nat) (lp : Z)
    (e : Enum) : Enum :=
  match n with
  | O => e
  | S n' =>
      if num_cores e <? 256 then
        let affinity_mask := to_u64 (Z.shiftl 1 (Z.land lp 63)) in
        let '(st', prev) := SetThreadAffinityMask (os e) affinity_mask in
        if prev =? 0 then
          pin_loop w max_leaf topo_leaf n' (lp + 1) e
        else
          let rec := make_record (cpu w st') max_leaf topo_leaf lp in
          pin_loop w max_leaf topo_leaf n' (lp + 1)
            (mkEnum st'
                    (<[Z.to_nat (num_cores e) := rec]> (topo_array e))
                    (num_cores e + 1))
      else e
  end.

(** [detect_apic_topology] *)
Definition detect_apic_topology (w : World) (st : Os.State)
    (topo : list PerCoreTopology) : Enum :=
  let e0 := mkEnum st topo 0 in
  let max_leaf := eax (read_cpuid (cpu w st) 0 0) in
  let topo_leaf := if max_leaf >=? 0x1F then 0x1F else 0xB in
  if max_leaf <? 0xB then e0
  else
    match core_query w with
    | QueryNoSize | QueryAllocFails | QueryFails => e0
    | QueryOk infos =>
        let total_logical_processors := count_processors infos in
        let '(st1, original_affinity) := SetThreadAffinityMask st 1 in
        let e := pin_loop w max_leaf topo_leaf
                   (Z.to_nat total_logical_processors) 0
                   (mkEnum st1 topo 0) in
        if original_affinity =? 0 then e
        else
          mkEnum (fst (SetThreadAffinityMask (os e) original_affinity))
                 (topo_array e) (num_cores e)
    end.

End Topo.

(** ** Cache-sharing groups *)

Module Groups.

(** The [while (val > 1) { shift++; val >>= 1; }] of [calc_shift], with
    [n] bounding the iterations left (an [int] needs at most 31). *)
Fixpoint calc_shift_loop (n : nat) (shift val : Z) : Z :=
  match n with
  | O => shift
  | S n' =>
      if val >? 1 then calc_shift_loop n' (shift + 1) (Z.shiftr val 1)
      else shift
  end.

(** The lambda [calc_shift]. *)
Definition calc_shift (cores_sharing : Z) : Z :=
  if cores_sharing <=? 1 then 0 else calc_shift_loop 32 0 cores_sharing.

(** The three output pointers; [None] is [NULL]. *)
Record Arrays := mkArrays {
  l1d_groups : option (list Z);
  l2_groups : option (list Z);
  l3_groups : option (list Z)
}.

Definition no_arrays : Arrays := mkArrays None None None.

(** [malloc(num_cores * sizeof(int))]: [NULL] or a block of unspecified
    content. *)
Definition malloc_ints (heap : option (nat -> Z)) (num_cores : nat)
    : option (list Z) :=
  match heap with
  | Some old => Some (map old (seq 0 num_cores))
  | None => None
  end.

(** The blocks while both loops run over them. *)
Record Blocks := mkBlocks { b1 : list Z; b2 : list Z; b3 : list Z }.

(** [for (int i = 0; i < num_cores; i++) { ...[i] = -1; }] *)
Definition init_loop (num_cores : nat) (b : Blocks) : Blocks :=
  fold_left
    (fun b i => mkBlocks (<[i := -1]> (b1 b)) (<[i := -1]> (b2 b))
                         (<[i := -1]> (b3 b)))
    (seq 0 num_cores) b.

(** [for (int i = 0; i < num_cores; i++) { int apic = topo_array[i].apic_id;
    ...[i] = apic >> ..._shift; }] *)
Definition assign_loop (topo : list PerCoreTopology) (num_cores : nat)
    (l1d_shift l2_shift l3_shift : Z) (b : Blocks) : Blocks :=
  fold_left
    (fun b i =>
       let apic := apic_id (nth i topo topo_zero) in
       mkBlocks (<[i := Z.shiftr apic l1d_shift]> (b1 b))
                (<[i := Z.shiftr apic l2_shift]> (b2 b))
                (<[i := Z.shiftr apic l3_shift]> (b3 b)))
    (seq 0 num_cores) b.

(** [derive_cache_sharing_groups]; [topo_array] and the three output
    pointers are non-null at the call in [main], where the outputs start
    as [NULL]. *)
Definition derive_cache_sharing_groups (w : Os.World)
    (topo : list PerCoreTopology) (num_cores : Z)
    (l1d l2 l3 : CacheInfo) : Arrays :=
  if num_cores =? 0 then no_arrays
  else
    let n := Z.to_nat num_cores in
    let a1 := malloc_ints (Os.heap_l1d w) n in
    let a2 := malloc_ints (Os.heap_l2 w) n in
    let a3 := malloc_ints (Os.heap_l3 w) n in
    match a1, a2, a3 with
    | Some x1, Some x2, Some x3 =>
        let b := init_loop n (mkBlocks x1 x2 x3) in
        let l1d_shift := calc_shift (cores_sharing l1d) in
        let l2_shift := calc_shift (cores_sharing l2) in
        let l3_shift := calc_shift (cores_sharing l3) in
        let b := assign_loop topo n l1d_shift l2_shift l3_shift b in
        mkArrays (Some (b1 b)) (Some (b2 b)) (Some (b3 b))
    | _, _, _ => mkArrays a1 a2 a3
    end.

(** The counting loop of [main]:
    [if (g[i] >= 0 && g[i] < 256 && !seen[g[i]]) { seen[g[i]] = 1; unique++; }]
    over the first [num_cores] entries of [groups]; [seen] is the
    256-entry table. *)
Definition count_step (groups : list Z) (acc : list Z * Z) (i : nat)
    : list Z * Z :=
  let '(seen, unique) := acc in
  let g := nth i groups 0 in
  if (g >=? 0) && (g <? 256) && (nth (Z.to_nat g) seen 0 =? 0) then
    (<[Z.to_nat g := 1]> seen, unique + 1)
  else (seen, unique).

Definition count_unique (groups : list Z) (num_cores : nat) : Z :=
  snd (fold_left (count_step groups) (seq 0 num_cores) (replicate 256 0, 0)).

End Groups.

(** ** The program *)

Module Main.
Import Os.

(** One element of the [apic_ids] array of the output. *)
Record ApicEntry := mkEntry {
  index : Z; apic : Z; entry_core_type : Z;
  l1d_group : Z; l2_group : Z; l3_group : Z
}.

(** The fields of the JSON object, in the order they are printed. The
    per-level detail fields are printed only when that level's [size_kb]
    is positive; the records are kept whole here. *)
Record Output := mkOutput {
  out_base_mhz : Z;
  out_max_mhz : Z;
  out_bus_mhz : Z;
  out_turbo_supported : Z;
  out_turbo_ratios : option (Z * Z * Z);
  out_brand : list ascii;
  out_caches : Caches;
  out_max_cpuid_leaf : Z;
  out_num_logical_cores : Z;
  out_apic_ids : list ApicEntry;
  l1d_instances : Z;
  l2_instances : Z;
  l3_instances : Z;
  out_success : Z
}.

(** [groups ? groups[i] : -1] *)
Definition group_at (groups : option (list Z)) (i : nat) : Z :=
  match groups with
  | Some g => nth i g 0
  | None => -1
  end.

Definition entry (topo : list PerCoreTopology) (a : Groups.Arrays) (i : nat)
    : ApicEntry :=
  let t := nth i topo topo_zero in
  mkEntry (logical_index t) (apic_id t) (core_type t)
          (group_at (Groups.l1d_groups a) i)
          (group_at (Groups.l2_groups a) i)
          (group_at (Groups.l3_groups a) i).

(** [main]: the printed object and the host state left behind. *)
Definition main (w : World) (st : Os.State) : Output * Os.State :=
  let hw := cpu w st in
  let brand := Brand.get_brand_string hw in
  let vendor := get_cpu_vendor hw in
  let max_leaf := get_max_cpuid_leaf hw in
  let f := Freq.resolve hw (wmi w) in
  let caches :=
    match vendor with
    | VENDOR_INTEL => Intel.detect_intel_caches hw caches_zero
    | VENDOR_AMD => Amd.detect_amd_caches hw caches_zero
    | VENDOR_UNKNOWN => caches_zero
    end in
  let e := Topo.detect_apic_topology w st (replicate 256 topo_zero) in
  let num_logical_cores := Topo.num_cores e in
  let n := Z.to_nat num_logical_cores in
  let a := Groups.derive_cache_sharing_groups w (Topo.topo_array e)
             num_logical_cores (l1d caches) (l2 caches) (l3 caches) in
  let turbo := Freq.get_turbo_ratios (cpu w (Topo.os e)) in
  let counts :=
    match Groups.l1d_groups a, Groups.l2_groups a, Groups.l3_groups a with
    | Some g1, Some g2, Some g3 =>
        (Groups.count_unique g1 n, Groups.count_unique g2 n,
         Groups.count_unique g3 n)
    | _, _, _ => (0, 0, 0)
    end in
  (mkOutput (Freq.base_mhz f) (Freq.max_mhz f) (Freq.bus_mhz f)
            (Freq.turbo_supported f) turbo (c_str brand) caches max_leaf
            num_logical_cores
            (map (entry (Topo.topo_array e) a) (seq 0 n))
            (fst (fst counts)) (snd (fst counts)) (snd counts)
            (Freq.success f),
   Topo.os e).

End Main.

(** * Specification vocabulary and example machines *)

Section CacheVocabulary.
Import Intel.

(** The size the stored geometry stands for, in KB (C division). *)
Definition geometry_kb (x : CacheInfo) : Z :=
  Z.quot (assoc x * partitions x * line_size x * sets x) 1024.

(** The size invariant, read literally. *)
Definition size_exact (x : CacheInfo) : Prop := size_kb x = geometry_kb x.

(** The size invariant as the decoder keeps it: the quotient is stored in
    an [int]. *)
Definition size_stored (x : CacheInfo) : Prop :=
  size_kb x = wrap32 (geometry_kb x).

Definition all_stored (c : Caches) : Prop :=
  forall t, size_stored (get_level t c).

End CacheVocabulary.

Section CacheSubleaves.
Import Intel.

(** A processor whose leaf 4 answers [subs] for subleaves 0, 1, ... and
    zeros everywhere else. *)
Definition leaf4_only (subs : list CPUIDResult) : Cpuid :=
  fun leaf sub =>
    if (leaf =? 4) && (0 <=? sub) then nth (Z.to_nat sub) subs (mkCPUID 0 0 0 0)
    else mkCPUID 0 0 0 0.

(** L1 data, 8 ways, 1 partition, 64-byte lines, 64 sets: 32 KB. *)
Definition sub_l1d_32k : CPUIDResult := mkCPUID 0x121 0x01C0003F 63 0.
(** L1 data again, 128 sets: 64 KB. *)
Definition sub_l1d_64k : CPUIDResult := mkCPUID 0x121 0x01C0003F 127 0.
(** Unified L2 whose sharing-width field is 0b111. *)
Definition sub_l2_shared8 : CPUIDResult := mkCPUID 0x1C043 0x01C0003F 1023 0.
(** L1 data with every geometry field at its maximum and 1025 sets. *)
Definition sub_l1d_huge : CPUIDResult := mkCPUID 0x121 0xFFFFFFFF 1024 0.

End CacheSubleaves.

Section LeafFields.
Import Intel.

(** The fields of one subleaf of leaf 4 as the leaf encodes them: EBX and
    ECX taken as unsigned 32-bit words, each minus-one field incremented. *)
Definition leaf_line_size (r : CPUIDResult) : Z := to_u32 (ebx r) mod 2 ^ 12 + 1.
Definition leaf_partitions (r : CPUIDResult) : Z :=
  (to_u32 (ebx r) / 2 ^ 12) mod 2 ^ 10 + 1.
Definition leaf_ways (r : CPUIDResult) : Z :=
  (to_u32 (ebx r) / 2 ^ 22) mod 2 ^ 10 + 1.
Definition leaf_sets (r : CPUIDResult) : Z := to_u32 (ecx r) + 1.

(** The size these fields stand for, in KB. *)
Definition leaf_size_kb (r : CPUIDResult) : Z :=
  leaf_ways r * leaf_partitions r * leaf_line_size r * leaf_sets r / 1024.

(** L1 data with one way, one partition, one byte per line and
    2^31 + 1 sets. *)
Definition sub_l1d_sets_high : CPUIDResult := mkCPUID 0x121 0 0x80000000 0.
(** L1 data of 64 bytes: one way, one partition, one 64-byte line, one
    set. *)
Definition sub_l1d_64b : CPUIDResult := mkCPUID 0x121 0x3F 0 0.

(** [x] is untouched, or it is the record decoded from one of the 32
    subleaves, one that is addressed to level [t]. *)
Definition written_by (hw : Cpuid) (t : Level) (x : CacheInfo) : Prop :=
  x = cache_zero \/
  exists sub, 0 <= sub < 32 /\ x = decoded (read_cpuid hw 4 sub) /\
    select_target (dec_cache_type (read_cpuid hw 4 sub))
                  (dec_level (read_cpuid hw 4 sub)) = Some t.

End LeafFields.

Section TokenVocabulary.
Import Brand.

(** [c] is the letter [u], in either case ([u] being the upper-case one). *)
Definition same_letter (c u : ascii) : Prop :=
  c = u \/ code c = code u + 32.

(** The string [s] contains the unit token [tok], case-insensitively. *)
Definition has_token (tok s : list ascii) : Prop :=
  exists pre mid post, s = pre ++ mid ++ post /\ Forall2 same_letter mid tok.

End TokenVocabulary.

Section LetterCase.
Import Brand.

Definition is_upper_letter (u : ascii) : Prop := 65 <= code u <= 90.

End LetterCase.

Section GroupVocabulary.
Import Groups.

(** Storing [f i] at every index [i < n], in increasing order. *)
Definition put_all (f : nat -> Z) (n : nat) (l : list Z) : list Z :=
  fold_left (fun l i => <[i := f i]> l) (seq 0 n) l.

(** The group id the assignment loop stores for entry [i] at a level whose
    sharing count is [cs]. *)
Definition group_id (topo : list PerCoreTopology) (cs : Z) (i : nat) : Z :=
  Z.shiftr (apic_id (nth i topo topo_zero)) (calc_shift cs).

End GroupVocabulary.

Section BitAgreement.
Import Groups.

(** Two hardware identifiers that agree on every bit from position [k]
    upwards. *)
Definition differ_only_below (k a b : Z) : Prop :=
  forall i, k <= i -> Z.testbit a i = Z.testbit b i.

End BitAgreement.

Section CountVocabulary.
Import Groups.

(** The group ids the 256-entry table can hold. *)
Definition in_table (g : Z) : bool := (g >=? 0) && (g <? 256).

(** The set of ids of [l] that fall in the table, and its size. *)
Definition counted (l : list Z) : gset Z := list_to_set (List.filter in_table l).
Definition distinct_in_table (l : list Z) : Z := Z.of_nat (size (counted l)).

(** The body of the counting loop on the value [g = groups[i]]. *)
Definition count_val (acc : list Z * Z) (g : Z) : list Z * Z :=
  let '(seen, unique) := acc in
  if (g >=? 0) && (g <? 256) && (nth (Z.to_nat g) seen 0 =? 0) then
    (<[Z.to_nat g := 1]> seen, unique + 1)
  else (seen, unique).

(** The table marks exactly the ids of [X]. *)
Definition table_marks (seen : list Z) (X : gset Z) : Prop :=
  length seen = 256%nat /\
  forall g, 0 <= g < 256 -> (nth (Z.to_nat g) seen 0 <> 0 <-> g ∈ X).

End CountVocabulary.

Section Machines.
Import Os.

Definition zeros : CPUIDResult := mkCPUID 0 0 0 0.

(** The scheduler of the examples: the lowest processor of the mask. *)
Definition lowest_bit (mask : Z) : Z := Z.log2 (Z.land mask (- mask)).

(** Processor [p] of a machine whose leaf 0 answers [leaf0], whose
    topology leaves report [p] as the hardware id in EDX and no level, and
    whose other leaves answer [other]. *)
Definition plain_cpu (leaf0 : CPUIDResult) (other : Z -> Z -> CPUIDResult)
    (p : Z) : Cpuid :=
  fun leaf sub =>
    if leaf =? 0 then leaf0
    else if (leaf =? 0xB) || (leaf =? 0x1F) then mkCPUID 0 0 0 p
    else other leaf sub.

(** A host that reports one core entry with the given group masks, has no
    management layer, and whose allocations succeed. *)
Definition host (cpu : Z -> Cpuid) (masks : list Z) : World :=
  mkWorld cpu lowest_bit (QueryOk [mkInfo RelationProcessorCore masks]) None
          (Some (fun _ => 0)) (Some (fun _ => 0)) (Some (fun _ => 0)).

(** Two processors, topology leaf present, unrecognised vendor string. *)
Definition host_unknown_vendor : World :=
  host (plain_cpu (mkCPUID 0xB 0 0 0) (fun _ _ => zeros)) [3].

(** Two processors of vendor family B ("AuthenticAMD"): 32 KB L1 caches,
    512 KB L2, 16 MB L3. *)
Definition amd_leaves (leaf sub : Z) : CPUIDResult :=
  if leaf =? 0x80000005 then mkCPUID 0 0 0x20000000 0x20000000
  else if leaf =? 0x80000006 then mkCPUID 0 0 0x02000000 0x00800000
  else zeros.

Definition host_amd : World :=
  host (plain_cpu (mkCPUID 0xB 0x68747541 0x444D4163 0x69746E65) amd_leaves) [3].

(** The thread may run on processors 0 and 1. *)
Definition os_two : Os.State := mkOs 3 3.

(** Sixteen records with hardware ids 0..15. *)
Definition topo16 : list PerCoreTopology :=
  map (fun i => mkTopo (Z.of_nat i) 0 0 (Z.of_nat i) 0 0 0 0) (seq 0 16).

Definition cache_shared_by (cs : Z) : CacheInfo := mkCache 1024 8 64 1 2048 cs 1.

End Machines.

Section ChainVocabulary.
Import Freq.

(** The state of the chain before each later stage of one run. *)
Definition after_leaf16 (hw : Cpuid) : State :=
  stage_leaf16 hw (get_max_cpuid_leaf hw) init.
Definition after_leaf15 (hw : Cpuid) : State :=
  stage_leaf15 hw (get_max_cpuid_leaf hw) (after_leaf16 hw).
Definition after_leaf06 (hw : Cpuid) : State :=
  stage_leaf06 hw (get_max_cpuid_leaf hw) (after_leaf15 hw).
Definition after_brand (hw : Cpuid) : State :=
  stage_brand (Brand.get_brand_string hw) (after_leaf06 hw).
Definition after_wmi (hw : Cpuid) (wmi : option Z) : State :=
  stage_wmi wmi (after_brand hw).

(** The brand string yields a positive frequency. *)
Definition brand_usable (brand : list ascii) : Prop :=
  exists mhz, Brand.parse_frequency_from_brand brand = Some mhz /\ 0 < mhz.

(** Same [base_mhz] and [max_mhz]. *)
Definition same_clocks (s s' : State) : Prop :=
  base_mhz s' = base_mhz s /\ max_mhz s' = max_mhz s.

(** The test that guards brand parsing. *)
Definition brand_wanted (s : State) : bool :=
  (success s =? 0) || (base_mhz s =? 0) || (max_mhz s =? 0).

End ChainVocabulary.

Section FrequencyMachines.

(** Max leaf 0x16; leaf 0x16 reports base 2400 MHz, no max, bus 100 MHz;
    no crystal-clock leaf data, no brand string. *)
Definition cpu_base_only : Cpuid :=
  plain_cpu (mkCPUID 0x16 0 0 0)
    (fun leaf _ => if leaf =? 0x16 then mkCPUID 2400 0 100 0 else zeros) 0.

(** Max leaf 0x16; leaf 0x16 reports base 3000 MHz, max 4000 MHz and no
    bus clock; leaf 0x15 reports a 24 MHz crystal with ratio 250/2. *)
Definition cpu_bus_from_crystal : Cpuid :=
  plain_cpu (mkCPUID 0x16 0 0 0)
    (fun leaf _ =>
       if leaf =? 0x16 then mkCPUID 3000 4000 0 0
       else if leaf =? 0x15 then mkCPUID 2 250 24000000 0
       else zeros) 0.

End FrequencyMachines.

Section TopologyMachines.
Import Os.

(** Three processors, of which the process may use only 1 and 2. *)
Definition host_three : World :=
  host (plain_cpu (mkCPUID 0xB 0 0 0) (fun _ _ => zeros)) [7].
Definition os_without_cpu0 : Os.State := mkOs 6 6.

(** One processor of a hybrid part: max leaf 0x1A, whose EAX carries the
    core type 0x40 in its high byte. *)
Definition host_hybrid : World :=
  host (plain_cpu (mkCPUID 0x1A 0 0 0)
          (fun leaf _ => if leaf =? 0x1A then mkCPUID 0x40000000 0 0 0 else zeros))
       [1].
Definition os_one : Os.State := mkOs 1 1.

End TopologyMachines.

Section AffinityVocabulary.
Import Os Topo.

(** The thread mask is a non-empty subset of the process mask. *)
Definition affinity_valid (st : Os.State) : Prop :=
  thread_affinity st <> 0 /\
  Z.land (thread_affinity st) (process_affinity st) = thread_affinity st.

End AffinityVocabulary.

(** ** Vocabulary and machines for the further properties *)

Section CacheShapes.
Import Intel.

(** A record as the deterministic-cache-leaf decoder writes it: ways,
    partitions and line size in the range of their bit field plus one,
    the set count some [int] (ECX + 1 computed in [int], so 0 or negative
    for the largest fields), the sharing count a power of two up to 2^12,
    the inclusivity a single bit. *)
Definition intel_shaped (x : CacheInfo) : Prop :=
  1 <= assoc x <= 1024 /\ 1 <= partitions x <= 1024 /\
  1 <= line_size x <= 4096 /\ in_int (sets x) /\
  (exists k, 0 <= k <= 12 /\ cores_sharing x = 2 ^ k) /\
  (is_inclusive x = 0 \/ is_inclusive x = 1).

(** A record as the extended-leaf decoder leaves it when it reports a
    size: no geometry, sharing and inclusivity marked unknown. *)
Definition amd_shaped (x : CacheInfo) : Prop :=
  0 < size_kb x /\ assoc x = 0 /\ line_size x = 0 /\ partitions x = 0 /\
  sets x = 0 /\ cores_sharing x = -1 /\ is_inclusive x = -1.

End CacheShapes.

Section VendorWords.

(** The three signature words of leaf 0, in the order the vendor string
    is assembled from them, as unsigned 32-bit numbers. *)
Definition vendor_words (hw : Cpuid) : Z * Z * Z :=
  let r := read_cpuid hw 0 0 in (to_u32 (ebx r), to_u32 (edx r), to_u32 (ecx r)).

End VendorWords.

Section TopologyVocabulary.
Import Os Topo.

(** The number of set bits among bits 0..[n-1] of [mask]. *)
Definition set_bits (n : nat) (mask : Z) : Z :=
  Z.of_nat (length (List.filter (Z.testbit mask) (map Z.of_nat (seq 0 n)))).

Definition sum_Z (l : list Z) : Z := fold_right Z.add 0 l.

(** The logical processors one entry of the core-relationship query
    stands for: the set bits of its 64-bit group masks if it is a core
    entry, none otherwise. *)
Definition entry_processors (info : ProcessorInfo) : Z :=
  if Relationship info =? RelationProcessorCore
  then sum_Z (map (set_bits 64) (GroupMask info)) else 0.

(** Logical processor [lp] is open to the process. *)
Definition allowed (st : Os.State) (lp : Z) : bool :=
  Z.testbit (process_affinity st) lp.

(** The logical processors below [total] the process may run on, in
    increasing order. *)
Definition allowed_below (st : Os.State) (total : Z) : list Z :=
  List.filter (allowed st) (map Z.of_nat (seq 0 (Z.to_nat total))).

(** The record enumeration builds for [lp]: decoded on the processor the
    thread runs on once pinned to [lp] alone. *)
Definition record_of (w : World) (max_leaf topo_leaf lp : Z) : PerCoreTopology :=
  make_record (cpuid_on w (running_on w (2 ^ lp))) max_leaf topo_leaf lp.

(** A processor whose topology leaf reports hardware id 13 with a thread
    level of width 1 and a core level of width 4. *)
Definition cpu_two_levels : Cpuid :=
  fun leaf sub =>
    if leaf =? 0 then mkCPUID 0xB 0 0 0
    else if leaf =? 0xB then
      if sub =? 0 then mkCPUID 1 0 0x100 13
      else if sub =? 1 then mkCPUID 4 0 0x201 13
      else mkCPUID 0 0 0 13
    else zeros.

End TopologyVocabulary.

Section ShiftWidths.
Import Topo.

(** Shift widths as a 5-bit field delivers them. *)
Definition widths_ok (ws : Widths) : Prop :=
  0 <= smt_bits ws <= 31 /\ 0 <= core_bits ws <= 31 /\ 0 <= tile_bits ws <= 31.

End ShiftWidths.

Section FailingHost.
Import Os.

(** Two processors, unknown vendor, and a heap that hands out nothing. *)
Definition host_no_memory : World :=
  mkWorld (plain_cpu (mkCPUID 0xB 0 0 0) (fun _ _ => zeros)) lowest_bit
          (QueryOk [mkInfo RelationProcessorCore [3]]) None None None None.

(** One processor whose leaf 0x16 reports 3000/4000/100 MHz. *)
Definition host_leaf16 : World :=
  host (plain_cpu (mkCPUID 0x16 0 0 0)
          (fun leaf _ => if leaf =? 0x16 then mkCPUID 3000 4000 100 0 else zeros))
       [1].

End FailingHost.

Section FallbackMachines.
Import Os.

(** A processor with max leaf 1 whose brand leaves spell
    "CPU 2400MHz". *)
Definition cpu_brand_only : Cpuid :=
  fun leaf sub =>
    if leaf =? 0 then mkCPUID 1 0 0 0
    else if leaf =? 0x80000000 then mkCPUID 0x80000004 0 0 0
    else if leaf =? 0x80000002 then mkCPUID 0x20555043 0x30303432 0x007A484D 0
    else zeros.

(** Two processors on a host whose core-relationship query fails. *)
Definition host_query_fails : World :=
  mkWorld (plain_cpu (mkCPUID 0xB 0 0 0) (fun _ _ => zeros)) lowest_bit
          QueryFails None (Some (fun _ => 0)) (Some (fun _ => 0))
          (Some (fun _ => 0)).

End FallbackMachines.

Section UniformLeaves.
Import Os.

(** Every logical processor answers [leaf] (subleaf 0) alike. *)
Definition same_on_all (w : World) (leaf : Z) : Prop :=
  forall p q, read_cpuid (cpuid_on w p) leaf 0 = read_cpuid (cpuid_on w q) leaf 0.

(** Three processors whose leaf 0x16 reports 3000/4000/100 MHz. *)
Definition host_three_leaf16 : World :=
  host (plain_cpu (mkCPUID 0x16 0 0 0)
          (fun leaf _ => if leaf =? 0x16 then mkCPUID 3000 4000 100 0 else zeros))
       [7].

End UniformLeaves.

(** * Properties *)

(** ** Machine integers *)

Section IntFacts.

Lemma wrap32_range z : in_int (wrap32 z).
Proof.
  unfold in_int, wrap32.
  pose proof (Z.mod_pos_bound (z + 2^31) (2^32) ltac:(lia)). lia.
Qed.

Lemma wrap32_id z : in_int z -> wrap32 z = z.
Proof.
  unfold in_int, wrap32. intros H.
  rewrite Z.mod_small by lia. lia.
Qed.

Lemma wrap64_id z : -2^63 <= z < 2^63 -> wrap64 z = z.
Proof.
  unfold wrap64. intros H.
  rewrite Z.mod_small by lia. lia.
Qed.

(** A field extracted with a mask of [n] ones lies in [0, 2^n). *)
Lemma field_range x n : 0 <= n -> 0 <= Z.land x (Z.ones n) < 2 ^ n.
Proof.
  intros Hn. rewrite Z.land_ones by assumption.
  apply Z.mod_pos_bound. apply Z.pow_pos_nonneg; lia.
Qed.

End IntFacts.

(** ** The deterministic-cache-leaf decoder *)

Section IntelCaches.
Import Intel.

Lemma ways_range r : 1 <= dec_ways r <= 1024.
Proof.
  unfold dec_ways. pose proof (field_range (Z.shiftr (ebx r) 22) 10 ltac:(lia)) as H.
  change (Z.ones 10) with 1023 in H. change (2 ^ 10) with 1024 in H. lia.
Qed.

Lemma partitions_range r : 1 <= dec_partitions r <= 1024.
Proof.
  unfold dec_partitions.
  pose proof (field_range (Z.shiftr (ebx r) 12) 10 ltac:(lia)) as H.
  change (Z.ones 10) with 1023 in H. change (2 ^ 10) with 1024 in H. lia.
Qed.

Lemma line_size_range r : 1 <= dec_line_size r <= 4096.
Proof.
  unfold dec_line_size. pose proof (field_range (ebx r) 12 ltac:(lia)) as H.
  change (Z.ones 12) with 4095 in H. change (2 ^ 12) with 4096 in H. lia.
Qed.

(** The 64-bit product never overflows. *)
Lemma size_bytes_exact r :
  dec_size_bytes r = dec_ways r * dec_partitions r * dec_line_size r * dec_sets r.
Proof.
  unfold dec_size_bytes.
  pose proof (ways_range r) as Hw. pose proof (partitions_range r) as Hp.
  pose proof (line_size_range r) as Hl.
  pose proof (wrap32_range (ecx r + 1)) as Hs. fold (dec_sets r) in Hs.
  unfold in_int in Hs.
  set (w := dec_ways r) in *. set (p := dec_partitions r) in *.
  set (l := dec_line_size r) in *. set (s := dec_sets r) in *.
  assert (Hwp : 1 <= w * p <= 1048576) by nia.
  assert (Hwpl : 1 <= w * p * l <= 4294967296) by nia.
  rewrite (wrap64_id (w * p)) by lia.
  rewrite (wrap64_id (w * p * l)) by lia.
  apply wrap64_id. nia.
Qed.

Lemma decoded_size_stored r : size_stored (decoded r).
Proof.
  unfold size_stored, geometry_kb, decoded; simpl.
  unfold dec_size_kb. now rewrite size_bytes_exact.
Qed.

Lemma cache_zero_size_stored : size_stored cache_zero.
Proof. reflexivity. Qed.

Lemma fill_all_stored r c : all_stored c -> all_stored (fill r c).
Proof.
  intros H. unfold fill.
  destruct (select_target _ _) as [t|]; [|exact H].
  destruct (size_kb (get_level t c) =? 0); [|exact H].
  intros t'. pose proof (H t') as Ht'. pose proof (decoded_size_stored r).
  destruct t, t'; simpl in *; assumption.
Qed.

Lemma subleaf_loop_all_stored hw n :
  forall sub c, all_stored c -> all_stored (subleaf_loop hw n sub c).
Proof.
  induction n as [|n IH]; intros sub c H; simpl; [exact H|].
  destruct (dec_cache_type _ =? 0); [exact H|].
  apply IH, fill_all_stored, H.
Qed.

(** A step of the loop leaves a level whose [size_kb] is non-zero alone. *)
Lemma fill_keeps_populated r c t :
  size_kb (get_level t c) <> 0 -> get_level t (fill r c) = get_level t c.
Proof.
  intros H. unfold fill.
  destruct (select_target _ _) as [t'|]; [|reflexivity].
  destruct (size_kb (get_level t' c) =? 0) eqn:E; [|reflexivity].
  apply Z.eqb_eq in E.
  destruct t, t'; simpl in *; try reflexivity; contradiction.
Qed.

(** A step that changes a level found its [size_kb] at zero. *)
Lemma fill_writes_only_zero r c t :
  get_level t (fill r c) <> get_level t c -> size_kb (get_level t c) = 0.
Proof.
  intros H. destruct (Z.eq_dec (size_kb (get_level t c)) 0) as [E|E]; [exact E|].
  exfalso. apply H. now apply fill_keeps_populated.
Qed.

End IntelCaches.

Section LeafFieldFacts.
Import Intel.

(** A bit field of a register is the same whether the register is read
    as an [int] or as an unsigned word. *)
Lemma field_unsigned x lo n :
  0 <= lo -> 0 <= n -> lo + n <= 32 ->
  Z.land (Z.shiftr x lo) (Z.ones n) = (to_u32 x / 2 ^ lo) mod 2 ^ n.
Proof.
  intros Hlo Hn Hb. rewrite Z.land_ones by assumption.
  rewrite Z.shiftr_div_pow2 by assumption. unfold to_u32.
  apply Z.bits_inj'. intros i Hi.
  destruct (Z.ltb_spec i n) as [L|L].
  - rewrite !Z.mod_pow2_bits_low by lia.
    rewrite !Z.div_pow2_bits by lia.
    rewrite Z.mod_pow2_bits_low by lia. reflexivity.
  - rewrite !Z.mod_pow2_bits_high by lia. reflexivity.
Qed.

Lemma dec_ways_leaf r : dec_ways r = leaf_ways r.
Proof.
  unfold dec_ways, leaf_ways. change 1023 with (Z.ones 10).
  now rewrite field_unsigned by lia.
Qed.

Lemma dec_partitions_leaf r : dec_partitions r = leaf_partitions r.
Proof.
  unfold dec_partitions, leaf_partitions. change 1023 with (Z.ones 10).
  now rewrite field_unsigned by lia.
Qed.

Lemma dec_line_size_leaf r : dec_line_size r = leaf_line_size r.
Proof.
  unfold dec_line_size, leaf_line_size. change 4095 with (Z.ones 12).
  rewrite <- (Z.shiftr_0_r (ebx r)) at 1.
  rewrite field_unsigned by lia. now rewrite Z.pow_0_r, Z.div_1_r.
Qed.

(** The set count survives the [int] addition when it fits an [int]. *)
Lemma dec_sets_leaf r : in_int (leaf_sets r) -> dec_sets r = leaf_sets r.
Proof.
  unfold dec_sets, leaf_sets, in_int, to_u32, wrap32. intros H.
  pose proof (Z.mod_pos_bound (ecx r) (2 ^ 32) ltac:(lia)) as B.
  rewrite <- (Z.add_mod_idemp_l (ecx r + 1)) by lia.
  rewrite <- (Z.add_mod_idemp_l (ecx r)) by lia.
  rewrite (Z.add_mod_idemp_l (ecx r mod 2 ^ 32 + 1)) by lia.
  rewrite Z.mod_small by lia. lia.
Qed.

Lemma leaf_fields_pos r :
  1 <= leaf_ways r <= 1024 /\ 1 <= leaf_partitions r <= 1024 /\
  1 <= leaf_line_size r <= 4096 /\ 1 <= leaf_sets r <= 2 ^ 32.
Proof.
  rewrite <- dec_ways_leaf, <- dec_partitions_leaf, <- dec_line_size_leaf.
  pose proof (ways_range r). pose proof (partitions_range r).
  pose proof (line_size_range r).
  unfold leaf_sets, to_u32.
  pose proof (Z.mod_pos_bound (ecx r) (2 ^ 32) ltac:(lia)). lia.
Qed.

(** What the decoder stores for a subleaf whose set count fits an [int]. *)
Lemma decoded_leaf r :
  let x := decoded r in
  assoc x = leaf_ways r /\ partitions x = leaf_partitions r /\
  line_size x = leaf_line_size r /\
  (in_int (leaf_sets r) ->
   sets x = leaf_sets r /\
   (in_int (leaf_size_kb r) -> size_kb x = leaf_size_kb r /\ size_exact x)).
Proof.
  intros x. unfold x, decoded. cbn [assoc partitions line_size sets size_kb].
  split; [apply dec_ways_leaf|]. split; [apply dec_partitions_leaf|].
  split; [apply dec_line_size_leaf|]. intros Hs.
  split; [now apply dec_sets_leaf|]. intros Hq.
  assert (E : dec_size_kb r = leaf_size_kb r).
  { unfold dec_size_kb. rewrite size_bytes_exact.
    rewrite dec_ways_leaf, dec_partitions_leaf, dec_line_size_leaf,
      dec_sets_leaf by assumption.
    pose proof (leaf_fields_pos r) as (A & B & C & D).
    rewrite Z.quot_div_nonneg by nia.
    fold (leaf_size_kb r). now apply wrap32_id. }
  split; [exact E|].
  unfold size_exact, geometry_kb. cbn [assoc partitions line_size sets size_kb].
  rewrite E. unfold leaf_size_kb.
  rewrite dec_ways_leaf, dec_partitions_leaf, dec_line_size_leaf,
    dec_sets_leaf by assumption.
  pose proof (leaf_fields_pos r) as (A & B & C & D).
  symmetry. apply Z.quot_div_nonneg; nia.
Qed.

Lemma subleaf_loop_written hw n :
  forall sub c,
    0 <= sub -> sub + Z.of_nat n = 32 ->
    (forall t, written_by hw t (get_level t c)) ->
    forall t, written_by hw t (get_level t (subleaf_loop hw n sub c)).
Proof.
  induction n as [|n IH]; intros sub c H0 Hn H t; cbn [subleaf_loop]; [apply H|].
  destruct (dec_cache_type _ =? 0); [apply H|].
  apply IH; [lia | lia |]. clear t. intros t. unfold fill.
  destruct (select_target _ _) as [t'|] eqn:S'; [|apply H].
  destruct (size_kb (get_level t' c) =? 0); [|apply H].
  pose proof (H t) as Ht.
  destruct t, t'; cbn [get_level set_level l1d l1i l2 l3];
    try exact Ht; right; exists sub; (split; [lia|]);
    (split; [reflexivity | exact S']).
Qed.

End LeafFieldFacts.

Section IntelCachesClaims.
Import Intel.

(** C4, amended: every level record the decoder leaves behind is
    untouched or the one decoded from a subleaf of leaf 4 addressed to
    that level: its associativity, partitions and line size are that
    subleaf's fields, each minus-one field incremented on read; whenever
    the subleaf's set count (ECX + 1, ECX an unsigned word) fits an [int],
    [sets] is that count and, if the quotient
    ways * partitions * line_size * sets / 1024 fits an [int] too, the
    stored [size_kb] is exactly that quotient. *)
Theorem intel_size_kb_stored hw t :
  let x := get_level t (detect_intel_caches hw caches_zero) in
  written_by hw t x /\
  (forall sub,
     let r := read_cpuid hw 4 sub in
     x = decoded r ->
     assoc x = leaf_ways r /\ partitions x = leaf_partitions r /\
     line_size x = leaf_line_size r /\
     (in_int (leaf_sets r) ->
      sets x = leaf_sets r /\
      (in_int (leaf_size_kb r) ->
       size_kb x = leaf_size_kb r /\ size_exact x))).
Proof.
  intros x. split.
  - apply subleaf_loop_written; [lia | reflexivity |].
    intros t'. left. destruct t'; reflexivity.
  - intros sub r E. rewrite E. exact (decoded_leaf r).
Qed.

(** A 32 KB L1 data cache: 8 ways, 1 partition, 64-byte lines, 64 sets. *)
Lemma intel_size_kb_stored_witness :
  let hw := leaf4_only [sub_l1d_32k] in
  let x := get_level L1D (detect_intel_caches hw caches_zero) in
  let r := read_cpuid hw 4 0 in
  x = decoded r /\ in_int (leaf_sets r) /\ in_int (leaf_size_kb r) /\
  leaf_ways r = 8 /\ leaf_partitions r = 1 /\ leaf_line_size r = 64 /\
  leaf_sets r = 64 /\ leaf_size_kb r = 32 /\
  size_kb x = leaf_size_kb r /\ size_exact x.
Proof.
  assert (E : get_level L1D (detect_intel_caches (leaf4_only [sub_l1d_32k]) caches_zero)
              = decoded (read_cpuid (leaf4_only [sub_l1d_32k]) 4 0))
    by (vm_compute; reflexivity).
  assert (Hs : in_int (leaf_sets (read_cpuid (leaf4_only [sub_l1d_32k]) 4 0)))
    by (vm_compute; split; [discriminate | reflexivity]).
  assert (Hq : in_int (leaf_size_kb (read_cpuid (leaf4_only [sub_l1d_32k]) 4 0)))
    by (vm_compute; split; [discriminate | reflexivity]).
  pose proof (proj2 (intel_size_kb_stored (leaf4_only [sub_l1d_32k]) L1D) 0 E)
    as (_ & _ & _ & S).
  pose proof (proj2 (S Hs) Hq) as [A B].
  exact (conj E (conj Hs (conj Hq (conj eq_refl (conj eq_refl (conj eq_refl
          (conj eq_refl (conj eq_refl (conj A B))))))))).
Defined.

(** C4 as stated fails on in-range fields. With 1024 ways, 1024
    partitions, 4096-byte lines and 1025 sets the quotient is
    2^32 + 2^22 and the populated record holds 2^22. With 1 way, 1
    partition, 1-byte lines and 2^31 + 1 sets the quotient is 2^21, while
    the record holds a set count of -(2^31 - 1) and a size of
    -(2^21 - 1). *)
Lemma intel_size_kb_not_exact :
  let x := get_level L1D (detect_intel_caches (leaf4_only [sub_l1d_huge]) caches_zero) in
  let y := get_level L1D (detect_intel_caches (leaf4_only [sub_l1d_sets_high]) caches_zero) in
  (assoc x = 1024 /\ partitions x = 1024 /\ line_size x = 4096 /\ sets x = 1025 /\
   size_kb x = 4194304 /\ geometry_kb x = 4299161600 /\ ~ size_exact x) /\
  (leaf_size_kb sub_l1d_huge = 4299161600 /\
   size_kb x <> leaf_size_kb sub_l1d_huge) /\
  (leaf_ways sub_l1d_sets_high = 1 /\ leaf_partitions sub_l1d_sets_high = 1 /\
   leaf_line_size sub_l1d_sets_high = 1 /\
   leaf_sets sub_l1d_sets_high = 2147483649 /\
   leaf_size_kb sub_l1d_sets_high = 2097152 /\
   sets y = -2147483647 /\ size_kb y = -2097151 /\
   size_kb y <> leaf_size_kb sub_l1d_sets_high).
Proof.
  vm_compute. repeat split; discriminate.
Qed.

(** The guard of the write: a subleaf changes a level record only while
    that record's [size_kb] is zero, and once a record's [size_kb] is
    non-zero no later subleaf of the loop changes it. *)
Theorem intel_first_writer_wins hw t c :
  (forall r, get_level t (fill r c) <> get_level t c ->
             size_kb (get_level t c) = 0) /\
  (size_kb (get_level t c) <> 0 ->
   forall n sub, get_level t (subleaf_loop hw n sub c) = get_level t c).
Proof.
  split.
  - intros r. apply fill_writes_only_zero.
  - intros H n. revert c H.
    induction n as [|n IH]; intros c H sub; simpl; [reflexivity|].
    destruct (dec_cache_type _ =? 0); [reflexivity|].
    rewrite IH.
    + now apply fill_keeps_populated.
    + now rewrite fill_keeps_populated.
Qed.

(** Two subleaves both reporting L1 data: the record is the first one's. *)
Lemma intel_first_writer_wins_witness :
  let hw := leaf4_only [sub_l1d_32k; sub_l1d_64k] in
  let c1 := fill (read_cpuid hw 4 0) caches_zero in
  size_kb (get_level L1D c1) <> 0 /\
  get_level L1D (subleaf_loop hw 31 1 c1) = get_level L1D c1 /\
  detect_intel_caches hw caches_zero = subleaf_loop hw 31 1 c1 /\
  size_kb (l1d (detect_intel_caches hw caches_zero)) = 32.
Proof.
  assert (H : size_kb (get_level L1D
                (fill (read_cpuid (leaf4_only [sub_l1d_32k; sub_l1d_64k]) 4 0)
                      caches_zero)) <> 0) by (vm_compute; discriminate).
  split; [exact H|]. split.
  - exact (proj2 (intel_first_writer_wins
                    (leaf4_only [sub_l1d_32k; sub_l1d_64k]) L1D _) H 31%nat 1).
  - split; reflexivity.
Defined.

(** C8: a level can be filled twice. The first L1 data subleaf describes
    a 64-byte cache and is written with a [size_kb] of 0; the guard
    [size_kb == 0] of the write (commented "Only fill once") therefore
    lets the second L1 data subleaf overwrite every field of the
    record. *)
Theorem intel_zero_size_refilled :
  let hw := leaf4_only [sub_l1d_64b; sub_l1d_32k] in
  let c1 := fill (read_cpuid hw 4 0) caches_zero in
  l1d c1 = mkCache 0 1 64 1 1 1 0 /\
  detect_intel_caches hw caches_zero = fill (read_cpuid hw 4 1) c1 /\
  l1d (detect_intel_caches hw caches_zero) = mkCache 32 8 64 1 64 1 0.
Proof.
  vm_compute. repeat split.
Qed.

End IntelCachesClaims.

(** ** Brand-string parsing *)

Section BrandParsing.
Import Brand.

Lemma code_char_of z : 0 <= z < 256 -> code (char_of z) = z.
Proof.
  intros H. unfold code, char_of.
  rewrite Z.mod_small by lia.
  rewrite N_ascii_embedding by lia. lia.
Qed.

Lemma code_range c : 0 <= code c < 256.
Proof. unfold code. pose proof (N_ascii_bounded c). lia. Qed.

Lemma to_upper_same_letter c : same_letter c (to_upper c).
Proof.
  unfold same_letter, to_upper.
  destruct ((97 <=? code c) && (code c <=? 122)) eqn:E; [|now left].
  right. apply andb_true_iff in E as [E1 E2].
  rewrite code_char_of by lia. lia.
Qed.

Lemma map_to_upper_same_letter mid :
  Forall2 same_letter mid (map to_upper mid).
Proof.
  induction mid as [|c mid IH]; simpl; constructor; auto using to_upper_same_letter.
Qed.

Lemma is_prefix_app needle : forall hay,
  is_prefix needle hay = true -> exists post, hay = needle ++ post.
Proof.
  induction needle as [|a needle IH]; intros hay H; simpl in *.
  - now exists hay.
  - destruct hay as [|b hay]; [discriminate|].
    apply andb_true_iff in H as [Hab H].
    apply Ascii.eqb_eq in Hab. subst b.
    destruct (IH _ H) as [post ->]. now exists post.
Qed.

Lemma strstr_found needle : forall hay i,
  strstr hay needle = Some i -> exists pre post, hay = pre ++ needle ++ post.
Proof.
  induction hay as [|c hay IH]; intros i H; simpl in H.
  - destruct (is_prefix needle []) eqn:E; [|discriminate].
    destruct (is_prefix_app _ _ E) as [post Hp]. now exists [], post.
  - destruct (is_prefix needle (c :: hay)) eqn:E.
    + destruct (is_prefix_app _ _ E) as [post Hp]. now exists [], post.
    + destruct (strstr hay needle) as [j|] eqn:Ej; [|discriminate].
      destruct (IH _ eq_refl) as (pre & post & ->).
      now exists (c :: pre), post.
Qed.

Lemma upper_token tok s :
  (exists pre post, map to_upper s = pre ++ tok ++ post) -> has_token tok s.
Proof.
  intros (pre & post & H).
  apply map_eq_app in H as (pre' & rest & -> & _ & H).
  apply map_eq_app in H as (mid & post' & -> & Hm & _).
  exists pre', mid, post'. split; [reflexivity|].
  rewrite <- Hm. apply map_to_upper_same_letter.
Qed.

Lemma has_token_take tok n s : has_token tok (take n s) -> has_token tok s.
Proof.
  intros (pre & mid & post & H & F).
  exists pre, mid, (post ++ drop n s). split; [|exact F].
  rewrite <- (take_drop n s) at 1. rewrite H. now rewrite <- !app_assoc.
Qed.

Lemma no_token_strstr tok s n :
  ~ has_token tok s -> strstr (map to_upper (take n s)) tok = None.
Proof.
  intros H. destruct (strstr _ tok) as [i|] eqn:E; [|reflexivity].
  exfalso. apply H, (has_token_take tok n), upper_token.
  exact (strstr_found _ _ _ E).
Qed.

(** C5: the two brand strings of the specification parse to 3600 and 2400,
    and a string with neither a GHZ nor an MHZ token, in any letter case,
    yields no value. *)
Theorem parse_frequency_from_brand_spec :
  parse_frequency_from_brand (chars "Intel(R) Core(TM) i7 @ 3.60GHz") = Some 3600 /\
  parse_frequency_from_brand (chars "Some CPU 2400MHz") = Some 2400 /\
  (forall brand,
     ~ has_token (chars "GHZ") (c_str brand) ->
     ~ has_token (chars "MHZ") (c_str brand) ->
     parse_frequency_from_brand brand = None).
Proof.
  split; [vm_compute; reflexivity|]. split; [vm_compute; reflexivity|].
  intros brand Hg Hm. unfold parse_frequency_from_brand.
  rewrite (no_token_strstr _ _ _ Hg), (no_token_strstr _ _ _ Hm). reflexivity.
Qed.

End BrandParsing.

Section BrandParsingWitness.
Import Brand.

Lemma char_of_code c : char_of (code c) = c.
Proof.
  unfold char_of. pose proof (code_range c) as H.
  rewrite Z.mod_small by lia. unfold code.
  rewrite N2Z.id. apply ascii_N_embedding.
Qed.

Lemma same_letter_to_upper c u :
  is_upper_letter u -> same_letter c u -> to_upper c = u.
Proof.
  unfold is_upper_letter, same_letter, to_upper. intros Hu [->|Hc].
  - replace ((97 <=? code u) && (code u <=? 122)) with false; [reflexivity|].
    symmetry. apply andb_false_iff. left. apply Z.leb_gt. lia.
  - replace ((97 <=? code c) && (code c <=? 122)) with true.
    + replace (code c - 32) with (code u) by lia. apply char_of_code.
    + symmetry. apply andb_true_iff. split; apply Z.leb_le; lia.
Qed.

Lemma same_letters_to_upper mid tok :
  Forall is_upper_letter tok -> Forall2 same_letter mid tok ->
  map to_upper mid = tok.
Proof.
  intros Hu F. induction F as [|c u mid tok Hcu F IH]; [reflexivity|].
  inversion Hu; subst. simpl. f_equal; auto using same_letter_to_upper.
Qed.

Lemma is_prefix_self needle post : is_prefix needle (needle ++ post) = true.
Proof.
  induction needle as [|a needle IH]; simpl; [reflexivity|].
  now rewrite Ascii.eqb_refl, IH.
Qed.

Lemma strstr_at_prefix needle hay :
  is_prefix needle hay = true -> strstr hay needle = Some O.
Proof. intros H. destruct hay; simpl; now rewrite H. Qed.

Lemma strstr_complete needle post : forall pre,
  strstr (pre ++ needle ++ post) needle <> None.
Proof.
  induction pre as [|c pre IH]; simpl.
  - rewrite strstr_at_prefix by apply is_prefix_self. discriminate.
  - destruct (is_prefix needle (c :: pre ++ needle ++ post)); [discriminate|].
    destruct (strstr (pre ++ needle ++ post) needle); [discriminate|].
    contradiction.
Qed.

(** Deciding [has_token] for an upper-case token: search the upper-cased
    string. *)
Lemma has_token_strstr tok s :
  Forall is_upper_letter tok -> has_token tok s ->
  strstr (map to_upper s) tok <> None.
Proof.
  intros Hu (pre & mid & post & -> & F).
  rewrite !map_app, (same_letters_to_upper _ _ Hu F).
  apply strstr_complete.
Qed.

Lemma upper_GHZ : Forall is_upper_letter (chars "GHZ").
Proof. repeat constructor; vm_compute; discriminate. Qed.

Lemma upper_MHZ : Forall is_upper_letter (chars "MHZ").
Proof. repeat constructor; vm_compute; discriminate. Qed.

Lemma parse_frequency_from_brand_spec_witness :
  let brand := chars "AMD Ryzen 7 5800X 8-Core Processor" in
  ~ has_token (chars "GHZ") (c_str brand) /\
  ~ has_token (chars "MHZ") (c_str brand) /\
  parse_frequency_from_brand brand = None.
Proof.
  assert (Hg : ~ has_token (chars "GHZ")
                 (c_str (chars "AMD Ryzen 7 5800X 8-Core Processor"))).
  { intros H. apply (has_token_strstr _ _ upper_GHZ) in H.
    vm_compute in H. now apply H. }
  assert (Hm : ~ has_token (chars "MHZ")
                 (c_str (chars "AMD Ryzen 7 5800X 8-Core Processor"))).
  { intros H. apply (has_token_strstr _ _ upper_MHZ) in H.
    vm_compute in H. now apply H. }
  split; [exact Hg|]. split; [exact Hm|].
  exact (proj2 (proj2 parse_frequency_from_brand_spec) _ Hg Hm).
Defined.

End BrandParsingWitness.

(** ** The cache-sharing grouper *)

Section GroupArrays.
Import Groups.

Lemma put_all_spec f n : forall l,
  (n <= length l)%nat -> put_all f n l = map f (seq 0 n) ++ drop n l.
Proof.
  unfold put_all. induction n as [|n IH]; intros l Hn.
  - reflexivity.
  - rewrite seq_S, fold_left_app, IH by lia. simpl.
    rewrite map_app. simpl.
    assert (Hlen : length (map f (seq 0 n)) = n)
      by now rewrite length_map, length_seq.
    rewrite insert_app_r_alt by lia.
    rewrite Hlen, Nat.sub_diag.
    destruct (drop n l) as [|x rest] eqn:E.
    + apply (f_equal length) in E. rewrite length_drop in E. simpl in E. lia.
    + simpl. rewrite <- app_assoc. simpl. do 2 f_equal.
      replace (S n) with (n + 1)%nat by lia.
      rewrite <- drop_drop, E. reflexivity.
Qed.

Lemma put_all_full f n l : length l = n -> put_all f n l = map f (seq 0 n).
Proof.
  intros H. rewrite put_all_spec by lia.
  rewrite drop_ge by lia. apply app_nil_r.
Qed.

Lemma put_all_length f n l : length (put_all f n l) = length l.
Proof.
  unfold put_all. generalize (seq 0 n). intros ixs. revert l.
  induction ixs as [|i ixs IH]; intros l; simpl; [reflexivity|].
  now rewrite IH, length_insert.
Qed.

Lemma fold_blocks (f1 f2 f3 : nat -> Z) (ixs : list nat) : forall b,
  fold_left (fun b i => mkBlocks (<[i := f1 i]> (b1 b)) (<[i := f2 i]> (b2 b))
                                 (<[i := f3 i]> (b3 b))) ixs b
  = mkBlocks (fold_left (fun l i => <[i := f1 i]> l) ixs (b1 b))
             (fold_left (fun l i => <[i := f2 i]> l) ixs (b2 b))
             (fold_left (fun l i => <[i := f3 i]> l) ixs (b3 b)).
Proof.
  induction ixs as [|i ixs IH]; intros b; simpl.
  - now destruct b.
  - now rewrite IH.
Qed.

(** With the three blocks allocated, every entry of every block is the
    shifted hardware id: nothing of the [-1] initialisation survives. *)
Lemma derive_allocated w topo num_cores l1d l2 l3 o1 o2 o3 :
  0 < num_cores ->
  Os.heap_l1d w = Some o1 -> Os.heap_l2 w = Some o2 -> Os.heap_l3 w = Some o3 ->
  derive_cache_sharing_groups w topo num_cores l1d l2 l3 =
  mkArrays
    (Some (map (group_id topo (cores_sharing l1d)) (seq 0 (Z.to_nat num_cores))))
    (Some (map (group_id topo (cores_sharing l2)) (seq 0 (Z.to_nat num_cores))))
    (Some (map (group_id topo (cores_sharing l3)) (seq 0 (Z.to_nat num_cores)))).
Proof.
  intros Hn H1 H2 H3. unfold derive_cache_sharing_groups.
  replace (num_cores =? 0) with false by (symmetry; apply Z.eqb_neq; lia).
  rewrite H1, H2, H3. simpl.
  unfold assign_loop, init_loop. rewrite !fold_blocks. simpl.
  set (n := Z.to_nat num_cores).
  fold (put_all (fun _ => -1) n (map o1 (seq 0 n))).
  fold (put_all (fun _ => -1) n (map o2 (seq 0 n))).
  fold (put_all (fun _ => -1) n (map o3 (seq 0 n))).
  assert (L : forall o, length (put_all (fun _ => -1) n (map o (seq 0 n))) = n).
  { intros o. now rewrite put_all_length, length_map, length_seq. }
  f_equal; f_equal; apply put_all_full, L.
Qed.

Lemma group_at_allocated topo cs n i :
  (i < n)%nat ->
  nth i (map (group_id topo cs) (seq 0 n)) 0 = group_id topo cs i.
Proof.
  intros Hi.
  rewrite nth_indep with (d' := group_id topo cs O)
    by now rewrite length_map, length_seq.
  rewrite map_nth, seq_nth by lia. reflexivity.
Qed.

End GroupArrays.

Section GroupShift.
Import Groups.

Lemma calc_shift_loop_log2 n : forall shift val,
  1 <= val < 2 ^ Z.of_nat n -> calc_shift_loop n shift val = shift + Z.log2 val.
Proof.
  induction n as [|n IH]; intros shift val H.
  - simpl in H. lia.
  - simpl calc_shift_loop. destruct (val >? 1) eqn:E.
    + apply Z.gtb_gt in E.
      rewrite Nat2Z.inj_succ, Z.pow_succ_r in H by lia.
      assert (Hh : 1 <= Z.shiftr val 1 < 2 ^ Z.of_nat n).
      { rewrite Z.shiftr_div_pow2 by lia. change (2 ^ 1) with 2.
        split; [apply Z.div_le_lower_bound; lia|].
        apply Z.div_lt_upper_bound; lia. }
      rewrite IH by exact Hh.
      rewrite Z.log2_shiftr by lia.
      assert (1 <= Z.log2 val) by (apply Z.log2_le_pow2; simpl; lia).
      lia.
    + assert (val = 1) by (rewrite Z.gtb_ltb in E; apply Z.ltb_ge in E; lia).
      subst val. simpl. lia.
Qed.

(** [calc_shift] is the floor of the binary logarithm above 1, and 0 at or
    below 1. *)
Lemma calc_shift_log2 cs :
  in_int cs -> calc_shift cs = if cs <=? 1 then 0 else Z.log2 cs.
Proof.
  intros H. unfold calc_shift. destruct (cs <=? 1) eqn:E; [reflexivity|].
  apply Z.leb_gt in E. unfold in_int in H.
  rewrite calc_shift_loop_log2; [lia|].
  change (Z.of_nat 32) with 32. lia.
Qed.

Lemma shiftr_differ_only_below k a b :
  0 <= k -> differ_only_below k a b -> Z.shiftr a k = Z.shiftr b k.
Proof.
  intros Hk H. apply Z.bits_inj'. intros i Hi.
  rewrite !Z.shiftr_spec by assumption. apply H. lia.
Qed.

Lemma land_1_mod x : Z.land x 1 = x mod 2.
Proof. change 1 with (Z.ones 1). now rewrite Z.land_ones by lia. Qed.

Lemma count_low_ones_step n i m c :
  Intel.count_low_ones (S n) i m c =
  if Z.land (Z.shiftr m i) 1 =? 0 then c
  else Intel.count_low_ones n (i + 1) m (c + 1).
Proof. reflexivity. Qed.

(** A sharing-width field ending in the bits 0111 decodes to 8. *)
Lemma dec_cores_sharing_eight r :
  Z.land (Z.land (Z.shiftr (eax r) 14) 4095) 15 = 7 ->
  Intel.dec_cores_sharing r = 8.
Proof.
  unfold Intel.dec_cores_sharing.
  generalize (Z.land (Z.shiftr (eax r) 14) 4095). intros m H.
  change 15 with (Z.ones 4) in H. rewrite Z.land_ones in H by lia.
  change (2 ^ 4) with 16 in H.
  assert (B0 : Z.land (Z.shiftr m 0) 1 = 1).
  { rewrite land_1_mod, Z.shiftr_div_pow2 by lia. change (2 ^ 0) with 1.
    revert H. Z.div_mod_to_equations. lia. }
  assert (B1 : Z.land (Z.shiftr m 1) 1 = 1).
  { rewrite land_1_mod, Z.shiftr_div_pow2 by lia. change (2 ^ 1) with 2.
    revert H. Z.div_mod_to_equations. lia. }
  assert (B2 : Z.land (Z.shiftr m 2) 1 = 1).
  { rewrite land_1_mod, Z.shiftr_div_pow2 by lia. change (2 ^ 2) with 4.
    revert H. Z.div_mod_to_equations. lia. }
  assert (B3 : Z.land (Z.shiftr m 3) 1 = 0).
  { rewrite land_1_mod, Z.shiftr_div_pow2 by lia. change (2 ^ 3) with 8.
    revert H. Z.div_mod_to_equations. lia. }
  assert (C : Intel.count_low_ones 12 0 m 0 = 3).
  { rewrite count_low_ones_step, B0. change (0 + 1) with 1.
    rewrite count_low_ones_step, B1. change (1 + 1) with 2.
    rewrite count_low_ones_step, B2. change (2 + 1) with 3.
    rewrite count_low_ones_step, B3. reflexivity. }
  rewrite C. reflexivity.
Qed.

End GroupShift.

Section GroupShiftClaims.
Import Groups.

Lemma derive_all_allocated w topo num_cores l1d l2 l3 g1 g2 g3 :
  0 < num_cores ->
  derive_cache_sharing_groups w topo num_cores l1d l2 l3
    = mkArrays (Some g1) (Some g2) (Some g3) ->
  g1 = map (group_id topo (cores_sharing l1d)) (seq 0 (Z.to_nat num_cores)) /\
  g2 = map (group_id topo (cores_sharing l2)) (seq 0 (Z.to_nat num_cores)) /\
  g3 = map (group_id topo (cores_sharing l3)) (seq 0 (Z.to_nat num_cores)).
Proof.
  intros Hn H.
  destruct (Os.heap_l1d w) as [o1|] eqn:H1;
    [destruct (Os.heap_l2 w) as [o2|] eqn:H2;
      [destruct (Os.heap_l3 w) as [o3|] eqn:H3|]|].
  - rewrite (derive_allocated _ _ _ _ _ _ _ _ _ Hn H1 H2 H3) in H.
    now inversion H.
  - unfold derive_cache_sharing_groups in H.
    replace (num_cores =? 0) with false in H by (symmetry; apply Z.eqb_neq; lia).
    rewrite H1, H2, H3 in H. simpl in H. discriminate.
  - unfold derive_cache_sharing_groups in H.
    replace (num_cores =? 0) with false in H by (symmetry; apply Z.eqb_neq; lia).
    rewrite H1, H2 in H. simpl in H. discriminate.
  - unfold derive_cache_sharing_groups in H.
    replace (num_cores =? 0) with false in H by (symmetry; apply Z.eqb_neq; lia).
    rewrite H1 in H. simpl in H. discriminate.
Qed.

Lemma same_group_of_eight topo cs n i j :
  cs = 8 -> (i < n)%nat -> (j < n)%nat ->
  differ_only_below 3 (apic_id (nth i topo topo_zero))
                      (apic_id (nth j topo topo_zero)) ->
  nth i (map (group_id topo cs) (seq 0 n)) 0
  = nth j (map (group_id topo cs) (seq 0 n)) 0.
Proof.
  intros -> Hi Hj D. rewrite !group_at_allocated by assumption.
  unfold group_id. change (calc_shift 8) with 3.
  now apply shiftr_differ_only_below.
Qed.

(** C6: a sharing count of 8 gives shift 3 (the shift being the floor of
    the binary logarithm of the count, 0 for a count of at most 1); a
    sharing-width field ending in 0111 decodes to 8; and at a level whose
    sharing count is 8, two processors whose hardware identifiers differ
    only in their low 3 bits receive the same group id. *)
Theorem sharing_eight_same_group :
  calc_shift 8 = 3 /\
  (forall cs, in_int cs -> calc_shift cs = if cs <=? 1 then 0 else Z.log2 cs) /\
  (forall r, Z.land (Z.land (Z.shiftr (eax r) 14) 4095) 15 = 7 ->
             Intel.dec_cores_sharing r = 8) /\
  (forall w topo num_cores l1d l2 l3 g1 g2 g3 i j,
     derive_cache_sharing_groups w topo num_cores l1d l2 l3
       = mkArrays (Some g1) (Some g2) (Some g3) ->
     (i < Z.to_nat num_cores)%nat -> (j < Z.to_nat num_cores)%nat ->
     differ_only_below 3 (apic_id (nth i topo topo_zero))
                         (apic_id (nth j topo topo_zero)) ->
     (cores_sharing l1d = 8 -> nth i g1 0 = nth j g1 0) /\
     (cores_sharing l2 = 8 -> nth i g2 0 = nth j g2 0) /\
     (cores_sharing l3 = 8 -> nth i g3 0 = nth j g3 0)).
Proof.
  split; [reflexivity|]. split; [exact calc_shift_log2|].
  split; [exact dec_cores_sharing_eight|].
  intros w topo num_cores l1d l2 l3 g1 g2 g3 i j H Hi Hj D.
  assert (Hn : 0 < num_cores) by lia.
  destruct (derive_all_allocated _ _ _ _ _ _ _ _ _ Hn H) as (-> & -> & ->).
  repeat split; intros E; now apply same_group_of_eight.
Qed.

End GroupShiftClaims.

(** ** Counting cache instances *)

Section InstanceCount.
Import Groups.
#[local] Set Warnings "-clear-no-such-hyp".

Lemma count_seq_values groups n : forall acc,
  (n <= length groups)%nat ->
  fold_left (count_step groups) (seq 0 n) acc
  = fold_left count_val (take n groups) acc.
Proof.
  induction n as [|n IH]; intros acc Hn; [reflexivity|].
  destruct (lookup_lt_is_Some_2 groups n ltac:(lia)) as [x Hx].
  rewrite seq_S, (take_S_r _ _ _ Hx), !fold_left_app, IH by lia.
  simpl. unfold count_step.
  now rewrite (nth_lookup_Some _ _ _ _ Hx).
Qed.

Lemma table_marks_empty : table_marks (replicate 256 0) ∅.
Proof.
  split; [reflexivity|]. intros g Hg.
  rewrite nth_lookup, lookup_replicate_2 by lia. simpl.
  split; [congruence | set_solver].
Qed.

Lemma counted_cons_in g l :
  in_table g = true -> counted (g :: l) = {[g]} ∪ counted l.
Proof. intros H. unfold counted. simpl. now rewrite H. Qed.

Lemma counted_cons_out g l : in_table g = false -> counted (g :: l) = counted l.
Proof. intros H. unfold counted. simpl. now rewrite H. Qed.

Lemma count_val_marks seen unique X g :
  table_marks seen X ->
  table_marks (fst (count_val (seen, unique) g)) (X ∪ counted [g]) /\
  snd (count_val (seen, unique) g)
  = unique + Z.of_nat (size (X ∪ counted [g])) - Z.of_nat (size X).
Proof.
  intros [Hlen Hm]. unfold count_val. fold (in_table g).
  destruct (in_table g) eqn:Ein.
  - rewrite (counted_cons_in _ _ Ein).
    change (counted []) with (∅ : gset Z).
    rewrite !(right_id_L ∅ (∪)).
    assert (Hg : 0 <= g < 256).
    { unfold in_table in Ein. apply andb_true_iff in Ein as [E1 E2].
      apply Z.geb_le in E1. apply Z.ltb_lt in E2. lia. }
    destruct (nth (Z.to_nat g) seen 0 =? 0) eqn:Es; simpl.
    + apply Z.eqb_eq in Es.
      assert (Hn : g ∉ X) by (intros Hin; apply (Hm g Hg) in Hin; contradiction).
      split.
      * split; [now rewrite length_insert|]. intros g' Hg'.
        rewrite nth_lookup. destruct (Z.eq_dec g' g) as [->|Hne].
        -- rewrite list_lookup_insert_eq by lia. simpl.
           split; [set_solver | discriminate].
        -- rewrite list_lookup_insert_ne by lia. rewrite <- nth_lookup.
           rewrite (Hm g' Hg'). set_solver.
      * rewrite size_union by set_solver. rewrite size_singleton. lia.
    + apply Z.eqb_neq in Es. apply (Hm g Hg) in Es.
      replace (X ∪ {[g]}) with X by set_solver.
      split; [now split | lia].
  - rewrite (counted_cons_out _ _ Ein).
    change (counted []) with (∅ : gset Z).
    rewrite (right_id_L ∅ (∪)). simpl. split; [now split | lia].
Qed.

Lemma fold_count_marks l : forall seen unique X,
  table_marks seen X ->
  snd (fold_left count_val l (seen, unique))
  = unique + Z.of_nat (size (X ∪ counted l)) - Z.of_nat (size X).
Proof.
  induction l as [|g l IH]; intros seen unique X H.
  - change (counted []) with (∅ : gset Z). rewrite (right_id_L ∅ (∪)).
    simpl. lia.
  - change (fold_left count_val (g :: l) (seen, unique))
      with (fold_left count_val l (count_val (seen, unique) g)).
    destruct (count_val_marks seen unique X g H) as [H1 H2].
    destruct (count_val (seen, unique) g) as [seen' unique'] eqn:E.
    simpl in H1, H2. rewrite (IH _ _ _ H1), H2.
    replace (X ∪ counted [g] ∪ counted l) with (X ∪ counted (g :: l)); [lia|].
    unfold counted. simpl. destruct (in_table g); simpl; set_solver.
Qed.

(** The count is the number of distinct ids that fall in the table. *)
Lemma count_unique_distinct groups :
  count_unique groups (length groups) = distinct_in_table groups.
Proof.
  unfold count_unique. rewrite count_seq_values by lia.
  rewrite firstn_all.
  rewrite (fold_count_marks _ _ _ ∅ table_marks_empty).
  rewrite (left_id_L ∅ (∪)), size_empty. unfold distinct_in_table. lia.
Qed.

End InstanceCount.

(** ** The emitted group columns and instance counts *)

Section MainGroups.
Import Groups Main.

Lemma pin_loop_num_cores w max_leaf topo_leaf n : forall lp e,
  0 <= Topo.num_cores e ->
  0 <= Topo.num_cores (Topo.pin_loop w max_leaf topo_leaf n lp e).
Proof.
  induction n as [|n IH]; intros lp e H; simpl; [exact H|].
  destruct (Topo.num_cores e <? 256); [|exact H].
  destruct (Os.SetThreadAffinityMask _ _) as [st' prev].
  destruct (prev =? 0); apply IH; simpl; lia.
Qed.

Lemma detect_num_cores w st topo :
  0 <= Topo.num_cores (Topo.detect_apic_topology w st topo).
Proof.
  unfold Topo.detect_apic_topology.
  destruct (_ <? 0xB); [simpl; lia|].
  destruct (Os.core_query w); try (simpl; lia).
  destruct (Os.SetThreadAffinityMask st 1) as [st1 orig].
  destruct (orig =? 0); simpl; apply pin_loop_num_cores; simpl; lia.
Qed.

Lemma distinct_in_table_nil : distinct_in_table [] = 0.
Proof.
  unfold distinct_in_table. change (counted []) with (∅ : gset Z).
  now rewrite size_empty.
Qed.

Lemma map_group_at topo cs n (proj : ApicEntry -> Z) (mk : nat -> ApicEntry) :
  (forall i, proj (mk i) = nth i (map (group_id topo cs) (seq 0 n)) 0) ->
  map proj (map mk (seq 0 n)) = map (group_id topo cs) (seq 0 n).
Proof.
  intros H. rewrite map_map. apply map_ext_in. intros i Hi.
  apply in_seq in Hi. rewrite H. apply group_at_allocated. lia.
Qed.

(** With the group blocks allocated, the three group columns of the
    emitted [apic_ids] array are the shifted hardware ids, and each
    instance count is the number of distinct ids of its column that lie
    in 0..255. *)
Lemma main_groups w st o1 o2 o3 :
  Os.heap_l1d w = Some o1 -> Os.heap_l2 w = Some o2 -> Os.heap_l3 w = Some o3 ->
  let out := fst (main w st) in
  let e := Topo.detect_apic_topology w st (replicate 256 topo_zero) in
  let n := Z.to_nat (Topo.num_cores e) in
  let column cs := map (group_id (Topo.topo_array e) cs) (seq 0 n) in
  map l1d_group (out_apic_ids out) = column (cores_sharing (l1d (out_caches out))) /\
  map l2_group (out_apic_ids out) = column (cores_sharing (l2 (out_caches out))) /\
  map l3_group (out_apic_ids out) = column (cores_sharing (l3 (out_caches out))) /\
  l1d_instances out = distinct_in_table (map l1d_group (out_apic_ids out)) /\
  l2_instances out = distinct_in_table (map l2_group (out_apic_ids out)) /\
  l3_instances out = distinct_in_table (map l3_group (out_apic_ids out)).
Proof.
  intros H1 H2 H3 out e n column.
  pose proof (detect_num_cores w st (replicate 256 topo_zero)) as Hn.
  fold e in Hn. unfold out, main.
  match goal with
  | |- context [mkOutput _ _ _ _ _ _ ?c] => set (caches := c)
  end.
  cbn [fst out_apic_ids out_caches l1d_instances l2_instances l3_instances].
  fold e. fold n.
  destruct (Z.eq_dec (Topo.num_cores e) 0) as [E0|E0].
  - assert (n = O) by (unfold n; rewrite E0; reflexivity).
    unfold derive_cache_sharing_groups. rewrite E0. simpl.
    unfold column. rewrite H. simpl. rewrite distinct_in_table_nil.
    repeat split; reflexivity.
  - rewrite (derive_allocated w _ _ _ _ _ o1 o2 o3) by (assumption || lia).
    cbn [l1d_groups l2_groups l3_groups fst snd]. fold n.
    rewrite (map_group_at _ (cores_sharing (l1d caches)) n l1d_group)
      by reflexivity.
    rewrite (map_group_at _ (cores_sharing (l2 caches)) n l2_group)
      by reflexivity.
    rewrite (map_group_at _ (cores_sharing (l3 caches)) n l3_group)
      by reflexivity.
    assert (L : forall cs, length (column cs) = n)
      by (intros cs; unfold column; now rewrite length_map, length_seq).
    unfold column in *.
    repeat split; try reflexivity.
    + rewrite <- (L (cores_sharing (l1d caches))) at 2.
      apply count_unique_distinct.
    + rewrite <- (L (cores_sharing (l2 caches))) at 2.
      apply count_unique_distinct.
    + rewrite <- (L (cores_sharing (l3 caches))) at 2.
      apply count_unique_distinct.
Qed.

End MainGroups.

Section GroupClaims.
Import Groups Main.
#[local] Set Warnings "-clear-no-such-hyp".

Lemma differ_only_below_small k a b :
  0 <= a < 2 ^ k -> 0 <= b < 2 ^ k -> differ_only_below k a b.
Proof.
  intros Ha Hb i Hi.
  assert (Hp : 2 ^ k <= 2 ^ i) by (apply Z.pow_le_mono_r; lia).
  assert (T : forall x, 0 <= x < 2 ^ k -> Z.testbit x i = false).
  { intros x Hx. destruct (Z.eq_dec x 0) as [->|Hne];
      [apply Z.testbit_0_l|].
    apply Z.bits_above_log2; [lia|]. apply Z.log2_lt_pow2; lia. }
  now rewrite !T.
Qed.

(** Processors 2 and 5 of sixteen, L3 shared by 8: same L3 group, and the
    sixteen fall into two L3 groups. *)
Lemma sharing_eight_same_group_witness :
  let a := derive_cache_sharing_groups host_unknown_vendor topo16 16
             (cache_shared_by 1) (cache_shared_by 2) (cache_shared_by 8) in
  a = mkArrays (Some [0;1;2;3;4;5;6;7;8;9;10;11;12;13;14;15])
               (Some [0;0;1;1;2;2;3;3;4;4;5;5;6;6;7;7])
               (Some [0;0;0;0;0;0;0;0;1;1;1;1;1;1;1;1]) /\
  differ_only_below 3 (apic_id (nth 2 topo16 topo_zero))
                      (apic_id (nth 5 topo16 topo_zero)) /\
  nth 2 [0;0;0;0;0;0;0;0;1;1;1;1;1;1;1;1] 0
    = nth 5 [0;0;0;0;0;0;0;0;1;1;1;1;1;1;1;1] 0 /\
  count_unique [0;0;0;0;0;0;0;0;1;1;1;1;1;1;1;1] 16 = 2 /\
  in_int 8 /\
  calc_shift 8 = (if 8 <=? 1 then 0 else Z.log2 8) /\
  Z.land (Z.land (Z.shiftr (eax sub_l2_shared8) 14) 4095) 15 = 7 /\
  Intel.dec_cores_sharing sub_l2_shared8 = 8.
Proof.
  assert (D : differ_only_below 3 (apic_id (nth 2 topo16 topo_zero))
                                  (apic_id (nth 5 topo16 topo_zero))).
  { apply differ_only_below_small; simpl; lia. }
  assert (I : in_int 8) by (unfold in_int; lia).
  assert (F : Z.land (Z.land (Z.shiftr (eax sub_l2_shared8) 14) 4095) 15 = 7)
    by reflexivity.
  assert (Hi : (2 < Z.to_nat 16)%nat) by (simpl; lia).
  assert (Hj : (5 < Z.to_nat 16)%nat) by (simpl; lia).
  destruct sharing_eight_same_group as (_ & S2 & S3 & S4).
  exact (conj eq_refl (conj D
          (conj (proj2 (proj2 (S4 host_unknown_vendor topo16 16
                                  (cache_shared_by 1) (cache_shared_by 2)
                                  (cache_shared_by 8) _ _ _ 2%nat 5%nat
                                  eq_refl Hi Hj D)) eq_refl)
          (conj eq_refl (conj I (conj (S2 8 I) (conj F (S3 _ F)))))))).
Defined.

(** C10: the instance count of a level is the number of distinct group ids
    of that level lying in 0..255, so an entry whose id is negative or at
    least 256 adds nothing to it; the emitted [l1d_instances],
    [l2_instances] and [l3_instances] are these counts over the emitted
    group columns. *)
Theorem count_unique_only_table_ids :
  (forall groups, count_unique groups (length groups) = distinct_in_table groups) /\
  (forall pre g post,
     g < 0 \/ 256 <= g ->
     count_unique (pre ++ g :: post) (length (pre ++ g :: post))
     = count_unique (pre ++ post) (length (pre ++ post))) /\
  (forall w st o1 o2 o3,
     Os.heap_l1d w = Some o1 -> Os.heap_l2 w = Some o2 ->
     Os.heap_l3 w = Some o3 ->
     let out := fst (main w st) in
     l1d_instances out = distinct_in_table (map l1d_group (out_apic_ids out)) /\
     l2_instances out = distinct_in_table (map l2_group (out_apic_ids out)) /\
     l3_instances out = distinct_in_table (map l3_group (out_apic_ids out))).
Proof.
  split; [exact count_unique_distinct|]. split.
  - intros pre g post Hg. rewrite !count_unique_distinct.
    unfold distinct_in_table, counted. rewrite !List.filter_app. simpl.
    replace (in_table g) with false; [reflexivity|].
    symmetry. unfold in_table. apply andb_false_iff.
    destruct Hg; [left; rewrite Z.geb_leb; apply Z.leb_gt | right; apply Z.ltb_ge];
      lia.
  - intros w st o1 o2 o3 H1 H2 H3 out.
    destruct (main_groups w st o1 o2 o3 H1 H2 H3) as (_ & _ & _ & A & B & C).
    auto.
Qed.

Lemma count_unique_only_table_ids_witness :
  (300 < 0 \/ 256 <= 300) /\
  count_unique ([0; 1] ++ 300 :: [1; -1; 255])
               (length ([0; 1] ++ 300 :: [1; -1; 255]))
  = count_unique ([0; 1] ++ [1; -1; 255]) (length ([0; 1] ++ [1; -1; 255])) /\
  count_unique ([0; 1] ++ [1; -1; 255]) 5 = 3 /\
  l1d_instances (fst (main host_unknown_vendor os_two))
  = distinct_in_table
      (map l1d_group (out_apic_ids (fst (main host_unknown_vendor os_two)))).
Proof.
  assert (H : 300 < 0 \/ 256 <= 300) by (right; lia).
  split; [exact H|].
  pose proof (proj1 (proj2 count_unique_only_table_ids) [0; 1] 300 [1; -1; 255] H)
    as E.
  split; [exact E|]. split; [reflexivity|].
  exact (proj1 (proj2 (proj2 count_unique_only_table_ids)
                  host_unknown_vendor os_two _ _ _ eq_refl eq_refl eq_refl)).
Defined.

End GroupClaims.

Section AllocationFailure.
Import Groups Main.

Lemma derive_null_l1d w topo n c1 c2 c3 :
  Os.heap_l1d w = None ->
  l1d_groups (derive_cache_sharing_groups w topo n c1 c2 c3) = None.
Proof.
  intros H. unfold derive_cache_sharing_groups.
  destruct (n =? 0); [reflexivity|]. now rewrite H.
Qed.

Lemma derive_null_l2 w topo n c1 c2 c3 :
  Os.heap_l2 w = None ->
  l2_groups (derive_cache_sharing_groups w topo n c1 c2 c3) = None.
Proof.
  intros H. unfold derive_cache_sharing_groups.
  destruct (n =? 0); [reflexivity|]. rewrite H.
  now destruct (malloc_ints (Os.heap_l1d w) _).
Qed.

Lemma derive_null_l3 w topo n c1 c2 c3 :
  Os.heap_l3 w = None ->
  l3_groups (derive_cache_sharing_groups w topo n c1 c2 c3) = None.
Proof.
  intros H. unfold derive_cache_sharing_groups.
  destruct (n =? 0); [reflexivity|]. rewrite H.
  now destruct (malloc_ints (Os.heap_l1d w) _), (malloc_ints (Os.heap_l2 w) _).
Qed.

(** The three counts and the group columns of [main], given the arrays
    the grouper returned. *)
Lemma main_counts w st :
  let e := Topo.detect_apic_topology w st (replicate 256 topo_zero) in
  let out := fst (main w st) in
  let n := Z.to_nat (Topo.num_cores e) in
  let a := derive_cache_sharing_groups w (Topo.topo_array e) (Topo.num_cores e)
             (l1d (out_caches out)) (l2 (out_caches out)) (l3 (out_caches out)) in
  out_num_logical_cores out = Topo.num_cores e /\
  out_apic_ids out = map (entry (Topo.topo_array e) a) (seq 0 n) /\
  (l1d_instances out, l2_instances out, l3_instances out)
  = match l1d_groups a, l2_groups a, l3_groups a with
    | Some g1, Some g2, Some g3 =>
        (count_unique g1 n, count_unique g2 n, count_unique g3 n)
    | _, _, _ => (0, 0, 0)
    end.
Proof.
  intros e out n a. unfold a, out, main.
  cbn [fst out_num_logical_cores out_apic_ids out_caches
       l1d_instances l2_instances l3_instances].
  fold e. fold n.
  split; [reflexivity|]. split; [reflexivity|].
  match goal with |- context [l1d_groups ?x] => generalize x end.
  intros a'.
  destruct (l1d_groups a'), (l2_groups a'), (l3_groups a'); reflexivity.
Qed.

(** [main] counts nothing when an allocation of the grouper fails. *)
Lemma main_counts_null w st :
  Os.heap_l1d w = None \/ Os.heap_l2 w = None \/ Os.heap_l3 w = None ->
  let out := fst (main w st) in
  (l1d_instances out, l2_instances out, l3_instances out) = (0, 0, 0).
Proof.
  intros H out.
  destruct (main_counts w st) as (_ & _ & Cnt). fold out in Cnt.
  cbv zeta in Cnt. clearbody out. rewrite Cnt.
  destruct H as [H|[H|H]].
  - now rewrite derive_null_l1d.
  - rewrite derive_null_l2 by assumption. now destruct (l1d_groups _).
  - rewrite derive_null_l3 by assumption.
    destruct (l1d_groups _); [destruct (l2_groups _)|]; reflexivity.
Qed.

End AllocationFailure.

Section UnknownSharing.
Import Groups Main.

Lemma calc_shift_low cs : cs <= 1 -> calc_shift cs = 0.
Proof.
  intros H. unfold calc_shift.
  now replace (cs <=? 1) with true by (symmetry; apply Z.leb_le; lia).
Qed.

Lemma group_id_low topo cs i :
  cs <= 1 -> group_id topo cs i = apic_id (nth i topo topo_zero).
Proof.
  intros H. unfold group_id. rewrite calc_shift_low by assumption.
  apply Z.shiftr_0_r.
Qed.

Lemma main_caches_unknown w st :
  get_cpu_vendor (Os.cpu w st) = VENDOR_UNKNOWN ->
  out_caches (fst (main w st)) = caches_zero.
Proof. intros H. unfold main. cbn [fst out_caches]. now rewrite H. Qed.

Lemma main_apic_column w st :
  let e := Topo.detect_apic_topology w st (replicate 256 topo_zero) in
  map apic (out_apic_ids (fst (main w st)))
  = map (fun i => apic_id (nth i (Topo.topo_array e) topo_zero))
        (seq 0 (Z.to_nat (Topo.num_cores e))).
Proof.
  intros e. unfold main. cbn [fst out_apic_ids]. fold e.
  rewrite map_map. reflexivity.
Qed.

(** C2, amended: a level whose sharing count is at most 1 (the unknown
    sentinel -1 and the 0 of an undetected level included) gets shift 0,
    and every enumerated processor's group id for it is the processor's
    own hardware identifier; with an unrecognised vendor and the three
    group arrays allocated all levels stay zero-filled, the three group
    columns equal the hardware-id column, and each emitted instance count
    is the number of distinct hardware identifiers lying in 0..255; when
    an allocation of the grouper fails the three emitted counts are 0. *)
Theorem unknown_sharing_groups_by_hardware_id :
  (forall cs, cs <= 1 -> calc_shift cs = 0) /\
  (forall w topo num_cores l1d l2 l3 g1 g2 g3 i,
     derive_cache_sharing_groups w topo num_cores l1d l2 l3
       = mkArrays (Some g1) (Some g2) (Some g3) ->
     (i < Z.to_nat num_cores)%nat ->
     (cores_sharing l1d <= 1 -> nth i g1 0 = apic_id (nth i topo topo_zero)) /\
     (cores_sharing l2 <= 1 -> nth i g2 0 = apic_id (nth i topo topo_zero)) /\
     (cores_sharing l3 <= 1 -> nth i g3 0 = apic_id (nth i topo topo_zero))) /\
  (forall w st o1 o2 o3,
     Os.heap_l1d w = Some o1 -> Os.heap_l2 w = Some o2 ->
     Os.heap_l3 w = Some o3 ->
     get_cpu_vendor (Os.cpu w st) = VENDOR_UNKNOWN ->
     let out := fst (main w st) in
     out_caches out = caches_zero /\
     map l1d_group (out_apic_ids out) = map apic (out_apic_ids out) /\
     map l2_group (out_apic_ids out) = map apic (out_apic_ids out) /\
     map l3_group (out_apic_ids out) = map apic (out_apic_ids out) /\
     l1d_instances out = distinct_in_table (map apic (out_apic_ids out)) /\
     l2_instances out = distinct_in_table (map apic (out_apic_ids out)) /\
     l3_instances out = distinct_in_table (map apic (out_apic_ids out))) /\
  (forall w st,
     Os.heap_l1d w = None \/ Os.heap_l2 w = None \/ Os.heap_l3 w = None ->
     let out := fst (main w st) in
     l1d_instances out = 0 /\ l2_instances out = 0 /\ l3_instances out = 0).
Proof.
  split; [exact calc_shift_low|]. split; [|split].
  - intros w topo num_cores l1d l2 l3 g1 g2 g3 i H Hi.
    assert (Hn : 0 < num_cores) by lia.
    destruct (derive_all_allocated _ _ _ _ _ _ _ _ _ Hn H) as (-> & -> & ->).
    repeat split; intros E; rewrite group_at_allocated by assumption;
      now apply group_id_low.
  - intros w st o1 o2 o3 H1 H2 H3 Hv out.
    pose proof (main_caches_unknown w st Hv) as Hc. fold out in Hc.
    destruct (main_groups w st o1 o2 o3 H1 H2 H3) as (A1 & A2 & A3 & B1 & B2 & B3).
    fold out in A1, A2, A3, B1, B2, B3.
    rewrite Hc in A1, A2, A3. cbn [l1d l2 l3 caches_zero cores_sharing cache_zero] in *.
    pose proof (main_apic_column w st) as Ha. fold out in Ha. cbv zeta in Ha.
    assert (E : forall l, l = map (group_id
                  (Topo.topo_array (Topo.detect_apic_topology w st
                                      (replicate 256 topo_zero))) 0)
                  (seq 0 (Z.to_nat (Topo.num_cores
                     (Topo.detect_apic_topology w st (replicate 256 topo_zero))))) ->
                l = map apic (out_apic_ids out)).
    { intros l ->. rewrite Ha. apply map_ext. intros i.
      apply group_id_low. lia. }
    pose proof (E _ A1) as E1. pose proof (E _ A2) as E2.
    pose proof (E _ A3) as E3.
    split; [exact Hc|].
    rewrite B1, B2, B3, E1, E2, E3. repeat split; reflexivity.
  - intros w st H out.
    pose proof (main_counts_null w st H) as C0. fold out in C0.
    cbv zeta in C0. clearbody out.
    split; [exact (f_equal (fun p => fst (fst p)) C0)|].
    split; [exact (f_equal (fun p => snd (fst p)) C0) | exact (f_equal snd C0)].
Qed.

Lemma unknown_sharing_groups_by_hardware_id_witness :
  let out := fst (main host_unknown_vendor os_two) in
  get_cpu_vendor (Os.cpu host_unknown_vendor os_two) = VENDOR_UNKNOWN /\
  map apic (out_apic_ids out) = [0; 1] /\
  map l1d_group (out_apic_ids out) = map apic (out_apic_ids out) /\
  l1d_instances out = distinct_in_table (map apic (out_apic_ids out)) /\
  -1 <= 1 /\ calc_shift (-1) = 0 /\
  derive_cache_sharing_groups host_unknown_vendor topo16 16
    (cache_shared_by (-1)) (cache_shared_by 0) (cache_shared_by 1)
  = mkArrays (Some (map Z.of_nat (seq 0 16))) (Some (map Z.of_nat (seq 0 16)))
             (Some (map Z.of_nat (seq 0 16))) /\
  nth 3 (map Z.of_nat (seq 0 16)) 0 = apic_id (nth 3 topo16 topo_zero) /\
  Os.heap_l1d host_no_memory = None /\
  get_cpu_vendor (Os.cpu host_no_memory os_two) = VENDOR_UNKNOWN /\
  l1d_instances (fst (main host_no_memory os_two)) = 0.
Proof.
  assert (Hs : -1 <= 1) by lia.
  assert (Hi : (3 < Z.to_nat 16)%nat) by (simpl; lia).
  assert (Hm : Os.heap_l1d host_no_memory = None) by reflexivity.
  destruct unknown_sharing_groups_by_hardware_id as (U1 & U2 & U3 & U4).
  pose proof (U3 host_unknown_vendor os_two _ _ _ eq_refl eq_refl eq_refl eq_refl)
    as (_ & A & _ & _ & B & _).
  exact (conj eq_refl (conj eq_refl (conj A (conj B (conj Hs (conj (U1 _ Hs)
          (conj eq_refl
             (conj (proj1 (U2 host_unknown_vendor topo16 16 (cache_shared_by (-1))
                        (cache_shared_by 0) (cache_shared_by 1) _ _ _ 3%nat
                        eq_refl Hi) Hs)
                (conj Hm (conj eq_refl
                   (proj1 (U4 host_no_memory os_two (or_introl Hm))))))))))))).
Defined.

(** C2 as stated fails: with an unrecognised vendor and two enumerated
    processors every level's groups are the hardware ids 0 and 1 and the
    three instance counts are 2, not 0; on vendor family B, whose levels
    carry the unknown sentinel -1, the groups are again the hardware ids,
    not -1. *)
Lemma unknown_sharing_not_ungrouped :
  let out := fst (main host_unknown_vendor os_two) in
  let out_b := fst (main host_amd os_two) in
  get_cpu_vendor (Os.cpu host_unknown_vendor os_two) = VENDOR_UNKNOWN /\
  out_caches out = caches_zero /\
  out_num_logical_cores out = 2 /\
  map l1d_group (out_apic_ids out) = [0; 1] /\
  map l2_group (out_apic_ids out) = [0; 1] /\
  map l3_group (out_apic_ids out) = [0; 1] /\
  l1d_instances out = 2 /\ l2_instances out = 2 /\ l3_instances out = 2 /\
  cores_sharing (l1d (out_caches out_b)) = -1 /\
  cores_sharing (l2 (out_caches out_b)) = -1 /\
  cores_sharing (l3 (out_caches out_b)) = -1 /\
  map l1d_group (out_apic_ids out_b) = [0; 1] /\
  map l2_group (out_apic_ids out_b) = [0; 1] /\
  map l3_group (out_apic_ids out_b) = [0; 1] /\
  l1d_instances out_b = 2 /\ l2_instances out_b = 2 /\ l3_instances out_b = 2 /\
  ~ (l1d_instances out = 0 /\ l2_instances out = 0 /\ l3_instances out = 0) /\
  ~ In (-1) (map l1d_group (out_apic_ids out)) /\
  ~ In (-1) (map l1d_group (out_apic_ids out_b)).
Proof.
  vm_compute. repeat split.
  - intros [H _]. discriminate H.
  - intros [H|[H|[]]]; discriminate H.
  - intros [H|[H|[]]]; discriminate H.
Qed.

End UnknownSharing.

(** ** The frequency fallback chain *)

Section FrequencyChain.
Import Freq.

Lemma resolve_stages hw wmi :
  resolve hw wmi = stage_final (get_max_cpuid_leaf hw) (after_wmi hw wmi).
Proof.
  unfold resolve, after_wmi, after_brand, after_leaf06, after_leaf15,
    after_leaf16. reflexivity.
Qed.

Lemma low16_range x : 0 <= Z.land x 0xFFFF < 65536.
Proof. exact (field_range x 16 ltac:(lia)). Qed.

(** After the first stage the flag is set exactly when both clocks are
    non-zero. *)
Lemma after_leaf16_flag hw :
  let s := after_leaf16 hw in
  (success s = 0 -> base_mhz s = 0 \/ max_mhz s = 0) /\
  (base_mhz s <> 0 -> max_mhz s <> 0 -> success s = 1).
Proof.
  unfold after_leaf16, stage_leaf16.
  destruct (get_max_cpuid_leaf hw >=? 22);
    cbn [success base_mhz max_mhz bus_mhz consulted turbo_supported init];
    [|split; [auto | intros H; now contradict H]].
  pose proof (low16_range (eax (read_cpuid hw 22 0))) as Hb.
  pose proof (low16_range (ebx (read_cpuid hw 22 0))) as Hm.
  destruct (Z.land (eax (read_cpuid hw 22 0)) 65535 >? 0) eqn:Eb;
    destruct (Z.land (ebx (read_cpuid hw 22 0)) 65535 >? 0) eqn:Em;
    cbn [success base_mhz max_mhz bus_mhz consulted turbo_supported init andb];
    rewrite ?Z.gtb_ltb in *;
    try apply Z.ltb_lt in Eb; try apply Z.ltb_ge in Eb;
    try apply Z.ltb_lt in Em; try apply Z.ltb_ge in Em;
    split; intros; try lia.
Qed.

Lemma stage_leaf15_fail hw ml s :
  success (stage_leaf15 hw ml s) = 0 ->
  success s = 0 /\ same_clocks s (stage_leaf15 hw ml s).
Proof.
  unfold stage_leaf15, same_clocks.
  destruct (ml >=? 21); [|auto].
  destruct (_ && _ && _); cbn [success base_mhz max_mhz bus_mhz consulted turbo_supported]; [|auto].
  destruct (_ && _); cbn [success base_mhz max_mhz bus_mhz consulted turbo_supported]; [discriminate | auto].
Qed.

Lemma stage_leaf06_frame hw ml s :
  success (stage_leaf06 hw ml s) = success s /\
  same_clocks s (stage_leaf06 hw ml s) /\
  bus_mhz (stage_leaf06 hw ml s) = bus_mhz s /\
  consulted (stage_leaf06 hw ml s) = consulted s.
Proof.
  unfold stage_leaf06, same_clocks. destruct (ml >=? 6); cbn [success base_mhz max_mhz bus_mhz consulted turbo_supported]; auto.
Qed.

Lemma stage_brand_fail brand s :
  success (stage_brand brand s) = 0 ->
  success s = 0 /\ same_clocks s (stage_brand brand s) /\ ~ brand_usable brand.
Proof.
  unfold stage_brand, same_clocks, brand_usable.
  destruct (_ || _ || _) eqn:C.
  - destruct (Brand.parse_frequency_from_brand brand) as [v|]; cbn [success base_mhz max_mhz bus_mhz consulted turbo_supported].
    + destruct (v >? 0) eqn:E; cbn [success base_mhz max_mhz bus_mhz consulted turbo_supported]; [discriminate|].
      intros H. repeat split; auto.
      intros (mhz & Hm & Hp). inversion Hm; subst.
      rewrite Z.gtb_ltb in E. apply Z.ltb_ge in E. lia.
    + intros H. repeat split; auto. intros (mhz & Hm & _). discriminate.
  - intros H. rewrite H in C. discriminate.
Qed.

Lemma stage_wmi_fail wmi s :
  success (stage_wmi wmi s) = 0 ->
  success s = 0 /\ same_clocks s (stage_wmi wmi s) /\
  (max_mhz s = 0 -> get_max_clock_wmi wmi = 0).
Proof.
  unfold stage_wmi, same_clocks.
  destruct (max_mhz s =? 0) eqn:C.
  - destruct (get_max_clock_wmi wmi >? 0) eqn:E; cbn [success base_mhz max_mhz bus_mhz consulted turbo_supported]; [discriminate|].
    intros H. repeat split; auto. intros _.
    unfold get_max_clock_wmi in *. destruct wmi as [v|]; [|reflexivity].
    destruct (wrap32 v >? 0) eqn:E2; [congruence | reflexivity].
  - apply Z.eqb_neq in C. intros H. repeat split; auto. contradiction.
Qed.

Lemma stage_final_frame ml s :
  success (stage_final ml s) = success s /\
  same_clocks s (stage_final ml s) /\
  bus_mhz (stage_final ml s) = bus_mhz s /\
  consulted (stage_final ml s) = consulted s.
Proof.
  unfold stage_final, same_clocks.
  destruct (success s =? 0) eqn:E; cbn [success base_mhz max_mhz bus_mhz consulted turbo_supported]; [|auto].
  apply Z.eqb_eq in E. destruct (_ >=? _); cbn [success base_mhz max_mhz bus_mhz consulted turbo_supported]; auto.
Qed.

End FrequencyChain.

Section FrequencyFrames.
Import Freq.

Ltac fields := cbn [success base_mhz max_mhz bus_mhz consulted turbo_supported].

Lemma neqb_false x : x <> 0 -> (x =? 0) = false.
Proof. intros H. now apply Z.eqb_neq. Qed.

(** Leaf 0x15 with both clocks non-zero: they stay, a non-zero bus clock
    stays too. *)
Lemma stage_leaf15_frame hw ml s :
  base_mhz s <> 0 ->
  same_clocks s (stage_leaf15 hw ml s) /\
  (bus_mhz s <> 0 -> bus_mhz (stage_leaf15 hw ml s) = bus_mhz s).
Proof.
  intros Hb. unfold stage_leaf15, same_clocks.
  destruct (ml >=? 21); [|auto].
  destruct (_ && _ && _); fields; [|auto].
  rewrite (neqb_false _ Hb). cbn [andb]. fields.
  split; [auto|]. intros Hbus. now rewrite (neqb_false _ Hbus).
Qed.

(** Leaf 0x15 touches the bus clock only when it is zero. *)
Lemma stage_leaf15_bus hw ml s :
  bus_mhz s <> 0 -> bus_mhz (stage_leaf15 hw ml s) = bus_mhz s.
Proof.
  intros Hbus. unfold stage_leaf15.
  destruct (ml >=? 21); [|reflexivity].
  destruct (_ && _ && _); fields; [|reflexivity].
  rewrite (neqb_false _ Hbus). destruct (_ && _); reflexivity.
Qed.

Lemma stage_leaf15_consulted hw ml s :
  consulted (stage_leaf15 hw ml s)
  = if ml >=? 0x15 then SrcLeaf15 :: consulted s else consulted s.
Proof.
  unfold stage_leaf15. destruct (ml >=? 21); [|reflexivity].
  destruct (_ && _ && _); fields; [|reflexivity].
  destruct (_ && _); reflexivity.
Qed.

Lemma stage_leaf16_consulted hw ml s :
  consulted (stage_leaf16 hw ml s)
  = if ml >=? 0x16 then SrcLeaf16 :: consulted s else consulted s.
Proof. unfold stage_leaf16. destruct (ml >=? 22); reflexivity. Qed.

Lemma stage_brand_consulted brand s :
  consulted (stage_brand brand s)
  = if brand_wanted s then SrcBrand :: consulted s else consulted s.
Proof.
  unfold stage_brand, brand_wanted. destruct (_ || _ || _); [|reflexivity].
  destruct (Brand.parse_frequency_from_brand brand) as [v|]; [|reflexivity].
  destruct (v >? 0); reflexivity.
Qed.

Lemma stage_brand_frame brand s :
  bus_mhz (stage_brand brand s) = bus_mhz s /\
  (base_mhz s <> 0 -> max_mhz s <> 0 -> same_clocks s (stage_brand brand s)).
Proof.
  unfold stage_brand, same_clocks. destruct (_ || _ || _); [|auto].
  destruct (Brand.parse_frequency_from_brand brand) as [v|]; [|auto].
  destruct (v >? 0); fields; [|auto].
  split; [reflexivity|]. intros Hb Hm.
  now rewrite (neqb_false _ Hb), (neqb_false _ Hm).
Qed.

Lemma stage_wmi_consulted wmi s :
  consulted (stage_wmi wmi s)
  = if max_mhz s =? 0 then SrcWmi :: consulted s else consulted s.
Proof.
  unfold stage_wmi. destruct (max_mhz s =? 0); [|reflexivity].
  destruct (_ >? 0); reflexivity.
Qed.

Lemma stage_wmi_frame wmi s :
  bus_mhz (stage_wmi wmi s) = bus_mhz s /\
  (max_mhz s <> 0 -> stage_wmi wmi s = s).
Proof.
  unfold stage_wmi. split.
  - destruct (max_mhz s =? 0); [|reflexivity].
    destruct (_ >? 0); reflexivity.
  - intros Hm. now rewrite (neqb_false _ Hm).
Qed.

(** Before brand parsing, a clear flag means a zero clock. *)
Lemma after_leaf06_flag hw :
  success (after_leaf06 hw) = 0 ->
  base_mhz (after_leaf06 hw) = 0 \/ max_mhz (after_leaf06 hw) = 0.
Proof.
  intros H.
  destruct (stage_leaf06_frame hw (get_max_cpuid_leaf hw) (after_leaf15 hw))
    as (T1 & [T2 T3] & _).
  fold (after_leaf06 hw) in T1, T2, T3. rewrite T1 in H.
  destruct (stage_leaf15_fail hw _ (after_leaf16 hw) H) as (H1 & [L1 L2]).
  fold (after_leaf15 hw) in L1, L2.
  pose proof (after_leaf16_flag hw) as A. cbv zeta in A.
  destruct A as [A _]. specialize (A H1).
  rewrite T2, T3, L1, L2. exact A.
Qed.

Lemma after_leaf06_consulted hw :
  ~ In SrcBrand (consulted (after_leaf06 hw)) /\
  ~ In SrcWmi (consulted (after_leaf06 hw)).
Proof.
  destruct (stage_leaf06_frame hw (get_max_cpuid_leaf hw) (after_leaf15 hw))
    as (_ & _ & _ & C).
  fold (after_leaf06 hw) in C. rewrite C.
  unfold after_leaf15. rewrite stage_leaf15_consulted.
  unfold after_leaf16. rewrite stage_leaf16_consulted.
  destruct (_ >=? 21); destruct (_ >=? 22); simpl;
    split; intros H; repeat destruct H as [H|H]; try discriminate H; exact H.
Qed.

End FrequencyFrames.

Section FrequencyClaims.
Import Freq.

(** C1, amended: when the emitted [success] is 0, at least one of
    [base_mhz] and [max_mhz] is 0 and both still hold what the first stage
    left (the low words of leaf 0x16, or 0); [bus_mhz] is not reset: it
    still holds what it held after the leaf-0x15 stage, which is the bus
    word of leaf 0x16 whenever that word is non-zero. In that case no
    stage had set the flag: leaf 0x16 did not give both clocks, leaf 0x15
    derived no base, the brand string gave no positive value and, if
    [max_mhz] is 0, the management-layer query gave none either. *)
Theorem resolution_failure_fields hw wmi :
  let s := resolve hw wmi in
  success s = 0 ->
  (base_mhz s = 0 \/ max_mhz s = 0) /\
  same_clocks (after_leaf16 hw) s /\
  bus_mhz s = bus_mhz (after_leaf15 hw) /\
  (bus_mhz (after_leaf16 hw) <> 0 -> bus_mhz s = bus_mhz (after_leaf16 hw)) /\
  success (after_leaf16 hw) = 0 /\
  success (after_leaf15 hw) = 0 /\
  ~ brand_usable (Brand.get_brand_string hw) /\
  (max_mhz s = 0 -> get_max_clock_wmi wmi = 0).
Proof.
  intros s H. unfold s in *. rewrite resolve_stages in *.
  destruct (stage_final_frame (get_max_cpuid_leaf hw) (after_wmi hw wmi))
    as (F1 & [F2 F3] & F4 & _).
  rewrite F1 in H. rewrite F2, F3, F4.
  destruct (stage_wmi_fail wmi (after_brand hw) H) as (H4 & [W1 W2] & W3).
  destruct (stage_brand_fail _ (after_leaf06 hw) H4) as (H3 & [B1 B2] & B3).
  destruct (stage_leaf06_frame hw (get_max_cpuid_leaf hw) (after_leaf15 hw))
    as (T1 & [T2 T3] & T4 & _).
  fold (after_leaf06 hw) in T1, T2, T3, T4. rewrite T1 in H3.
  destruct (stage_leaf15_fail hw _ (after_leaf16 hw) H3) as (H1 & [L1 L2]).
  fold (after_leaf15 hw) in L1, L2.
  pose proof (after_leaf16_flag hw) as A. cbv zeta in A.
  destruct A as [A _]. specialize (A H1).
  fold (after_brand hw) in B1, B2. fold (after_wmi hw wmi) in W1, W2.
  assert (Eb : base_mhz (after_wmi hw wmi) = base_mhz (after_leaf16 hw))
    by congruence.
  assert (Em : max_mhz (after_wmi hw wmi) = max_mhz (after_leaf16 hw))
    by congruence.
  assert (Ebus : bus_mhz (after_wmi hw wmi) = bus_mhz (after_leaf15 hw)).
  { unfold after_wmi. rewrite (proj1 (stage_wmi_frame wmi (after_brand hw))).
    unfold after_brand.
    rewrite (proj1 (stage_brand_frame (Brand.get_brand_string hw)
                      (after_leaf06 hw))).
    exact T4. }
  split; [rewrite Eb, Em; exact A|].
  split; [split; congruence|].
  split; [exact Ebus|].
  split.
  { intros Hbus. rewrite Ebus. unfold after_leaf15.
    now apply stage_leaf15_bus. }
  split; [exact H1|]. split; [exact H3|]. split; [exact B3|].
  intros Hz. apply W3. congruence.
Qed.

Lemma resolution_failure_fields_witness :
  let s := resolve cpu_base_only None in
  success s = 0 /\ (base_mhz s = 0 \/ max_mhz s = 0) /\
  same_clocks (after_leaf16 cpu_base_only) s /\
  bus_mhz (after_leaf16 cpu_base_only) <> 0 /\
  bus_mhz s = bus_mhz (after_leaf16 cpu_base_only).
Proof.
  assert (H : success (resolve cpu_base_only None) = 0) by (vm_compute; reflexivity).
  assert (Hb : bus_mhz (after_leaf16 cpu_base_only) <> 0)
    by (vm_compute; discriminate).
  pose proof (resolution_failure_fields cpu_base_only None H)
    as (A & B & _ & C & _).
  exact (conj H (conj A (conj B (conj Hb (C Hb))))).
Defined.

(** C1 as stated fails: leaf 0x16 reports a base of 2400 MHz and a bus
    of 100 MHz but no max, nothing else yields a value; [success] is 0
    while [base_mhz] and [bus_mhz] are not. *)
Lemma resolution_failure_fields_not_zero :
  let s := resolve cpu_base_only None in
  success s = 0 /\ base_mhz s = 2400 /\ max_mhz s = 0 /\ bus_mhz s = 100 /\
  ~ (base_mhz s = 0 /\ max_mhz s = 0 /\ bus_mhz s = 0).
Proof.
  vm_compute. repeat split. intros [H _]. discriminate H.
Qed.

End FrequencyClaims.

Section FrequencyFrameClaims.
Import Freq.

Lemma resolve_consulted hw wmi :
  consulted (resolve hw wmi)
  = (if max_mhz (after_brand hw) =? 0 then [SrcWmi] else [])
    ++ (if brand_wanted (after_leaf06 hw) then [SrcBrand] else [])
    ++ consulted (after_leaf06 hw).
Proof.
  rewrite resolve_stages.
  destruct (stage_final_frame (get_max_cpuid_leaf hw) (after_wmi hw wmi))
    as (_ & _ & _ & ->).
  unfold after_wmi. rewrite stage_wmi_consulted.
  unfold after_brand at 2 3. rewrite stage_brand_consulted.
  destruct (max_mhz (after_brand hw) =? 0);
    destruct (brand_wanted (after_leaf06 hw)); reflexivity.
Qed.

(** C7, amended: in a run, brand parsing is attempted only if the leaf
    stages left [base_mhz] or [max_mhz] at zero and the management-layer
    query only if [max_mhz] is still zero after brand parsing, whereas
    leaf 0x15 is queried whenever the maximum leaf reaches it, whatever
    the clocks. On a state whose [base_mhz] and [max_mhz] are both
    non-zero no later stage changes either of them; brand parsing, the
    management-layer query, the feature leaf and the closing test never
    change [bus_mhz], and leaf 0x15 changes it only when it is zero. *)
Theorem chain_later_stages :
  (forall hw wmi,
     In SrcBrand (consulted (resolve hw wmi)) ->
     base_mhz (after_leaf06 hw) = 0 \/ max_mhz (after_leaf06 hw) = 0) /\
  (forall hw wmi,
     In SrcWmi (consulted (resolve hw wmi)) -> max_mhz (after_brand hw) = 0) /\
  (forall hw wmi,
     0x15 <= get_max_cpuid_leaf hw -> In SrcLeaf15 (consulted (resolve hw wmi))) /\
  (forall hw ml s,
     base_mhz s <> 0 -> max_mhz s <> 0 ->
     same_clocks s (stage_leaf15 hw ml s) /\
     same_clocks s (stage_leaf06 hw ml s) /\
     same_clocks s (stage_final ml s)) /\
  (forall brand s,
     base_mhz s <> 0 -> max_mhz s <> 0 -> same_clocks s (stage_brand brand s)) /\
  (forall wmi s,
     base_mhz s <> 0 -> max_mhz s <> 0 -> stage_wmi wmi s = s) /\
  (forall hw ml s,
     bus_mhz s <> 0 -> bus_mhz (stage_leaf15 hw ml s) = bus_mhz s) /\
  (forall hw ml brand wmi s,
     bus_mhz (stage_leaf06 hw ml s) = bus_mhz s /\
     bus_mhz (stage_brand brand s) = bus_mhz s /\
     bus_mhz (stage_wmi wmi s) = bus_mhz s /\
     bus_mhz (stage_final ml s) = bus_mhz s).
Proof.
  repeat apply conj.
  - intros hw wmi H. rewrite resolve_consulted in H.
    destruct (after_leaf06_consulted hw) as [NB _].
    destruct (brand_wanted (after_leaf06 hw)) eqn:W.
    + unfold brand_wanted in W.
      apply orb_true_iff in W as [W|W]; [apply orb_true_iff in W as [W|W]|];
        apply Z.eqb_eq in W; auto using after_leaf06_flag.
    + exfalso. apply NB.
      destruct (max_mhz (after_brand hw) =? 0); simpl in H;
        [destruct H as [H|H]; [discriminate H | exact H] | exact H].
  - intros hw wmi H. rewrite resolve_consulted in H.
    destruct (after_leaf06_consulted hw) as [_ NW].
    destruct (max_mhz (after_brand hw) =? 0) eqn:M; [now apply Z.eqb_eq|].
    exfalso. apply NW.
    destruct (brand_wanted (after_leaf06 hw)); simpl in H;
      [destruct H as [H|H]; [discriminate H | exact H] | exact H].
  - intros hw wmi H. rewrite resolve_consulted.
    apply in_or_app; right. apply in_or_app; right.
    destruct (stage_leaf06_frame hw (get_max_cpuid_leaf hw) (after_leaf15 hw))
      as (_ & _ & _ & C).
    fold (after_leaf06 hw) in C. rewrite C.
    unfold after_leaf15. rewrite stage_leaf15_consulted.
    replace (get_max_cpuid_leaf hw >=? 21) with true
      by (symmetry; apply Z.geb_le; lia).
    now left.
  - intros hw ml s Hb _. split; [now apply stage_leaf15_frame|].
    split; [apply stage_leaf06_frame | apply stage_final_frame].
  - intros brand s Hb Hm. now apply stage_brand_frame.
  - intros wmi s _ Hm. now apply stage_wmi_frame.
  - intros hw ml s. apply stage_leaf15_bus.
  - intros hw ml brand wmi s.
    split; [apply stage_leaf06_frame|].
    split; [apply stage_brand_frame|].
    split; [apply stage_wmi_frame | apply stage_final_frame].
Qed.

Lemma chain_later_stages_witness :
  let s := after_leaf16 cpu_bus_from_crystal in
  In SrcBrand (consulted (resolve cpu_base_only None)) /\
  (base_mhz (after_leaf06 cpu_base_only) = 0 \/
   max_mhz (after_leaf06 cpu_base_only) = 0) /\
  In SrcWmi (consulted (resolve cpu_base_only None)) /\
  max_mhz (after_brand cpu_base_only) = 0 /\
  0x15 <= get_max_cpuid_leaf cpu_bus_from_crystal /\
  In SrcLeaf15 (consulted (resolve cpu_bus_from_crystal None)) /\
  base_mhz s <> 0 /\ max_mhz s <> 0 /\
  same_clocks s (stage_leaf15 cpu_bus_from_crystal 0x16 s) /\
  same_clocks s (stage_brand (chars "CPU @ 2.00GHz") s) /\
  stage_wmi (Some 5000) s = s /\
  bus_mhz (stage_leaf15 cpu_bus_from_crystal 0x16
             (after_leaf15 cpu_bus_from_crystal))
  = bus_mhz (after_leaf15 cpu_bus_from_crystal).
Proof.
  assert (HB : In SrcBrand (consulted (resolve cpu_base_only None)))
    by (vm_compute; tauto).
  assert (HW : In SrcWmi (consulted (resolve cpu_base_only None)))
    by (vm_compute; tauto).
  assert (HL : 0x15 <= get_max_cpuid_leaf cpu_bus_from_crystal)
    by (vm_compute; discriminate).
  assert (Hb : base_mhz (after_leaf16 cpu_bus_from_crystal) <> 0)
    by (vm_compute; discriminate).
  assert (Hm : max_mhz (after_leaf16 cpu_bus_from_crystal) <> 0)
    by (vm_compute; discriminate).
  assert (Hbus : bus_mhz (after_leaf15 cpu_bus_from_crystal) <> 0)
    by (vm_compute; discriminate).
  destruct chain_later_stages as (A & B & C & D & E & F & G & _).
  exact (conj HB (conj (A _ _ HB) (conj HW (conj (B _ _ HW) (conj HL
          (conj (C _ None HL) (conj Hb (conj Hm
          (conj (proj1 (D cpu_bus_from_crystal 0x16 _ Hb Hm))
          (conj (E (chars "CPU @ 2.00GHz") _ Hb Hm)
          (conj (F (Some 5000) _ Hb Hm)
                (G cpu_bus_from_crystal 0x16 _ Hbus)))))))))))).
Defined.

(** C7 as stated fails: leaf 0x16 leaves base 3000 and max 4000, both
    non-zero, and no bus clock; leaf 0x15 is consulted all the same and
    sets [bus_mhz] to 24. *)
Lemma chain_later_stage_sets_bus :
  let s := after_leaf16 cpu_bus_from_crystal in
  let s' := resolve cpu_bus_from_crystal None in
  base_mhz s = 3000 /\ max_mhz s = 4000 /\ bus_mhz s = 0 /\
  In SrcLeaf15 (consulted s') /\
  bus_mhz (after_leaf15 cpu_bus_from_crystal) = 24 /\
  bus_mhz s' = 24 /\ bus_mhz s' <> bus_mhz s.
Proof.
  vm_compute. repeat split; try discriminate. tauto.
Qed.

End FrequencyFrameClaims.

Section Affinity.
Import Os Topo.

Lemma set_affinity_process st mask :
  process_affinity (fst (SetThreadAffinityMask st mask)) = process_affinity st.
Proof.
  unfold SetThreadAffinityMask. destruct (_ || _); reflexivity.
Qed.

Lemma pin_loop_process w max_leaf topo_leaf n : forall lp e,
  process_affinity (os (pin_loop w max_leaf topo_leaf n lp e))
  = process_affinity (os e).
Proof.
  induction n as [|n IH]; intros lp e; simpl; [reflexivity|].
  destruct (num_cores e <? 256); [|reflexivity].
  pose proof (set_affinity_process (os e)
                (to_u64 (Z.shiftl 1 (Z.land lp 63)))) as P.
  destruct (SetThreadAffinityMask _ _) as [st' prev]. simpl in P.
  destruct (prev =? 0); rewrite IH; [reflexivity | exact P].
Qed.

(** The paths that return before the thread is first pinned leave the
    host as it was. *)
Lemma detect_early_return w st topo :
  eax (read_cpuid (cpu w st) 0 0) < 0xB \/
  (forall infos, core_query w <> QueryOk infos) ->
  os (detect_apic_topology w st topo) = st.
Proof.
  intros H. unfold detect_apic_topology.
  destruct (_ <? 0xB) eqn:E; [reflexivity|].
  destruct H as [H|H]; [apply Z.ltb_ge in E; lia|].
  destruct (core_query w) as [| | |infos]; try reflexivity.
  now destruct (H infos).
Qed.

(** When processor 0 is open to the process, so that the first pin
    succeeds and hands back the original mask, the mask is restored. *)
Lemma detect_restores w st topo :
  affinity_valid st -> Z.land 1 (process_affinity st) = 1 ->
  os (detect_apic_topology w st topo) = st.
Proof.
  intros [Hnz Hsub] H0. unfold detect_apic_topology.
  destruct (_ <? 0xB); [reflexivity|].
  destruct (core_query w) as [| | |infos]; try reflexivity.
  unfold SetThreadAffinityMask at 1. rewrite H0. simpl.
  replace (thread_affinity st =? 0) with false
    by (symmetry; now apply Z.eqb_neq).
  cbn [os].
  set (e := pin_loop _ _ _ _ _ _).
  assert (P : process_affinity (os e) = process_affinity st)
    by (unfold e; now rewrite pin_loop_process).
  unfold SetThreadAffinityMask. rewrite P, Hsub, Z.eqb_refl.
  replace (thread_affinity st =? 0) with false
    by (symmetry; now apply Z.eqb_neq).
  simpl. now destruct st.
Qed.

(** C3: with processor 0 closed to the process the first pin fails, the
    saved mask is 0, the loop pins the thread to processors 1 and then 2,
    and nothing is restored: the thread is left on processor 2 although
    it started on the mask of processors 1 and 2. *)
Theorem affinity_left_pinned :
  let e := detect_apic_topology host_three os_without_cpu0
             (replicate 256 topo_zero) in
  affinity_valid os_without_cpu0 /\
  thread_affinity os_without_cpu0 = 6 /\
  snd (SetThreadAffinityMask os_without_cpu0 1) = 0 /\
  num_cores e = 2 /\
  thread_affinity (os e) = 4 /\
  thread_affinity (snd (Main.main host_three os_without_cpu0)) = 4 /\
  os e <> os_without_cpu0.
Proof.
  vm_compute. repeat split; discriminate.
Qed.

(** C9: on a hybrid part whose leaf 0x1A carries 0x40 in the high byte
    of EAX the recorded and emitted [core_type] is 64, outside the
    enumeration 0, 1, 2 of the record; without the leaf it is 0. *)
Theorem core_type_is_raw_byte :
  let e := detect_apic_topology host_hybrid os_one (replicate 256 topo_zero) in
  let t := core_type (nth 0 (topo_array e) topo_zero) in
  num_cores e = 1 /\ t = 64 /\ ~ In t [0; 1; 2] /\
  map Main.entry_core_type
      (Main.out_apic_ids (fst (Main.main host_hybrid os_one))) = [64] /\
  (forall hw max_leaf topo_leaf lp,
     core_type (make_record hw max_leaf topo_leaf lp)
     = if max_leaf >=? 0x1A
       then Z.land (Z.shiftr (eax (read_cpuid hw 0x1A 0)) 24) 0xFF
       else 0).
Proof.
  split; [vm_compute; reflexivity|]. split; [vm_compute; reflexivity|].
  split.
  - vm_compute. intros [H|[H|[H|[]]]]; discriminate H.
  - split; [vm_compute; reflexivity|]. reflexivity.
Qed.

End Affinity.


(** ** Evaluations *)

Section Evaluations.
Import Brand.

(** 3.6 as binary64: 0x1.ccccccccccccdp+1. *)
Example of_decimal_3_6 :
  Dbl.of_decimal 36 1 = S754_finite false 8106479329266893 (-51).
Proof. vm_compute. reflexivity. Qed.

Example to_int_out_of_range :
  Dbl.to_int (Dbl.of_decimal 99999999999 0) = - 2 ^ 31.
Proof. vm_compute. reflexivity. Qed.

Example parse_spaced : parse_frequency_from_brand (chars "CPU 2.5 ghz") = Some 2500.
Proof. vm_compute. reflexivity. Qed.

Example parse_second_dot :
  parse_frequency_from_brand (chars "rev 1.2.3GHz") = Some 1200.
Proof. vm_compute. reflexivity. Qed.

Example parse_no_number : parse_frequency_from_brand (chars "GHz") = None.
Proof. vm_compute. reflexivity. Qed.

Example parse_zero : parse_frequency_from_brand (chars "0.0MHz") = None.
Proof. vm_compute. reflexivity. Qed.

Example parse_prefers_ghz :
  parse_frequency_from_brand (chars "800MHz bus, 3GHz core") = Some 3000.
Proof. vm_compute. reflexivity. Qed.

(** The crystal-clock stage on a part without leaf 0x16 data: 24 MHz
    times 250/2. *)
Example leaf15_derives_base :
  let hw := plain_cpu (mkCPUID 0x15 0 0 0)
              (fun leaf _ => if leaf =? 0x15 then mkCPUID 2 250 24000000 0
                             else zeros) 0 in
  let s := Freq.resolve hw None in
  (Freq.base_mhz s, Freq.max_mhz s, Freq.bus_mhz s, Freq.success s)
  = (3000, 3000, 24, 1).
Proof. vm_compute. reflexivity. Qed.

Example intel_two_levels :
  let c := Intel.detect_intel_caches
             (leaf4_only [sub_l1d_32k; sub_l2_shared8]) caches_zero in
  (size_kb (l1d c), cores_sharing (l1d c), size_kb (l2 c), cores_sharing (l2 c))
  = (32, 1, 512, 8).
Proof. vm_compute. reflexivity. Qed.

End Evaluations.

(** ** Further properties: decoders, frequency chain, enumeration,
       grouping and output *)

Section IntelDecoderExtent.
Import Intel.

Lemma subleaf_loop_agree hw hw' n : forall sub c k,
  0 <= sub ->
  (forall i, sub <= i <= k -> read_cpuid hw 4 i = read_cpuid hw' 4 i) ->
  (sub <= k /\ dec_cache_type (read_cpuid hw 4 k) = 0) \/
    sub + Z.of_nat n - 1 <= k ->
  subleaf_loop hw n sub c = subleaf_loop hw' n sub c.
Proof.
  induction n as [|n IH]; intros sub c k Hs Hag Hend; [reflexivity|].
  cbn [subleaf_loop].
  assert (Hsub : sub <= k) by (destruct Hend; lia).
  rewrite <- (Hag sub) by lia.
  destruct (dec_cache_type (read_cpuid hw 4 sub) =? 0) eqn:E; [reflexivity|].
  apply Z.eqb_neq in E.
  destruct (Z.eq_dec sub k) as [->|Hne].
  - destruct Hend as [[_ H0]|Hk]; [contradiction|].
    assert (n = O) by lia. subst n. reflexivity.
  - apply (IH _ _ k); [lia | intros i Hi; apply Hag; lia |].
    destruct Hend as [[_ H0]|Hk]; [left; split; [lia | exact H0] | right; lia].
Qed.

(** The decoder reads subleaves 0, 1, ... of leaf 4 up to and including
    the first one whose type field is 0, and never beyond subleaf 31: two
    processors that answer alike on that stretch give the same records. *)
Theorem intel_reads_up_to_first_invalid hw hw' c k :
  (forall i, 0 <= i <= k -> read_cpuid hw 4 i = read_cpuid hw' 4 i) ->
  (0 <= k /\ dec_cache_type (read_cpuid hw 4 k) = 0) \/ 31 <= k ->
  detect_intel_caches hw c = detect_intel_caches hw' c.
Proof.
  intros Hag Hend. unfold detect_intel_caches.
  apply (subleaf_loop_agree hw hw' 32 0 c k); [lia | exact Hag |].
  destruct Hend as [H|H]; [left; exact H | right; simpl; lia].
Qed.

Lemma intel_reads_up_to_first_invalid_witness :
  let hw := leaf4_only [sub_l1d_32k; zeros; sub_l1d_huge] in
  let hw' := leaf4_only [sub_l1d_32k] in
  (forall i, 0 <= i <= 1 -> read_cpuid hw 4 i = read_cpuid hw' 4 i) /\
  dec_cache_type (read_cpuid hw 4 1) = 0 /\
  detect_intel_caches hw caches_zero = detect_intel_caches hw' caches_zero.
Proof.
  assert (A : forall i, 0 <= i <= 1 ->
            read_cpuid (leaf4_only [sub_l1d_32k; zeros; sub_l1d_huge]) 4 i
            = read_cpuid (leaf4_only [sub_l1d_32k]) 4 i).
  { intros i Hi. assert (i = 0 \/ i = 1) as [->| ->] by lia; reflexivity. }
  assert (B : dec_cache_type
                (read_cpuid (leaf4_only [sub_l1d_32k; zeros; sub_l1d_huge]) 4 1) = 0)
    by reflexivity.
  assert (K : 0 <= 1) by lia.
  exact (conj A (conj B
          (intel_reads_up_to_first_invalid _ _ caches_zero 1 A
             (or_introl (conj K B))))).
Defined.

End IntelDecoderExtent.

Section DecodedShapes.
Import Intel.

Lemma count_low_ones_bounds n : forall i m c,
  c <= count_low_ones n i m c <= c + Z.of_nat n.
Proof.
  induction n as [|n IH]; intros i m c; cbn [count_low_ones]; [lia|].
  destruct (_ =? 0); [lia|].
  specialize (IH (i + 1) m (c + 1)). lia.
Qed.

Lemma dec_cores_sharing_pow2 r :
  exists k, 0 <= k <= 12 /\ dec_cores_sharing r = 2 ^ k.
Proof.
  unfold dec_cores_sharing.
  pose proof (count_low_ones_bounds 12 0
                (Z.land (Z.shiftr (eax r) 14) 4095) 0) as H.
  set (k := count_low_ones 12 0 _ 0) in *. change (Z.of_nat 12) with 12 in H.
  exists k. split; [lia|].
  destruct (k >? 0) eqn:E.
  - rewrite Z.shiftl_mul_pow2 by lia. lia.
  - rewrite Z.gtb_ltb in E. apply Z.ltb_ge in E.
    now replace k with 0 by lia.
Qed.

Lemma decoded_shaped r : intel_shaped (decoded r).
Proof.
  unfold intel_shaped, decoded.
  cbn [assoc partitions line_size sets cores_sharing is_inclusive].
  split; [apply ways_range|]. split; [apply partitions_range|].
  split; [apply line_size_range|]. split; [apply wrap32_range|].
  split; [apply dec_cores_sharing_pow2|].
  pose proof (field_range (Z.shiftr (eax r) 9) 1 ltac:(lia)) as H.
  change (Z.ones 1) with 1 in H. change (2 ^ 1) with 2 in H. lia.
Qed.

Lemma fill_shaped r c :
  (forall t, get_level t c = cache_zero \/ intel_shaped (get_level t c)) ->
  forall t, get_level t (fill r c) = cache_zero \/ intel_shaped (get_level t (fill r c)).
Proof.
  intros H t. unfold fill.
  destruct (select_target _ _) as [t'|]; [|apply H].
  destruct (size_kb (get_level t' c) =? 0); [|apply H].
  pose proof (decoded_shaped r) as D. pose proof (H t) as Ht.
  destruct t, t'; cbn [get_level set_level l1d l1i l2 l3] in *; auto.
Qed.

Lemma subleaf_loop_shaped hw n : forall sub c,
  (forall t, get_level t c = cache_zero \/ intel_shaped (get_level t c)) ->
  forall t, get_level t (subleaf_loop hw n sub c) = cache_zero \/
            intel_shaped (get_level t (subleaf_loop hw n sub c)).
Proof.
  induction n as [|n IH]; intros sub c H; cbn [subleaf_loop]; [exact H|].
  destruct (_ =? 0); [exact H|]. apply IH. now apply fill_shaped.
Qed.

(** Every level record the leaf-4 decoder returns is either still
    zero-filled or has ways and partitions in 1..1024, a line size in
    1..4096, a set count that is some [int] (nothing more: it is 0 or
    negative for the largest set fields), an inclusivity of 0 or 1 and a
    sharing count that is a power of two 2^k with k <= 12, for which the
    grouper's shift is exactly k. *)
Theorem intel_records_shaped hw t :
  let x := get_level t (detect_intel_caches hw caches_zero) in
  x = cache_zero \/
  (intel_shaped x /\
   2 ^ Groups.calc_shift (cores_sharing x) = cores_sharing x).
Proof.
  intros x.
  assert (H : x = cache_zero \/ intel_shaped x).
  { apply subleaf_loop_shaped. intros t'. left. now destruct t'. }
  destruct H as [H|H]; [now left | right]. split; [exact H|].
  destruct H as (_ & _ & _ & _ & (k & Hk & E) & _). rewrite E.
  assert (P : 1 <= 2 ^ k <= 4096).
  { split; [apply (Z.pow_le_mono_r 2 0 k); lia
           | apply (Z.pow_le_mono_r 2 k 12); lia]. }
  rewrite calc_shift_log2 by (unfold in_int; lia).
  destruct (2 ^ k <=? 1) eqn:L.
  - apply Z.leb_le in L. lia.
  - now rewrite Z.log2_pow2 by lia.
Qed.

(** Every level record the extended-leaf decoder returns is either still
    zero-filled or carries only a positive size, with sharing count and
    inclusivity -1 and no geometry; the L1 sizes are at most 255 KB, the
    L2 size at most 65535 KB, and the L3 size is a multiple of 512 KB of
    at most 16383 chunks. *)
Theorem amd_records_shaped hw :
  let c := Amd.detect_amd_caches hw caches_zero in
  (forall t, get_level t c = cache_zero \/ amd_shaped (get_level t c)) /\
  0 <= size_kb (l1d c) <= 255 /\ 0 <= size_kb (l1i c) <= 255 /\
  0 <= size_kb (l2 c) <= 65535 /\
  0 <= size_kb (l3 c) <= 16383 * 512 /\ size_kb (l3 c) mod 512 = 0.
Proof.
  intros c.
  assert (M : forall v, Amd.mark v cache_zero = cache_zero \/
                        (amd_shaped (Amd.mark v cache_zero) /\
                         size_kb (Amd.mark v cache_zero) = v)).
  { intros v. unfold Amd.mark. destruct (v >? 0) eqn:E; [|now left].
    right. rewrite Z.gtb_ltb in E. apply Z.ltb_lt in E.
    unfold amd_shaped. cbn. repeat split; auto. }
  assert (S0 : forall v, 0 <= v -> 0 <= size_kb (Amd.mark v cache_zero) <= v).
  { intros v Hv. destruct (M v) as [->|[_ ->]]; cbn; lia. }
  pose proof (field_range (Z.shiftr (ecx (read_cpuid hw 0x80000005 0)) 24) 8
                ltac:(lia)) as R1.
  pose proof (field_range (Z.shiftr (edx (read_cpuid hw 0x80000005 0)) 24) 8
                ltac:(lia)) as R2.
  pose proof (field_range (Z.shiftr (ecx (read_cpuid hw 0x80000006 0)) 16) 16
                ltac:(lia)) as R3.
  pose proof (field_range (Z.shiftr (edx (read_cpuid hw 0x80000006 0)) 18) 14
                ltac:(lia)) as R4.
  change (Z.ones 8) with 255 in *. change (Z.ones 16) with 65535 in *.
  change (Z.ones 14) with 16383 in *.
  change (2 ^ 8) with 256 in *. change (2 ^ 16) with 65536 in *.
  change (2 ^ 14) with 16384 in *.
  unfold c, Amd.detect_amd_caches. cbn [l1d l1i l2 l3 caches_zero get_level].
  split.
  - intros t. destruct t; cbn [get_level l1d l1i l2 l3];
      match goal with |- Amd.mark ?v _ = _ \/ _ =>
        destruct (M v) as [->|[H _]]; auto end.
  - split; [pose proof (S0 _ (proj1 R1)); lia|].
    split; [pose proof (S0 _ (proj1 R2)); lia|].
    split; [pose proof (S0 _ (proj1 R3)); lia|].
    set (ch := Z.land _ 16383) in *.
    destruct (M (ch * 512)) as [->|[_ ->]]; cbn.
    + split; [lia | reflexivity].
    + split; [lia | apply Z.mod_mul; lia].
Qed.

End DecodedShapes.

Section VendorDetection.
Import Os.

Lemma bytes_eqb_eq a : forall b, bytes_eqb a b = true <-> a = b.
Proof.
  induction a as [|x a IH]; intros [|y b]; simpl; split; intros H;
    try reflexivity; try discriminate.
  - apply andb_true_iff in H as [H1 H2]. apply Ascii.eqb_eq in H1.
    apply IH in H2. now subst.
  - inversion H; subst. rewrite Ascii.eqb_refl. simpl. now apply IH.
Qed.

Lemma char_of_inj a b :
  0 <= a < 256 -> 0 <= b < 256 -> char_of a = char_of b -> a = b.
Proof.
  intros Ha Hb H. apply (f_equal code) in H.
  now rewrite !code_char_of in H by assumption.
Qed.

Lemma byte_field x k : 0 <= k ->
  Z.land (Z.shiftr x k) 255 = (x / 2 ^ k) mod 256.
Proof.
  intros Hk. change 255 with (Z.ones 8).
  now rewrite Z.land_ones, Z.shiftr_div_pow2 by lia.
Qed.

(** The four bytes in memory determine the word, and conversely. *)
Lemma int_bytes_eq r r' : int_bytes r = int_bytes r' <-> to_u32 r = to_u32 r'.
Proof.
  unfold int_bytes, to_u32.
  rewrite <- (Z.shiftr_0_r r) at 1. rewrite <- (Z.shiftr_0_r r') at 1.
  rewrite !byte_field by lia.
  change (2 ^ 0) with 1. change (2 ^ 8) with 256.
  change (2 ^ 16) with 65536. change (2 ^ 24) with 16777216.
  change (2 ^ 32) with 4294967296.
  split.
  - intros H. inversion H as [[H0 H1 H2 H3]].
    apply char_of_inj in H0; [|apply Z.mod_pos_bound; lia..].
    apply char_of_inj in H1; [|apply Z.mod_pos_bound; lia..].
    apply char_of_inj in H2; [|apply Z.mod_pos_bound; lia..].
    apply char_of_inj in H3; [|apply Z.mod_pos_bound; lia..].
    revert H0 H1 H2 H3. Z.div_mod_to_equations. lia.
  - intros H.
    assert (E : forall d, In d [1; 256; 65536; 16777216] ->
                (r / d) mod 256 = (r' / d) mod 256).
    { intros d Hd. simpl in Hd.
      destruct Hd as [<-|[<-|[<-|[<-|[]]]]];
        revert H; Z.div_mod_to_equations; lia. }
    rewrite (E 1), (E 256), (E 65536), (E 16777216) by (simpl; auto).
    reflexivity.
Qed.

Lemma vendor_bytes_eq e d c e' d' c' :
  int_bytes e ++ int_bytes d ++ int_bytes c
  = int_bytes e' ++ int_bytes d' ++ int_bytes c'
  <-> (to_u32 e, to_u32 d, to_u32 c) = (to_u32 e', to_u32 d', to_u32 c').
Proof.
  split.
  - intros H.
    apply app_inj_1 in H as [He H]; [|reflexivity].
    apply app_inj_1 in H as [Hd Hc]; [|reflexivity].
    apply int_bytes_eq in He, Hd, Hc. congruence.
  - intros H. inversion H as [[He Hd Hc]].
    apply int_bytes_eq in He, Hd, Hc. congruence.
Qed.

(** Vendor detection reads exactly the three signature words of leaf 0:
    the vendor is Intel precisely when EBX, EDX, ECX spell "GenuineIntel",
    AMD precisely when they spell "AuthenticAMD", and unknown in every
    other case. *)
Theorem vendor_by_signature_words hw :
  (get_cpu_vendor hw = VENDOR_INTEL <->
   vendor_words hw = (0x756E6547, 0x49656E69, 0x6C65746E)) /\
  (get_cpu_vendor hw = VENDOR_AMD <->
   vendor_words hw = (0x68747541, 0x69746E65, 0x444D4163)) /\
  (get_cpu_vendor hw = VENDOR_UNKNOWN <->
   vendor_words hw <> (0x756E6547, 0x49656E69, 0x6C65746E) /\
   vendor_words hw <> (0x68747541, 0x69746E65, 0x444D4163)).
Proof.
  unfold get_cpu_vendor, vendor_words.
  set (r := read_cpuid hw 0 0).
  pose proof (vendor_bytes_eq (ebx r) (edx r) (ecx r)
                0x756E6547 0x49656E69 0x6C65746E) as I.
  pose proof (vendor_bytes_eq (ebx r) (edx r) (ecx r)
                0x68747541 0x69746E65 0x444D4163) as A.
  change (int_bytes 0x756E6547 ++ int_bytes 0x49656E69 ++ int_bytes 0x6C65746E)
    with (chars "GenuineIntel") in I.
  change (int_bytes 0x68747541 ++ int_bytes 0x69746E65 ++ int_bytes 0x444D4163)
    with (chars "AuthenticAMD") in A.
  change (to_u32 0x756E6547, to_u32 0x49656E69, to_u32 0x6C65746E)
    with (0x756E6547, 0x49656E69, 0x6C65746E) in I.
  change (to_u32 0x68747541, to_u32 0x69746E65, to_u32 0x444D4163)
    with (0x68747541, 0x69746E65, 0x444D4163) in A.
  generalize dependent (int_bytes (ebx r) ++ int_bytes (edx r) ++ int_bytes (ecx r)).
  generalize (to_u32 (ebx r), to_u32 (edx r), to_u32 (ecx r)).
  intros ws v I A.
  destruct (bytes_eqb v (chars "GenuineIntel")) eqn:EI.
  - apply bytes_eqb_eq in EI. apply I in EI. subst ws.
    repeat split; intros; try discriminate; try reflexivity.
    destruct H as [H _]. now contradiction H.
  - assert (NI : ws <> (0x756E6547, 0x49656E69, 0x6C65746E)).
    { intros H. apply I, bytes_eqb_eq in H. congruence. }
    destruct (bytes_eqb v (chars "AuthenticAMD")) eqn:EA.
    + apply bytes_eqb_eq in EA. apply A in EA. subst ws.
      repeat split; intros; try discriminate; try reflexivity.
      destruct H as [_ H]. now contradiction H.
    + assert (NA : ws <> (0x68747541, 0x69746E65, 0x444D4163)).
      { intros H. apply A, bytes_eqb_eq in H. congruence. }
      repeat split; intros; try discriminate; try contradiction; auto.
Qed.

Lemma vendor_by_signature_words_witness :
  vendor_words (cpu host_amd os_two) = (0x68747541, 0x69746E65, 0x444D4163) /\
  get_cpu_vendor (cpu host_amd os_two) = VENDOR_AMD /\
  vendor_words (cpu host_unknown_vendor os_two) <> (0x756E6547, 0x49656E69, 0x6C65746E) /\
  vendor_words (cpu host_unknown_vendor os_two) <> (0x68747541, 0x69746E65, 0x444D4163) /\
  get_cpu_vendor (cpu host_unknown_vendor os_two) = VENDOR_UNKNOWN.
Proof.
  assert (W : vendor_words (cpu host_amd os_two)
              = (0x68747541, 0x69746E65, 0x444D4163)) by reflexivity.
  assert (N1 : vendor_words (cpu host_unknown_vendor os_two)
               <> (0x756E6547, 0x49656E69, 0x6C65746E)) by (vm_compute; discriminate).
  assert (N2 : vendor_words (cpu host_unknown_vendor os_two)
               <> (0x68747541, 0x69746E65, 0x444D4163)) by (vm_compute; discriminate).
  pose proof (vendor_by_signature_words (cpu host_amd os_two)) as (_ & A & _).
  pose proof (vendor_by_signature_words (cpu host_unknown_vendor os_two))
    as (_ & _ & U).
  exact (conj W (conj (proj2 A W) (conj N1 (conj N2 (proj2 U (conj N1 N2)))))).
Defined.

End VendorDetection.

Section BrandBuffer.
Import Brand.

Lemma c_str_length buf : (length (c_str buf) <= length buf)%nat.
Proof.
  induction buf as [|c buf IH]; simpl; [lia|].
  destruct (Ascii.eqb c NUL); simpl; lia.
Qed.

Lemma c_str_app_nul l rest : c_str (l ++ NUL :: rest) = c_str l.
Proof.
  induction l as [|c l IH]; simpl; [reflexivity|].
  destruct (Ascii.eqb c NUL); [reflexivity | now rewrite IH].
Qed.

Lemma leaf_bytes_length hw i : length (leaf_bytes hw i) = 16%nat.
Proof. reflexivity. Qed.

(** The brand buffer always holds 64 bytes and a string of at most 48:
    the empty string when the highest extended leaf is below 0x80000004
    (compared as unsigned numbers), and otherwise the bytes of the twelve
    words of leaves 0x80000002..4, in order, up to their first NUL. *)
Theorem brand_string_extent hw :
  let buf := get_brand_string hw in
  let max_ext := to_u32 (eax (read_cpuid hw 0x80000000 0)) in
  length buf = 64%nat /\
  (length (c_str buf) <= 48)%nat /\
  (max_ext < 0x80000004 -> c_str buf = []) /\
  (0x80000004 <= max_ext ->
   c_str buf = c_str (leaf_bytes hw 0 ++ leaf_bytes hw 1 ++ leaf_bytes hw 2)).
Proof.
  intros buf max_ext. unfold buf, get_brand_string. fold max_ext.
  destruct (max_ext <? 0x80000004) eqn:E.
  - apply Z.ltb_lt in E.
    split; [reflexivity|]. split; [simpl; lia|].
    split; [reflexivity | intros H; lia].
  - apply Z.ltb_ge in E.
    assert (S : c_str (leaf_bytes hw 0 ++ leaf_bytes hw 1 ++ leaf_bytes hw 2
                         ++ replicate 16 NUL)
                = c_str (leaf_bytes hw 0 ++ leaf_bytes hw 1 ++ leaf_bytes hw 2)).
    { change (replicate 16 NUL) with (NUL :: replicate 15 NUL).
      rewrite !app_assoc. apply c_str_app_nul. }
    split; [reflexivity|]. split.
    + rewrite S. etransitivity; [apply c_str_length|].
      rewrite !length_app, !leaf_bytes_length. lia.
    + split; [intros H; lia | intros _; exact S].
Qed.

Lemma brand_string_extent_witness :
  let hw := plain_cpu zeros (fun _ _ => zeros) 0 in
  to_u32 (eax (read_cpuid hw 0x80000000 0)) < 0x80000004 /\
  c_str (get_brand_string hw) = [].
Proof.
  assert (H : to_u32 (eax (read_cpuid (plain_cpu zeros (fun _ _ => zeros) 0)
                             0x80000000 0)) < 0x80000004)
    by (vm_compute; reflexivity).
  exact (conj H (proj1 (proj2 (proj2 (brand_string_extent _))) H)).
Defined.

End BrandBuffer.

Section BrandCase.
Import Brand.

Lemma to_upper_nul c : Ascii.eqb (to_upper c) NUL = Ascii.eqb c NUL.
Proof.
  unfold to_upper.
  destruct ((97 <=? code c) && (code c <=? 122)) eqn:E; [|reflexivity].
  apply andb_true_iff in E as [E1 E2].
  apply Z.leb_le in E1. apply Z.leb_le in E2.
  transitivity false.
  - apply Ascii.eqb_neq. intros H. apply (f_equal code) in H.
    rewrite code_char_of in H by lia. change (code NUL) with 0 in H. lia.
  - symmetry. apply Ascii.eqb_neq. intros ->. change (code NUL) with 0 in E1. lia.
Qed.

Lemma to_upper_idem c : to_upper (to_upper c) = to_upper c.
Proof.
  unfold to_upper at 2 3.
  destruct ((97 <=? code c) && (code c <=? 122)) eqn:E.
  - apply andb_true_iff in E as [E1 E2].
    apply Z.leb_le in E1. apply Z.leb_le in E2.
    unfold to_upper. rewrite code_char_of by lia.
    replace (97 <=? code c - 32) with false
      by (symmetry; apply Z.leb_gt; lia).
    reflexivity.
  - unfold to_upper. now rewrite E.
Qed.

Lemma c_str_map_upper l : c_str (map to_upper l) = map to_upper (c_str l).
Proof.
  induction l as [|c l IH]; simpl; [reflexivity|].
  rewrite to_upper_nul. destruct (Ascii.eqb c NUL); simpl; [reflexivity|].
  now rewrite IH.
Qed.

(** The upper-cased working copy is a function of the upper-cased input. *)
Lemma upper_copy_of_upper brand :
  map to_upper (take (Nat.min (length (c_str brand)) 127) (c_str brand))
  = take (Nat.min (length (c_str (map to_upper brand))) 127)
         (c_str (map to_upper brand)).
Proof.
  rewrite c_str_map_upper, length_map. symmetry. apply firstn_map.
Qed.

(** Brand parsing does not depend on letter case: two strings that are
    equal once ASCII lower-case letters are upper-cased parse alike. *)
Theorem parse_ignores_case brand brand' :
  map to_upper brand = map to_upper brand' ->
  parse_frequency_from_brand brand = parse_frequency_from_brand brand'.
Proof.
  intros H. unfold parse_frequency_from_brand.
  now rewrite !upper_copy_of_upper, H.
Qed.

Lemma parse_ignores_case_witness :
  map to_upper (chars "Core i7 @ 3.60GHz") = map to_upper (chars "CORE I7 @ 3.60ghz") /\
  parse_frequency_from_brand (chars "Core i7 @ 3.60GHz")
  = parse_frequency_from_brand (chars "CORE I7 @ 3.60ghz").
Proof.
  assert (H : map to_upper (chars "Core i7 @ 3.60GHz")
              = map to_upper (chars "CORE I7 @ 3.60ghz")) by reflexivity.
  exact (conj H (parse_ignores_case _ _ H)).
Defined.

End BrandCase.

Section ChainOutcomes.
Import Freq.

Ltac fields :=
  cbn [success base_mhz max_mhz bus_mhz consulted turbo_supported].

Lemma stage_leaf15_keeps hw ml s :
  base_mhz s <> 0 ->
  success (stage_leaf15 hw ml s) = success s /\
  same_clocks s (stage_leaf15 hw ml s).
Proof.
  intros Hb. unfold stage_leaf15, same_clocks.
  destruct (ml >=? 21); [|auto].
  destruct (_ && _ && _); fields; [|auto].
  rewrite (neqb_false _ Hb). cbn [andb]. fields. auto.
Qed.

Lemma stage_leaf15_max hw ml s :
  max_mhz (stage_leaf15 hw ml s) = 0 -> max_mhz s = 0.
Proof.
  unfold stage_leaf15.
  destruct (ml >=? 21); [|auto].
  destruct (_ && _ && _); fields; [|auto].
  destruct (_ && _); fields; [|auto].
  destruct (max_mhz s =? 0) eqn:E; [now apply Z.eqb_eq in E | auto].
Qed.

Lemma stage_brand_skipped brand s :
  brand_wanted s = false -> stage_brand brand s = s.
Proof. intros H. unfold stage_brand. fold (brand_wanted s). now rewrite H. Qed.

Lemma stage_brand_max brand s :
  max_mhz (stage_brand brand s) = 0 -> max_mhz s = 0 /\ ~ brand_usable brand.
Proof.
  unfold stage_brand, brand_usable.
  destruct (_ || _ || _) eqn:W.
  - destruct (Brand.parse_frequency_from_brand brand) as [v|]; fields.
    + destruct (v >? 0) eqn:E; fields.
      * rewrite Z.gtb_ltb in E. apply Z.ltb_lt in E.
        destruct (max_mhz s =? 0) eqn:M; intros H; [lia|].
        apply Z.eqb_neq in M. contradiction.
      * rewrite Z.gtb_ltb in E. apply Z.ltb_ge in E.
        intros H. split; [exact H|]. intros (m & Hm & Hp).
        inversion Hm; subst. lia.
    + intros H. split; [exact H|]. intros (m & Hm & _). discriminate.
  - intros H. apply orb_false_iff in W as [_ W].
    apply Z.eqb_neq in W. contradiction.
Qed.

Lemma stage_wmi_max wmi s :
  max_mhz (stage_wmi wmi s) = 0 -> max_mhz s = 0 /\ get_max_clock_wmi wmi = 0.
Proof.
  unfold stage_wmi.
  destruct (max_mhz s =? 0) eqn:M.
  - apply Z.eqb_eq in M.
    destruct (get_max_clock_wmi wmi >? 0) eqn:E; fields.
    + rewrite Z.gtb_ltb in E. apply Z.ltb_lt in E. lia.
    + intros _. split; [exact M|].
      unfold get_max_clock_wmi in *. destruct wmi as [v|]; [|reflexivity].
      destruct (wrap32 v >? 0) eqn:E2; [congruence | reflexivity].
  - apply Z.eqb_neq in M. intros H. contradiction.
Qed.

Lemma stage_final_keeps ml s : success s <> 0 -> stage_final ml s = s.
Proof.
  intros H. unfold stage_final. now rewrite (neqb_false _ H).
Qed.

Lemma resolve_after_complete_leaf16 hw wmi :
  let r := read_cpuid hw 0x16 0 in
  let s := resolve hw wmi in
  0x16 <= get_max_cpuid_leaf hw ->
  Z.land (eax r) 0xFFFF <> 0 -> Z.land (ebx r) 0xFFFF <> 0 ->
  success s = 1 /\
  base_mhz s = Z.land (eax r) 0xFFFF /\
  max_mhz s = Z.land (ebx r) 0xFFFF /\
  ~ In SrcBrand (consulted s) /\ ~ In SrcWmi (consulted s) /\
  (Z.land (ecx r) 0xFFFF <> 0 -> bus_mhz s = Z.land (ecx r) 0xFFFF).
Proof.
  intros r s Hl Hb Hm.
  pose proof (low16_range (eax r)) as Rb. pose proof (low16_range (ebx r)) as Rm.
  assert (A : after_leaf16 hw
              = mkState (Z.land (eax r) 0xFFFF) (Z.land (ebx r) 0xFFFF)
                        (Z.land (ecx r) 0xFFFF) 0 1 [SrcLeaf16]).
  { unfold after_leaf16, stage_leaf16.
    replace (get_max_cpuid_leaf hw >=? 22) with true
      by (symmetry; apply Z.geb_le; lia).
    fold r.
    replace (Z.land (eax r) 65535 >? 0) with true
      by (symmetry; rewrite Z.gtb_ltb; apply Z.ltb_lt; lia).
    replace (Z.land (ebx r) 65535 >? 0) with true
      by (symmetry; rewrite Z.gtb_ltb; apply Z.ltb_lt; lia).
    reflexivity. }
  assert (Hb1 : base_mhz (after_leaf16 hw) <> 0) by (rewrite A; exact Hb).
  destruct (stage_leaf15_keeps hw (get_max_cpuid_leaf hw) _ Hb1) as (S15 & [B15 M15]).
  fold (after_leaf15 hw) in S15, B15, M15.
  destruct (stage_leaf06_frame hw (get_max_cpuid_leaf hw) (after_leaf15 hw))
    as (S06 & [B06 M06] & U06 & _).
  fold (after_leaf06 hw) in S06, B06, M06, U06.
  rewrite A in S15, B15, M15. fields. fields.
  cbn [success base_mhz max_mhz] in S15, B15, M15.
  assert (W : brand_wanted (after_leaf06 hw) = false).
  { unfold brand_wanted. rewrite S06, S15, B06, B15, M06, M15.
    now rewrite (neqb_false _ Hb), (neqb_false _ Hm). }
  assert (Eb : after_brand hw = after_leaf06 hw)
    by (unfold after_brand; now apply stage_brand_skipped).
  assert (Mb : max_mhz (after_brand hw) <> 0) by (rewrite Eb, M06, M15; exact Hm).
  assert (Ew : after_wmi hw wmi = after_leaf06 hw).
  { unfold after_wmi. rewrite (proj2 (stage_wmi_frame wmi _) Mb). exact Eb. }
  assert (Es : s = after_leaf06 hw).
  { unfold s. rewrite resolve_stages, Ew. apply stage_final_keeps.
    rewrite S06, S15. discriminate. }
  pose proof (resolve_consulted hw wmi) as C. fold s in C.
  rewrite W, (neqb_false _ Mb) in C. cbn [app] in C.
  destruct (after_leaf06_consulted hw) as [NB NW].
  rewrite C. rewrite Es.
  split; [now rewrite S06|]. split; [now rewrite B06|]. split; [now rewrite M06|].
  split; [exact NB|]. split; [exact NW|].
  intros Hbus. rewrite U06. unfold after_leaf15.
  rewrite stage_leaf15_bus; rewrite A; fields; auto.
Qed.

(** Leaf 0x16 has priority: when it is supported and reports a non-zero
    base and a non-zero max, these are the emitted [base_mhz] and
    [max_mhz] and [success] is 1, whatever leaf 0x15, the brand string
    and the management layer hold; neither brand parsing nor the
    management layer is consulted, and a non-zero bus word is emitted as
    [bus_mhz]. *)
Theorem leaf16_has_priority hw wmi :
  let r := read_cpuid hw 0x16 0 in
  let s := resolve hw wmi in
  0x16 <= get_max_cpuid_leaf hw ->
  Z.land (eax r) 0xFFFF <> 0 -> Z.land (ebx r) 0xFFFF <> 0 ->
  success s = 1 /\
  base_mhz s = Z.land (eax r) 0xFFFF /\
  max_mhz s = Z.land (ebx r) 0xFFFF /\
  ~ In SrcBrand (consulted s) /\ ~ In SrcWmi (consulted s) /\
  (Z.land (ecx r) 0xFFFF <> 0 -> bus_mhz s = Z.land (ecx r) 0xFFFF).
Proof. exact (resolve_after_complete_leaf16 hw wmi). Qed.

Lemma leaf16_has_priority_witness :
  let s := resolve cpu_bus_from_crystal (Some 5000) in
  0x16 <= get_max_cpuid_leaf cpu_bus_from_crystal /\
  success s = 1 /\ base_mhz s = 3000 /\ max_mhz s = 4000.
Proof.
  assert (Hl : 0x16 <= get_max_cpuid_leaf cpu_bus_from_crystal)
    by (vm_compute; discriminate).
  assert (Hb : Z.land (eax (read_cpuid cpu_bus_from_crystal 0x16 0)) 0xFFFF <> 0)
    by (vm_compute; discriminate).
  assert (Hm : Z.land (ebx (read_cpuid cpu_bus_from_crystal 0x16 0)) 0xFFFF <> 0)
    by (vm_compute; discriminate).
  pose proof (leaf16_has_priority cpu_bus_from_crystal (Some 5000) Hl Hb Hm)
    as (A & B & C & _).
  exact (conj Hl (conj A (conj B C))).
Defined.

(** An emitted [max_mhz] of 0 means every source of a max clock came up
    empty: leaf 0x16 gave no max, the brand string no positive value and
    the management layer none either. *)
Theorem zero_max_means_no_source hw wmi :
  max_mhz (resolve hw wmi) = 0 ->
  max_mhz (after_leaf16 hw) = 0 /\
  ~ brand_usable (Brand.get_brand_string hw) /\
  get_max_clock_wmi wmi = 0.
Proof.
  intros H. rewrite resolve_stages in H.
  destruct (stage_final_frame (get_max_cpuid_leaf hw) (after_wmi hw wmi))
    as (_ & [_ F] & _).
  rewrite F in H.
  destruct (stage_wmi_max wmi _ H) as [H4 W].
  destruct (stage_brand_max _ _ H4) as [H3 B].
  destruct (stage_leaf06_frame hw (get_max_cpuid_leaf hw) (after_leaf15 hw))
    as (_ & [_ M06] & _).
  fold (after_leaf06 hw) in M06. rewrite M06 in H3.
  apply stage_leaf15_max in H3. auto.
Qed.

Lemma zero_max_means_no_source_witness :
  max_mhz (resolve cpu_base_only None) = 0 /\
  max_mhz (after_leaf16 cpu_base_only) = 0 /\
  get_max_clock_wmi None = 0.
Proof.
  assert (H : max_mhz (resolve cpu_base_only None) = 0) by (vm_compute; reflexivity).
  pose proof (zero_max_means_no_source cpu_base_only None H) as (A & _ & C).
  exact (conj H (conj A C)).
Defined.

End ChainOutcomes.

Section Fallbacks.
Import Freq.

Ltac fields :=
  cbn [success base_mhz max_mhz bus_mhz consulted turbo_supported].

(** Below leaf 0x15 the leaf stages leave everything but the turbo flag
    as initialised. *)
Lemma after_leaf06_without_leaves hw :
  get_max_cpuid_leaf hw < 0x15 ->
  exists t, after_leaf06 hw = mkState 0 0 0 t 0 [].
Proof.
  intros H. unfold after_leaf06, after_leaf15, after_leaf16.
  unfold stage_leaf16, stage_leaf15.
  replace (get_max_cpuid_leaf hw >=? 22) with false
    by (symmetry; rewrite Z.geb_leb; apply Z.leb_gt; lia).
  replace (get_max_cpuid_leaf hw >=? 21) with false
    by (symmetry; rewrite Z.geb_leb; apply Z.leb_gt; lia).
  unfold stage_leaf06, init. destruct (_ >=? 6); fields; eauto.
Qed.

(** On a processor without the frequency leaves the fallbacks apply in
    order: a brand string that parses to a positive value fills both
    [base_mhz] and [max_mhz] with it and the management layer is not
    consulted; otherwise a positive management-layer value fills both;
    otherwise both stay 0 and [success] is 0. [bus_mhz] stays 0 in every
    case. *)
Theorem fallbacks_without_leaves hw wmi :
  let s := resolve hw wmi in
  let brand := Brand.get_brand_string hw in
  get_max_cpuid_leaf hw < 0x15 ->
  bus_mhz s = 0 /\
  (forall v, Brand.parse_frequency_from_brand brand = Some v -> 0 < v ->
     base_mhz s = v /\ max_mhz s = v /\ success s = 1 /\
     consulted s = [SrcBrand]) /\
  (~ brand_usable brand ->
   base_mhz s = get_max_clock_wmi wmi /\ max_mhz s = get_max_clock_wmi wmi /\
   success s = (if get_max_clock_wmi wmi >? 0 then 1 else 0) /\
   consulted s = [SrcWmi; SrcBrand]).
Proof.
  intros s brand H.
  destruct (after_leaf06_without_leaves hw H) as [t E].
  unfold s. rewrite resolve_stages. unfold after_wmi, after_brand.
  fold brand. rewrite E. clear E.
  unfold stage_brand. fields. cbn [Z.eqb orb].
  destruct (Brand.parse_frequency_from_brand brand) as [p|] eqn:P.
  - destruct (p >? 0) eqn:Pp.
    + rewrite Z.gtb_ltb in Pp. apply Z.ltb_lt in Pp.
      fields. cbn [Z.eqb].
      unfold stage_wmi. fields. rewrite (neqb_false p) by lia.
      rewrite stage_final_keeps by (fields; discriminate). fields.
      split; [reflexivity|]. split.
      * intros v Hv _. inversion Hv; subst. auto.
      * intros N. exfalso. apply N. exists p. split; [exact P | lia].
    + rewrite Z.gtb_ltb in Pp. apply Z.ltb_ge in Pp.
      unfold stage_wmi. fields. cbn [Z.eqb].
      assert (G : 0 <= get_max_clock_wmi wmi).
      { unfold get_max_clock_wmi. destruct wmi as [l|]; [|lia].
        destruct (wrap32 l >? 0) eqn:W; [|lia].
        rewrite Z.gtb_ltb in W. apply Z.ltb_lt in W. lia. }
      destruct (get_max_clock_wmi wmi >? 0) eqn:W; fields.
      * rewrite stage_final_keeps by (fields; discriminate). fields.
        split; [reflexivity|]. split; [intros v Hv Hp; inversion Hv; lia|].
        intros _. cbn [Z.eqb]. auto.
      * rewrite Z.gtb_ltb in W. apply Z.ltb_ge in W.
        destruct (stage_final_frame (get_max_cpuid_leaf hw)
                    (mkState 0 0 0 t 0 [SrcWmi; SrcBrand]))
          as (F1 & [F2 F3] & F4 & F5).
        rewrite F1, F2, F3, F4, F5. fields.
        split; [reflexivity|]. split; [intros v Hv Hp; inversion Hv; lia|].
        intros _. replace (get_max_clock_wmi wmi) with 0 by lia. auto.
  - unfold stage_wmi. fields. cbn [Z.eqb].
    assert (G : 0 <= get_max_clock_wmi wmi).
    { unfold get_max_clock_wmi. destruct wmi as [l|]; [|lia].
      destruct (wrap32 l >? 0) eqn:W; [|lia].
      rewrite Z.gtb_ltb in W. apply Z.ltb_lt in W. lia. }
    destruct (get_max_clock_wmi wmi >? 0) eqn:W; fields.
    + rewrite stage_final_keeps by (fields; discriminate). fields.
      split; [reflexivity|]. split; [intros v Hv; discriminate Hv|].
      intros _. cbn [Z.eqb]. auto.
    + rewrite Z.gtb_ltb in W. apply Z.ltb_ge in W.
      destruct (stage_final_frame (get_max_cpuid_leaf hw)
                  (mkState 0 0 0 t 0 [SrcWmi; SrcBrand]))
        as (F1 & [F2 F3] & F4 & F5).
      rewrite F1, F2, F3, F4, F5. fields.
      split; [reflexivity|]. split; [intros v Hv; discriminate Hv|].
      intros _. replace (get_max_clock_wmi wmi) with 0 by lia. auto.
Qed.

Lemma fallbacks_without_leaves_witness :
  let s := resolve cpu_brand_only (Some 1800) in
  get_max_cpuid_leaf cpu_brand_only < 0x15 /\
  Brand.parse_frequency_from_brand (Brand.get_brand_string cpu_brand_only)
  = Some 2400 /\
  base_mhz s = 2400 /\ max_mhz s = 2400 /\ success s = 1 /\
  consulted s = [SrcBrand].
Proof.
  assert (H : get_max_cpuid_leaf cpu_brand_only < 0x15) by (vm_compute; reflexivity).
  assert (P : Brand.parse_frequency_from_brand (Brand.get_brand_string cpu_brand_only)
              = Some 2400) by (vm_compute; reflexivity).
  assert (V : 0 < 2400) by lia.
  pose proof (proj1 (proj2 (fallbacks_without_leaves cpu_brand_only (Some 1800) H))
                2400 P V) as (A & B & C & D).
  exact (conj H (conj P (conj A (conj B (conj C D))))).
Defined.

End Fallbacks.

Section AffinityRestored.
Import Os Topo.

(** The thread's affinity after enumeration is the one before it on the
    paths that return before the first pin (topology leaf missing,
    core-relationship query not delivering) and whenever processor 0 is
    open to the process, so that the first pin succeeds and hands back the
    original mask. *)
Theorem affinity_restored_when_saved w st topo :
  (eax (read_cpuid (cpu w st) 0 0) < 0xB \/
   (forall infos, core_query w <> QueryOk infos) ->
   os (detect_apic_topology w st topo) = st) /\
  (affinity_valid st -> Z.land 1 (process_affinity st) = 1 ->
   os (detect_apic_topology w st topo) = st).
Proof.
  split; [apply detect_early_return | apply detect_restores].
Qed.

Lemma affinity_restored_when_saved_witness :
  affinity_valid os_two /\ Z.land 1 (process_affinity os_two) = 1 /\
  num_cores (detect_apic_topology host_unknown_vendor os_two
               (replicate 256 topo_zero)) = 2 /\
  os (detect_apic_topology host_unknown_vendor os_two (replicate 256 topo_zero))
  = os_two /\
  os (detect_apic_topology host_query_fails os_two (replicate 256 topo_zero))
  = os_two.
Proof.
  assert (Hv : affinity_valid os_two) by (split; [discriminate | reflexivity]).
  assert (H0 : Z.land 1 (process_affinity os_two) = 1) by reflexivity.
  assert (Q : forall infos, core_query host_query_fails <> QueryOk infos)
    by (intros infos; discriminate).
  pose proof (affinity_restored_when_saved host_unknown_vendor os_two
                (replicate 256 topo_zero)) as [_ B].
  pose proof (affinity_restored_when_saved host_query_fails os_two
                (replicate 256 topo_zero)) as [A _].
  exact (conj Hv (conj H0 (conj eq_refl (conj (B Hv H0) (A (or_intror Q)))))).
Defined.

End AffinityRestored.

Section TurboFields.
Import Main.

Lemma main_frequency w st :
  let hw := Os.cpu w st in
  let e := Topo.detect_apic_topology w st (replicate 256 topo_zero) in
  let out := fst (main w st) in
  out_base_mhz out = Freq.base_mhz (Freq.resolve hw (Os.wmi w)) /\
  out_max_mhz out = Freq.max_mhz (Freq.resolve hw (Os.wmi w)) /\
  out_success out = Freq.success (Freq.resolve hw (Os.wmi w)) /\
  out_max_cpuid_leaf out = get_max_cpuid_leaf hw /\
  out_turbo_ratios out = Freq.get_turbo_ratios (Os.cpu w (Topo.os e)) /\
  snd (main w st) = Topo.os e.
Proof.
  intros hw e out. unfold out, main.
  cbn [fst snd out_base_mhz out_max_mhz out_success out_max_cpuid_leaf
       out_turbo_ratios].
  repeat split; reflexivity.
Qed.

(** The turbo query reads leaves 0 and 0x16 only: on a machine whose
    processors answer both alike it gives the same result wherever the
    thread runs. *)
Lemma get_turbo_ratios_uniform w st st' :
  same_on_all w 0 -> same_on_all w 0x16 ->
  Freq.get_turbo_ratios (Os.cpu w st') = Freq.get_turbo_ratios (Os.cpu w st).
Proof.
  intros U0 U16. unfold Freq.get_turbo_ratios, get_max_cpuid_leaf, Os.cpu.
  rewrite (U0 (Os.running_on w (Os.thread_affinity st'))
              (Os.running_on w (Os.thread_affinity st))).
  rewrite (U16 (Os.running_on w (Os.thread_affinity st'))
               (Os.running_on w (Os.thread_affinity st))).
  reflexivity.
Qed.

(** On a machine whose processors all answer leaves 0 and 0x16 alike,
    the optional turbo fields agree with the clocks wherever enumeration
    leaves the thread: they are present exactly when the maximum leaf
    reaches 0x16, each lies in 0..65535, and when the base and
    single-core fields are both non-zero they are the emitted [base_mhz]
    and [max_mhz], with [success] 1. *)
Theorem turbo_fields_match_clocks w st :
  let out := fst (main w st) in
  same_on_all w 0 -> same_on_all w 0x16 ->
  (out_turbo_ratios out = None <-> out_max_cpuid_leaf out < 0x16) /\
  (forall b m a,
     out_turbo_ratios out = Some (b, m, a) ->
     0 <= b <= 65535 /\ 0 <= m <= 65535 /\ 0 <= a <= 65535 /\
     (b <> 0 -> m <> 0 ->
      out_success out = 1 /\ out_base_mhz out = b /\ out_max_mhz out = m)).
Proof.
  intros out U0 U16.
  destruct (main_frequency w st) as (Eb & Em & Es & El & Et & _).
  fold out in Eb, Em, Es, El, Et. cbv zeta in *. clearbody out.
  rewrite (get_turbo_ratios_uniform w st _ U0 U16) in Et.
  rewrite Eb, Em, Es, El, Et. clear Eb Em Es El Et U0 U16.
  generalize (Os.cpu w st). intros hw. unfold Freq.get_turbo_ratios.
  destruct (get_max_cpuid_leaf hw <? 22) eqn:L.
  - apply Z.ltb_lt in L. split; [tauto|]. intros b m a H. discriminate H.
  - apply Z.ltb_ge in L. split; [split; [discriminate | lia]|].
    intros b m a H.
    apply (f_equal (fun o => match o with Some x => x | None => (0, 0, 0) end)) in H.
    pose proof (f_equal (fun p => fst (fst p)) H) as H1.
    pose proof (f_equal (fun p => snd (fst p)) H) as H2.
    pose proof (f_equal snd H) as H3. cbn [fst snd] in H1, H2, H3.
    subst b m a. clear H.
    pose proof (low16_range (eax (read_cpuid hw 22 0))) as Rb.
    pose proof (low16_range (ebx (read_cpuid hw 22 0))) as Rm.
    pose proof (low16_range (ecx (read_cpuid hw 22 0))) as Ra.
    split; [lia|]. split; [lia|]. split; [lia|].
    intros Hb Hm.
    destruct (resolve_after_complete_leaf16 hw (Os.wmi w) L Hb Hm)
      as (A & B & C & _).
    auto.
Qed.

(** Three such processors, the first closed to the process: the thread
    ends pinned elsewhere and the fields still agree. *)
Lemma turbo_fields_match_clocks_witness :
  let out := fst (main host_three_leaf16 os_without_cpu0) in
  same_on_all host_three_leaf16 0 /\ same_on_all host_three_leaf16 0x16 /\
  snd (main host_three_leaf16 os_without_cpu0) <> os_without_cpu0 /\
  out_num_logical_cores out = 2 /\
  out_turbo_ratios out = Some (3000, 4000, 100) /\
  out_success out = 1 /\ out_base_mhz out = 3000 /\ out_max_mhz out = 4000.
Proof.
  assert (U0 : same_on_all host_three_leaf16 0) by (intros p q; reflexivity).
  assert (U16 : same_on_all host_three_leaf16 0x16) by (intros p q; reflexivity).
  assert (Hn : snd (main host_three_leaf16 os_without_cpu0) <> os_without_cpu0)
    by (vm_compute; discriminate).
  assert (Ht : out_turbo_ratios (fst (main host_three_leaf16 os_without_cpu0))
               = Some (3000, 4000, 100)) by (vm_compute; reflexivity).
  assert (Hb : 3000 <> 0) by discriminate.
  assert (Hm : 4000 <> 0) by discriminate.
  pose proof (turbo_fields_match_clocks host_three_leaf16 os_without_cpu0 U0 U16)
    as (_ & T).
  pose proof (proj2 (proj2 (proj2 (T _ _ _ Ht))) Hb Hm) as (A & B & C).
  exact (conj U0 (conj U16 (conj Hn (conj eq_refl (conj Ht (conj A (conj B C))))))).
Defined.

End TurboFields.

Section ProcessorCount.
Import Os Topo.

Lemma set_bits_zero n : set_bits n 0 = 0.
Proof.
  unfold set_bits. generalize (seq 0 n). intros l.
  induction l as [|i l IH]; simpl; [reflexivity|].
  rewrite Z.testbit_0_l. exact IH.
Qed.

Lemma set_bits_succ n m :
  set_bits (S n) m = Z.b2z (Z.testbit m 0) + set_bits n (Z.shiftr m 1).
Proof.
  unfold set_bits. change (seq 0 (S n)) with (0%nat :: seq 1 n).
  rewrite map_cons. change (Z.of_nat 0) with 0.
  assert (E : List.filter (Z.testbit m) (map Z.of_nat (seq 1 n))
              = map Z.succ (List.filter (Z.testbit (Z.shiftr m 1))
                              (map Z.of_nat (seq 0 n)))).
  { rewrite <- seq_shift, map_map. generalize (seq 0 n). intros l.
    induction l as [|i l IH]; [reflexivity|].
    cbn [map List.filter]. rewrite Z.shiftr_spec by lia.
    replace (Z.of_nat i + 1) with (Z.of_nat (S i)) by lia.
    destruct (Z.testbit m (Z.of_nat (S i))); rewrite IH; [|reflexivity].
    cbn [map]. f_equal. lia. }
  cbn [List.filter]. rewrite E.
  destruct (Z.testbit m 0); cbn [length Z.b2z]; rewrite length_map; lia.
Qed.

Lemma count_bits_step n mask total :
  count_bits (S n) mask total =
  if mask =? 0 then total
  else count_bits n (Z.shiftr mask 1)
         (if Z.land mask 1 =? 0 then total else total + 1).
Proof. reflexivity. Qed.

Lemma count_bits_set_bits n : forall mask total,
  0 <= mask < 2 ^ Z.of_nat n ->
  count_bits n mask total = total + set_bits n mask.
Proof.
  induction n as [|n IH]; intros mask total H.
  - change (2 ^ Z.of_nat 0) with 1 in H. assert (mask = 0) by lia. subst.
    rewrite set_bits_zero. cbn [count_bits]. lia.
  - rewrite count_bits_step. destruct (mask =? 0) eqn:E.
    + apply Z.eqb_eq in E. subst. rewrite set_bits_zero. lia.
    + rewrite Nat2Z.inj_succ, Z.pow_succ_r in H by lia.
      rewrite IH.
      * rewrite set_bits_succ, land_1_mod, <- Z.bit0_mod.
        destruct (Z.testbit mask 0); cbn [Z.b2z].
        -- change (1 =? 0) with false. cbv iota. lia.
        -- change (0 =? 0) with true. cbv iota. lia.
      * rewrite Z.shiftr_div_pow2 by lia. change (2 ^ 1) with 2.
        split; [apply Z.div_pos; lia | apply Z.div_lt_upper_bound; lia].
Qed.

Lemma set_bits_to_u64 mask : set_bits 64 (to_u64 mask) = set_bits 64 mask.
Proof.
  unfold set_bits. do 2 f_equal. apply filter_ext_in. intros i Hi.
  apply in_map_iff in Hi as (k & <- & Hk). apply in_seq in Hk.
  unfold to_u64. apply Z.mod_pow2_bits_low. lia.
Qed.

Lemma to_u64_range mask : 0 <= to_u64 mask < 2 ^ Z.of_nat 64.
Proof.
  unfold to_u64. change (Z.of_nat 64) with 64. apply Z.mod_pos_bound. lia.
Qed.

Lemma fold_left_step {A B} (f : A -> B -> A) x l a :
  fold_left f (x :: l) a = fold_left f l (f a x).
Proof. reflexivity. Qed.

Lemma sum_Z_cons x l : sum_Z (x :: l) = x + sum_Z l.
Proof. reflexivity. Qed.

Lemma count_masks_upto n masks : forall total,
  fold_left (fun t mask => count_bits n (mask mod 2 ^ Z.of_nat n) t) masks total
  = total + sum_Z (map (fun mask => set_bits n (mask mod 2 ^ Z.of_nat n)) masks).
Proof.
  induction masks as [|m masks IH]; intros total.
  - unfold sum_Z. simpl. lia.
  - rewrite fold_left_step, map_cons, sum_Z_cons, IH.
    rewrite count_bits_set_bits; [lia|].
    apply Z.mod_pos_bound. apply Z.pow_pos_nonneg; lia.
Qed.

Lemma count_masks masks total :
  fold_left (fun t mask => count_bits 64 (to_u64 mask) t) masks total
  = total + sum_Z (map (set_bits 64) masks).
Proof.
  rewrite (map_ext (set_bits 64) (fun mask => set_bits 64 (mask mod 2 ^ Z.of_nat 64))).
  - exact (count_masks_upto 64 masks total).
  - intros mask. symmetry. apply set_bits_to_u64.
Qed.

Lemma set_bits_nonneg n m : 0 <= set_bits n m.
Proof. unfold set_bits. lia. Qed.

Lemma entry_processors_nonneg info : 0 <= entry_processors info.
Proof.
  unfold entry_processors.
  destruct (Relationship info =? RelationProcessorCore); [|lia].
  induction (GroupMask info) as [|m l IH]; [unfold sum_Z; simpl; lia|].
  rewrite map_cons, sum_Z_cons.
  pose proof (set_bits_nonneg 64 m). lia.
Qed.

Lemma count_infos infos : forall total,
  fold_left count_info infos total = total + sum_Z (map entry_processors infos).
Proof.
  induction infos as [|info infos IH]; intros total.
  - unfold sum_Z. simpl. lia.
  - rewrite fold_left_step, map_cons, sum_Z_cons, IH.
    unfold count_info, entry_processors.
    destruct (Relationship info =? RelationProcessorCore); [|lia].
    rewrite count_masks. lia.
Qed.

(** The processor count is the number of set bits, among the low 64 bits
    of every group mask, summed over the core entries of the query;
    entries of another relationship count for nothing. *)
Theorem count_processors_is_popcount infos :
  count_processors infos = sum_Z (map entry_processors infos) /\
  0 <= count_processors infos.
Proof.
  unfold count_processors. rewrite count_infos. split; [lia|].
  induction infos as [|info infos IH]; [unfold sum_Z; simpl; lia|].
  rewrite map_cons, sum_Z_cons.
  pose proof (entry_processors_nonneg info). lia.
Qed.

End ProcessorCount.

Section EnumerationBounds.
Import Os Topo.

Lemma pin_loop_step w max_leaf topo_leaf n lp e :
  pin_loop w max_leaf topo_leaf (S n) lp e =
  if num_cores e <? 256 then
    let affinity_mask := to_u64 (Z.shiftl 1 (Z.land lp 63)) in
    let '(st', prev) := SetThreadAffinityMask (os e) affinity_mask in
    if prev =? 0 then pin_loop w max_leaf topo_leaf n (lp + 1) e
    else
      pin_loop w max_leaf topo_leaf n (lp + 1)
        (mkEnum st'
           (<[Z.to_nat (num_cores e) :=
                make_record (cpu w st') max_leaf topo_leaf lp]> (topo_array e))
           (num_cores e + 1))
  else e.
Proof. reflexivity. Qed.

Lemma count_processors_nonneg infos : 0 <= count_processors infos.
Proof.
  unfold count_processors. rewrite count_infos.
  induction infos as [|info infos IH]; [unfold sum_Z; simpl; lia|].
  rewrite map_cons, sum_Z_cons.
  pose proof (entry_processors_nonneg info). lia.
Qed.

Lemma pin_loop_bounds w max_leaf topo_leaf n : forall lp e,
  0 <= num_cores e <= 256 ->
  let e' := pin_loop w max_leaf topo_leaf n lp e in
  num_cores e <= num_cores e' <= 256 /\
  num_cores e' <= num_cores e + Z.of_nat n /\
  length (topo_array e') = length (topo_array e) /\
  (forall i, num_cores e <= Z.of_nat i ->
             nth i (topo_array e') topo_zero = nth i (topo_array e) topo_zero \/
             Z.of_nat i < num_cores e').
Proof.
  induction n as [|n IH]; intros lp e H.
  - cbn [pin_loop]. split; [lia|]. split; [lia|]. split; [reflexivity|].
    intros i _. now left.
  - rewrite pin_loop_step. cbv zeta.
    destruct (num_cores e <? 256) eqn:C.
    + apply Z.ltb_lt in C.
      destruct (SetThreadAffinityMask _ _) as [st' prev].
      destruct (prev =? 0).
      * specialize (IH (lp + 1) e H). cbv zeta in IH.
        destruct IH as (A & B & L & U).
        split; [lia|]. split; [lia|]. split; [exact L | exact U].
      * match goal with |- context [pin_loop _ _ _ n (lp + 1) ?x] =>
          set (e1 := x) end.
        assert (H1 : 0 <= num_cores e1 <= 256) by (unfold e1; cbn; lia).
        specialize (IH (lp + 1) e1 H1). cbv zeta in IH.
        destruct IH as (A & B & L & U).
        subst e1. cbn [num_cores topo_array] in A, B, L, U.
        rewrite length_insert in L.
        split; [lia|]. split; [lia|]. split; [exact L|].
        intros i Hi.
        destruct (Z.eq_dec (Z.of_nat i) (num_cores e)) as [E|E]; [right; lia|].
        destruct (U i ltac:(lia)) as [U1|U1]; [left | right; exact U1].
        rewrite U1, !nth_lookup, list_lookup_insert_ne by lia. reflexivity.
    + split; [lia|]. split; [lia|]. split; [reflexivity|].
      intros i _. now left.
Qed.

(** Enumeration never produces more than 256 records nor more than the
    processor count, keeps the caller's array at its length, and leaves
    every entry from index [num_cores] on as it found it; it produces no
    record when the topology leaf is missing or the core-relationship
    query does not deliver. *)
Theorem enumeration_stays_in_bounds w st topo :
  let e := detect_apic_topology w st topo in
  0 <= num_cores e <= 256 /\
  length (topo_array e) = length topo /\
  (forall i, num_cores e <= Z.of_nat i ->
             nth i (topo_array e) topo_zero = nth i topo topo_zero) /\
  (forall infos, core_query w = QueryOk infos ->
                 num_cores e <= count_processors infos) /\
  (eax (read_cpuid (cpu w st) 0 0) < 0xB \/
   (forall infos, core_query w <> QueryOk infos) ->
   num_cores e = 0 /\ topo_array e = topo).
Proof.
  intros e. unfold e, detect_apic_topology.
  destruct (_ <? 0xB) eqn:E.
  { cbn [num_cores topo_array]. repeat split; try lia; auto.
    intros infos _. apply count_processors_nonneg. }
  apply Z.ltb_ge in E.
  destruct (core_query w) as [| | |infos] eqn:Q;
    try (cbn [num_cores topo_array]; repeat split; try lia; auto;
         intros infos' Hq; discriminate Hq).
  destruct (SetThreadAffinityMask st 1) as [st1 orig].
  pose proof (pin_loop_bounds w (eax (read_cpuid (cpu w st) 0 0))
                (if eax (read_cpuid (cpu w st) 0 0) >=? 31 then 31 else 11)
                (Z.to_nat (count_processors infos)) 0 (mkEnum st1 topo 0)
                ltac:(cbn; lia)) as P.
  cbv zeta in P. cbn [num_cores topo_array] in P.
  destruct P as (A & B & L & U).
  pose proof (count_processors_nonneg infos) as N.
  assert (G : forall x y,
            num_cores (if orig =? 0 then x else mkEnum y (topo_array x) (num_cores x))
            = num_cores x /\
            topo_array (if orig =? 0 then x else mkEnum y (topo_array x) (num_cores x))
            = topo_array x).
  { intros x y. destruct (orig =? 0); auto. }
  match goal with |- context [if orig =? 0 then ?x else mkEnum ?y _ _] =>
    destruct (G x y) as (G1 & G2) end.
  rewrite G1, G2.
  split; [lia|]. split; [exact L|]. split.
  - intros i Hi. destruct (U i ltac:(lia)) as [U1|U1]; [exact U1 | lia].
  - split.
    + intros infos' Hq. inversion Hq; subst. lia.
    + intros [H|H]; [lia | now destruct (H infos)].
Qed.

Lemma enumeration_stays_in_bounds_witness :
  let e := detect_apic_topology host_three os_without_cpu0
             (replicate 256 topo_zero) in
  core_query host_three = QueryOk [mkInfo 0 [7]] /\
  num_cores e <= count_processors [mkInfo 0 [7]] /\
  num_cores e <= 5 /\
  nth 5 (topo_array e) topo_zero = nth 5 (replicate 256 topo_zero) topo_zero /\
  num_cores (detect_apic_topology host_query_fails os_two
               (replicate 256 topo_zero)) = 0.
Proof.
  assert (Q : core_query host_three = QueryOk [mkInfo 0 [7]]) by reflexivity.
  assert (F : forall infos, core_query host_query_fails <> QueryOk infos)
    by (intros infos; discriminate).
  assert (L : num_cores (detect_apic_topology host_three os_without_cpu0
                           (replicate 256 topo_zero)) <= Z.of_nat 5)
    by (vm_compute; discriminate).
  pose proof (enumeration_stays_in_bounds host_three os_without_cpu0
                (replicate 256 topo_zero)) as (_ & _ & U & C & _).
  pose proof (enumeration_stays_in_bounds host_query_fails os_two
                (replicate 256 topo_zero)) as (_ & _ & _ & _ & Z0).
  exact (conj Q (conj (C _ Q) (conj L (conj (U 5%nat L)
          (proj1 (Z0 (or_intror F))))))).
Defined.

End EnumerationBounds.

Section EnumerationContent.
Import Os Topo.

Lemma single_bit_mask lp :
  0 <= lp < 64 -> to_u64 (Z.shiftl 1 (Z.land lp 63)) = 2 ^ lp.
Proof.
  intros H. change 63 with (Z.ones 6). rewrite Z.land_ones by lia.
  change (2 ^ 6) with 64. rewrite Z.mod_small by lia.
  rewrite Z.shiftl_mul_pow2, Z.mul_1_l by lia.
  unfold to_u64. apply Z.mod_small.
  split; [apply Z.pow_nonneg; lia | apply Z.pow_lt_mono_r; lia].
Qed.

Lemma land_single_bit lp P :
  0 <= lp -> Z.land (2 ^ lp) P = if Z.testbit P lp then 2 ^ lp else 0.
Proof.
  intros H. apply Z.bits_inj'. intros i Hi.
  rewrite Z.land_spec, Z.pow2_bits_eqb by lia.
  destruct (Z.eqb_spec lp i) as [->|Hne].
  - destruct (Z.testbit P i); [now rewrite Z.pow2_bits_true | now rewrite Z.testbit_0_l].
  - destruct (Z.testbit P lp); [now rewrite Z.pow2_bits_false | now rewrite Z.testbit_0_l].
Qed.

(** Pinning to [lp] alone succeeds exactly when [lp] is open to the
    process. *)
Lemma pin_single st lp :
  0 <= lp < 64 -> thread_affinity st <> 0 ->
  SetThreadAffinityMask st (to_u64 (Z.shiftl 1 (Z.land lp 63)))
  = if allowed st lp
    then (mkOs (2 ^ lp) (process_affinity st), thread_affinity st)
    else (st, 0).
Proof.
  intros Hlp Ht. rewrite single_bit_mask by assumption.
  unfold SetThreadAffinityMask, allowed.
  assert (Hp : 0 < 2 ^ lp) by (apply Z.pow_pos_nonneg; lia).
  rewrite (neqb_false (2 ^ lp)) by lia.
  rewrite land_single_bit by lia.
  destruct (Z.testbit (process_affinity st) lp).
  - now rewrite Z.eqb_refl.
  - now rewrite (proj2 (Z.eqb_neq 0 (2 ^ lp))) by lia.
Qed.

Lemma take_push {A} (l : list A) k x :
  (k < length l)%nat -> take (S k) (<[k := x]> l) = take k l ++ [x].
Proof.
  intros H. rewrite (take_S_r _ _ x) by now apply list_lookup_insert_eq.
  now rewrite take_insert_ge by lia.
Qed.

Lemma pin_loop_open w max_leaf topo_leaf n lp e :
  0 <= lp < 64 -> num_cores e < 256 -> thread_affinity (os e) <> 0 ->
  allowed (os e) lp = true ->
  pin_loop w max_leaf topo_leaf (S n) lp e
  = pin_loop w max_leaf topo_leaf n (lp + 1)
      (mkEnum (mkOs (2 ^ lp) (process_affinity (os e)))
              (<[Z.to_nat (num_cores e) := record_of w max_leaf topo_leaf lp]>
                 (topo_array e))
              (num_cores e + 1)).
Proof.
  intros Hlp Hc Ht Al. rewrite pin_loop_step. cbv zeta.
  replace (num_cores e <? 256) with true by (symmetry; apply Z.ltb_lt; lia).
  rewrite pin_single, Al by assumption.
  now rewrite (neqb_false _ Ht).
Qed.

Lemma pin_loop_closed w max_leaf topo_leaf n lp e :
  0 <= lp < 64 -> num_cores e < 256 -> thread_affinity (os e) <> 0 ->
  allowed (os e) lp = false ->
  pin_loop w max_leaf topo_leaf (S n) lp e
  = pin_loop w max_leaf topo_leaf n (lp + 1) e.
Proof.
  intros Hlp Hc Ht Al. rewrite pin_loop_step. cbv zeta.
  replace (num_cores e <? 256) with true by (symmetry; apply Z.ltb_lt; lia).
  now rewrite pin_single, Al by assumption.
Qed.

Lemma pin_loop_enumerates w max_leaf topo_leaf P n : forall lp e,
  0 <= lp -> lp + Z.of_nat n <= 64 ->
  0 <= num_cores e ->
  (Z.to_nat (num_cores e) + n <= length (topo_array e))%nat ->
  num_cores e + Z.of_nat n <= 256 ->
  thread_affinity (os e) <> 0 ->
  process_affinity (os e) = P ->
  let e' := pin_loop w max_leaf topo_leaf n lp e in
  let ok := List.filter (Z.testbit P) (map Z.of_nat (seq (Z.to_nat lp) n)) in
  num_cores e' = num_cores e + Z.of_nat (length ok) /\
  take (Z.to_nat (num_cores e')) (topo_array e')
  = take (Z.to_nat (num_cores e)) (topo_array e)
    ++ map (record_of w max_leaf topo_leaf) ok.
Proof.
  induction n as [|n IH]; intros lp e Hlp Hn Hc Hlen Hcap Ht HP; cbv zeta.
  - cbn [pin_loop seq map List.filter length].
    rewrite app_nil_r. split; [lia | reflexivity].
  - cbn [seq map List.filter]. rewrite Z2Nat.id by lia.
    assert (Al : allowed (os e) lp = Z.testbit P lp)
      by (unfold allowed; now rewrite HP).
    destruct (Z.testbit P lp).
    + rewrite pin_loop_open by (assumption || lia).
      specialize (IH (lp + 1)
                    (mkEnum (mkOs (2 ^ lp) (process_affinity (os e)))
                       (<[Z.to_nat (num_cores e) :=
                            record_of w max_leaf topo_leaf lp]> (topo_array e))
                       (num_cores e + 1))).
      cbv zeta in IH. cbn [num_cores topo_array os thread_affinity process_affinity] in IH.
      rewrite length_insert in IH.
      replace (Z.to_nat (lp + 1)) with (S (Z.to_nat lp)) in IH by lia.
      replace (Z.to_nat (num_cores e + 1)) with (S (Z.to_nat (num_cores e))) in IH
        by lia.
      rewrite take_push in IH by lia.
      assert (Hp : 2 ^ lp <> 0) by (apply Z.pow_nonzero; lia).
      destruct IH as [A B]; try lia; try assumption.
      split; [rewrite A; cbn [length]; lia|].
      rewrite B, <- app_assoc. reflexivity.
    + rewrite pin_loop_closed by (assumption || lia).
      specialize (IH (lp + 1) e). cbv zeta in IH.
      replace (Z.to_nat (lp + 1)) with (S (Z.to_nat lp)) in IH by lia.
      apply IH; lia || assumption.
Qed.

(** With at most 64 processors reported, enumeration produces one record
    for each processor number below the count that is open to the
    process, in increasing order, and skips the others; each record is
    decoded on the processor the thread runs on while pinned to that
    number alone, and carries that number as its logical index. *)
Theorem enumeration_lists_open_processors w st infos :
  let max_leaf := eax (read_cpuid (cpu w st) 0 0) in
  let topo_leaf := if max_leaf >=? 0x1F then 0x1F else 0xB in
  let e := detect_apic_topology w st (replicate 256 topo_zero) in
  let ok := allowed_below st (count_processors infos) in
  thread_affinity st <> 0 ->
  core_query w = QueryOk infos ->
  0xB <= max_leaf ->
  count_processors infos <= 64 ->
  num_cores e = Z.of_nat (length ok) /\
  take (length ok) (topo_array e) = map (record_of w max_leaf topo_leaf) ok /\
  map logical_index (take (length ok) (topo_array e)) = ok.
Proof.
  intros max_leaf topo_leaf e ok Ht Hq Hl Hc.
  pose proof (count_processors_nonneg infos) as N.
  assert (M : num_cores e = Z.of_nat (length ok) /\
              take (Z.to_nat (num_cores e)) (topo_array e)
              = map (record_of w max_leaf topo_leaf) ok).
  { unfold e, detect_apic_topology. fold max_leaf.
    replace (max_leaf <? 0xB) with false by (symmetry; apply Z.ltb_ge; lia).
    rewrite Hq. fold topo_leaf.
    assert (S1 : exists st1 orig,
              SetThreadAffinityMask st 1 = (st1, orig) /\
              thread_affinity st1 <> 0 /\
              process_affinity st1 = process_affinity st).
    { unfold SetThreadAffinityMask. destruct (_ || _); eauto. }
    destruct S1 as (st1 & orig & -> & T1 & P1).
    pose proof (pin_loop_enumerates w max_leaf topo_leaf (process_affinity st)
                  (Z.to_nat (count_processors infos)) 0
                  (mkEnum st1 (replicate 256 topo_zero) 0)) as P.
    cbv zeta in P. cbn [num_cores topo_array os] in P.
    rewrite length_replicate in P.
    destruct P as [A B]; try lia; try assumption.
    change (Z.to_nat 0) with 0%nat in *.
    rewrite Z.add_0_l in A.
    change (take 0 (replicate 256 topo_zero)) with (@nil PerCoreTopology) in B.
    rewrite app_nil_l in B.
    unfold ok, allowed_below, allowed.
    destruct (orig =? 0); cbn [num_cores topo_array]; split; (exact A || exact B). }
  destruct M as [M1 M2]. rewrite M1, Nat2Z.id in M2.
  split; [exact M1|]. split; [exact M2|].
  rewrite M2, map_map. unfold record_of. cbn [make_record logical_index].
  apply map_id.
Qed.

Lemma enumeration_lists_open_processors_witness :
  let e := detect_apic_topology host_three os_without_cpu0
             (replicate 256 topo_zero) in
  thread_affinity os_without_cpu0 <> 0 /\
  allowed_below os_without_cpu0 (count_processors [mkInfo 0 [7]]) = [1; 2] /\
  num_cores e = 2 /\
  map logical_index (take 2 (topo_array e)) = [1; 2].
Proof.
  assert (Ht : thread_affinity os_without_cpu0 <> 0) by (vm_compute; discriminate).
  assert (Hl : 0xB <= eax (read_cpuid (cpu host_three os_without_cpu0) 0 0))
    by (vm_compute; discriminate).
  assert (Hc : count_processors [mkInfo 0 [7]] <= 64) by (vm_compute; discriminate).
  pose proof (enumeration_lists_open_processors host_three os_without_cpu0
                [mkInfo 0 [7]] Ht eq_refl Hl Hc) as (A & _ & C).
  exact (conj Ht (conj eq_refl (conj A C))).
Defined.

End EnumerationContent.

Section IdDecoding.
Import Os Topo.

Lemma level_loop_widths hw topo_leaf n : forall subleaf ws,
  widths_ok ws -> widths_ok (level_loop hw topo_leaf n subleaf ws).
Proof.
  induction n as [|n IH]; intros subleaf ws H; cbn [level_loop]; [exact H|].
  destruct (_ =? 0); [exact H|]. apply IH.
  pose proof (field_range (eax (read_cpuid hw topo_leaf subleaf)) 5 ltac:(lia)) as R.
  change (Z.ones 5) with 31 in R. change (2 ^ 5) with 32 in R.
  destruct H as (A & B & C).
  destruct (_ =? 1); [|destruct (_ =? 2); [|destruct (_ =? 5)]];
    unfold widths_ok; cbn [smt_bits core_bits tile_bits]; lia.
Qed.

(** [(1 << s) - 1] in [int] arithmetic is the mask of the low [s] bits,
    up to and including [s = 31]. *)
Lemma mask_of_width s :
  0 <= s <= 31 -> wrap32 (wrap32 (Z.shiftl 1 s) - 1) = Z.ones s.
Proof.
  intros H. destruct (Z.eq_dec s 31) as [->|Hne]; [reflexivity|].
  rewrite Z.shiftl_mul_pow2, Z.mul_1_l by lia.
  assert (P : 1 <= 2 ^ s <= 2 ^ 30).
  { split; [apply (Z.pow_le_mono_r 2 0 s); lia
           | apply (Z.pow_le_mono_r 2 s 30); lia]. }
  change (2 ^ 30) with 1073741824 in P.
  rewrite (wrap32_id (2 ^ s)) by (unfold in_int; lia).
  rewrite wrap32_id by (unfold in_int; lia).
  rewrite Z.ones_equiv. lia.
Qed.

Lemma core_field apic c s :
  0 <= s <= c ->
  Z.shiftr (Z.land apic (Z.land (Z.ones c) (Z.lnot (Z.ones s)))) s
  = (apic mod 2 ^ c) / 2 ^ s.
Proof.
  intros H. rewrite <- Z.land_ones, <- Z.shiftr_div_pow2 by lia.
  apply Z.bits_inj'. intros i Hi.
  rewrite !Z.shiftr_spec, !Z.land_spec, Z.lnot_spec by lia.
  rewrite (Z.ones_spec_high s) by lia.
  cbn [negb]. now rewrite andb_true_r.
Qed.

Lemma core_field_empty apic c s :
  0 <= c < s ->
  Z.shiftr (Z.land apic (Z.land (Z.ones c) (Z.lnot (Z.ones s)))) s = 0.
Proof.
  intros H.
  assert (E : Z.land (Z.ones c) (Z.lnot (Z.ones s)) = 0).
  { apply Z.bits_inj'. intros i Hi.
    rewrite Z.land_spec, Z.lnot_spec, Z.testbit_0_l by lia.
    destruct (Z.lt_ge_cases i c) as [L|L].
    - rewrite (Z.ones_spec_low s) by lia. apply andb_false_r.
    - now rewrite (Z.ones_spec_high c) by lia. }
  now rewrite E, Z.land_0_r, Z.shiftr_0_l.
Qed.

(** The identifier fields of a record partition the hardware id: the
    shift widths read from the topology leaf lie in 0..31, the package id
    is the id above the core width, and when the thread width does not
    exceed the core width the core index is the bit field between the two
    widths, so that package id, core index and the thread bits put
    together give back the hardware id. When the thread width exceeds the
    core width the core index is 0. *)
Theorem record_fields_partition_id hw max_leaf topo_leaf lp :
  let ws := level_loop hw topo_leaf 8 0 (mkWidths 0 0 0) in
  let t := make_record hw max_leaf topo_leaf lp in
  let s := smt_bits ws in
  let c := core_bits ws in
  widths_ok ws /\
  logical_index t = lp /\
  package_id t = apic_id t / 2 ^ c /\
  (s <= c ->
   core_index t = (apic_id t mod 2 ^ c) / 2 ^ s /\
   0 <= core_index t < 2 ^ (c - s) /\
   apic_id t = package_id t * 2 ^ c + core_index t * 2 ^ s + apic_id t mod 2 ^ s) /\
  (c < s -> core_index t = 0).
Proof.
  intros ws t s c.
  assert (W : widths_ok ws).
  { apply level_loop_widths. unfold widths_ok. cbn. lia. }
  destruct W as (Ws & Wc & Wt). fold s in Ws. fold c in Wc.
  split; [unfold widths_ok; auto|]. split; [reflexivity|].
  unfold t, make_record.
  cbn [apic_id package_id core_index]. fold ws. fold s. fold c.
  rewrite !mask_of_width by lia.
  set (apic := edx (read_cpuid hw topo_leaf 0)).
  split; [apply Z.shiftr_div_pow2; lia|].
  split.
  - intros Hsc. rewrite core_field by lia. rewrite Z.shiftr_div_pow2 by lia.
    assert (Ps : 0 < 2 ^ s) by (apply Z.pow_pos_nonneg; lia).
    assert (Pc : 0 < 2 ^ c) by (apply Z.pow_pos_nonneg; lia).
    assert (E : 2 ^ c = 2 ^ (c - s) * 2 ^ s)
      by (rewrite <- Z.pow_add_r by lia; f_equal; lia).
    assert (Pd : 0 < 2 ^ (c - s)) by (apply Z.pow_pos_nonneg; lia).
    split; [reflexivity|].
    assert (M : (apic mod 2 ^ c) mod 2 ^ s = apic mod 2 ^ s).
    { apply Z.mod_mod_divide. exists (2 ^ (c - s)). exact E. }
    pose proof (Z.mod_pos_bound apic (2 ^ c) Pc) as Rc.
    split.
    + split; [apply Z.div_pos; lia|].
      apply Z.div_lt_upper_bound; [lia|]. rewrite Z.mul_comm, <- E. lia.
    + pose proof (Z.div_mod apic (2 ^ c) ltac:(lia)) as D1.
      pose proof (Z.div_mod (apic mod 2 ^ c) (2 ^ s) ltac:(lia)) as D2.
      rewrite M in D2. lia.
  - intros Hcs. apply core_field_empty. lia.
Qed.

Lemma record_fields_partition_id_witness :
  let ws := level_loop cpu_two_levels 0xB 8 0 (mkWidths 0 0 0) in
  let t := make_record cpu_two_levels 0xB 0xB 0 in
  smt_bits ws <= core_bits ws /\
  (smt_bits ws, core_bits ws) = (1, 4) /\
  (apic_id t, package_id t, core_index t) = (13, 0, 6) /\
  apic_id t = package_id t * 2 ^ core_bits ws + core_index t * 2 ^ smt_bits ws
              + apic_id t mod 2 ^ smt_bits ws.
Proof.
  assert (H : smt_bits (level_loop cpu_two_levels 0xB 8 0 (mkWidths 0 0 0))
              <= core_bits (level_loop cpu_two_levels 0xB 8 0 (mkWidths 0 0 0)))
    by (vm_compute; discriminate).
  pose proof (record_fields_partition_id cpu_two_levels 0xB 0xB 0)
    as (_ & _ & _ & P & _).
  exact (conj H (conj eq_refl (conj eq_refl (proj2 (proj2 (P H)))))).
Defined.

End IdDecoding.

Section GroupPartition.
Import Groups.

Lemma calc_shift_loop_lower n : forall shift val,
  shift <= calc_shift_loop n shift val.
Proof.
  induction n as [|n IH]; intros shift val; cbn [calc_shift_loop]; [lia|].
  destruct (val >? 1); [|lia]. specialize (IH (shift + 1) (Z.shiftr val 1)). lia.
Qed.

Lemma calc_shift_nonneg cs : 0 <= calc_shift cs.
Proof.
  unfold calc_shift. destruct (cs <=? 1); [lia|]. apply calc_shift_loop_lower.
Qed.

Lemma calc_shift_mono a b :
  in_int a -> in_int b -> a <= b -> calc_shift a <= calc_shift b.
Proof.
  intros Ha Hb H. rewrite !calc_shift_log2 by assumption.
  destruct (a <=? 1) eqn:Ea; destruct (b <=? 1) eqn:Eb;
    try apply Z.leb_le in Ea; try apply Z.leb_le in Eb;
    try apply Z.leb_gt in Ea; try apply Z.leb_gt in Eb; try lia.
  - apply Z.log2_nonneg.
  - now apply Z.log2_le_mono.
Qed.

Lemma differ_only_below_shiftr k a b :
  0 <= k -> (Z.shiftr a k = Z.shiftr b k <-> differ_only_below k a b).
Proof.
  intros Hk. split; [|now apply shiftr_differ_only_below].
  intros H i Hi.
  replace i with (i - k + k) by lia.
  rewrite <- !Z.shiftr_spec by lia. now rewrite H.
Qed.

Lemma shiftr_coarser k k' a b :
  0 <= k <= k' -> Z.shiftr a k = Z.shiftr b k -> Z.shiftr a k' = Z.shiftr b k'.
Proof.
  intros H E. replace k' with (k + (k' - k)) by lia.
  rewrite <- !Z.shiftr_shiftr by lia. now rewrite E.
Qed.

(** At every level and for every sharing count, two enumerated
    processors receive the same group id exactly when their hardware ids
    agree on all bits from the level's shift upwards; and the levels
    nest: if one level's sharing count is at most another's, processors
    that share a group at the first share one at the second. *)
Theorem groups_partition_by_high_bits
    w topo num_cores l1d l2 l3 g1 g2 g3 i j :
  let a := apic_id (nth i topo topo_zero) in
  let b := apic_id (nth j topo topo_zero) in
  derive_cache_sharing_groups w topo num_cores l1d l2 l3
    = mkArrays (Some g1) (Some g2) (Some g3) ->
  (i < Z.to_nat num_cores)%nat -> (j < Z.to_nat num_cores)%nat ->
  (nth i g1 0 = nth j g1 0 <->
   differ_only_below (calc_shift (cores_sharing l1d)) a b) /\
  (nth i g2 0 = nth j g2 0 <->
   differ_only_below (calc_shift (cores_sharing l2)) a b) /\
  (nth i g3 0 = nth j g3 0 <->
   differ_only_below (calc_shift (cores_sharing l3)) a b) /\
  (in_int (cores_sharing l1d) -> in_int (cores_sharing l2) ->
   cores_sharing l1d <= cores_sharing l2 ->
   nth i g1 0 = nth j g1 0 -> nth i g2 0 = nth j g2 0) /\
  (in_int (cores_sharing l2) -> in_int (cores_sharing l3) ->
   cores_sharing l2 <= cores_sharing l3 ->
   nth i g2 0 = nth j g2 0 -> nth i g3 0 = nth j g3 0).
Proof.
  intros a b H Hi Hj.
  assert (Hn : 0 < num_cores) by lia.
  destruct (derive_all_allocated _ _ _ _ _ _ _ _ _ Hn H) as (-> & -> & ->).
  rewrite !group_at_allocated by assumption. unfold group_id. fold a. fold b.
  pose proof (calc_shift_nonneg (cores_sharing l1d)) as N1.
  pose proof (calc_shift_nonneg (cores_sharing l2)) as N2.
  pose proof (calc_shift_nonneg (cores_sharing l3)) as N3.
  split; [now apply differ_only_below_shiftr|].
  split; [now apply differ_only_below_shiftr|].
  split; [now apply differ_only_below_shiftr|].
  split; intros I1 I2 L; apply shiftr_coarser;
    (split; [assumption | now apply calc_shift_mono]).
Qed.

Lemma groups_partition_by_high_bits_witness :
  derive_cache_sharing_groups host_unknown_vendor topo16 16
    (cache_shared_by 2) (cache_shared_by 4) (cache_shared_by 8)
  = mkArrays (Some [0;0;1;1;2;2;3;3;4;4;5;5;6;6;7;7])
             (Some [0;0;0;0;1;1;1;1;2;2;2;2;3;3;3;3])
             (Some [0;0;0;0;0;0;0;0;1;1;1;1;1;1;1;1]) /\
  in_int 2 /\ in_int 4 /\ 2 <= 4 /\
  (nth 6 [0;0;1;1;2;2;3;3;4;4;5;5;6;6;7;7] 0
   = nth 7 [0;0;1;1;2;2;3;3;4;4;5;5;6;6;7;7] 0 ->
   nth 6 [0;0;0;0;1;1;1;1;2;2;2;2;3;3;3;3] 0
   = nth 7 [0;0;0;0;1;1;1;1;2;2;2;2;3;3;3;3] 0).
Proof.
  assert (I2 : in_int 2) by (unfold in_int; lia).
  assert (I4 : in_int 4) by (unfold in_int; lia).
  assert (L : 2 <= 4) by lia.
  assert (Hi : (6 < Z.to_nat 16)%nat) by (simpl; lia).
  assert (Hj : (7 < Z.to_nat 16)%nat) by (simpl; lia).
  pose proof (groups_partition_by_high_bits host_unknown_vendor topo16 16
                (cache_shared_by 2) (cache_shared_by 4) (cache_shared_by 8)
                _ _ _ 6%nat 7%nat eq_refl Hi Hj) as (_ & _ & _ & N & _).
  exact (conj eq_refl (conj I2 (conj I4 (conj L (N I2 I4 L))))).
Defined.

End GroupPartition.

Section MainOutput.
Import Groups Main.
#[local] Set Warnings "-clear-no-such-hyp".

(** If any of the three group arrays cannot be allocated no instance is
    counted at any level, and the group column of a level whose array is
    missing reads -1 for every processor. *)
Theorem allocation_failure_counts_nothing w st :
  let out := fst (main w st) in
  Os.heap_l1d w = None \/ Os.heap_l2 w = None \/ Os.heap_l3 w = None ->
  l1d_instances out = 0 /\ l2_instances out = 0 /\ l3_instances out = 0 /\
  (Os.heap_l1d w = None -> Forall (fun en => l1d_group en = -1) (out_apic_ids out)) /\
  (Os.heap_l2 w = None -> Forall (fun en => l2_group en = -1) (out_apic_ids out)) /\
  (Os.heap_l3 w = None -> Forall (fun en => l3_group en = -1) (out_apic_ids out)).
Proof.
  intros out H.
  destruct (main_counts w st) as (_ & Ids & Cnt). fold out in Ids, Cnt.
  cbv zeta in Ids, Cnt. clearbody out.
  set (a := derive_cache_sharing_groups _ _ _ _ _ _) in *.
  assert (C0 : (l1d_instances out, l2_instances out, l3_instances out) = (0, 0, 0)).
  { rewrite Cnt. destruct H as [H|[H|H]].
    - unfold a. now rewrite derive_null_l1d.
    - unfold a. rewrite derive_null_l2 by assumption. now destruct (l1d_groups _).
    - unfold a. rewrite derive_null_l3 by assumption.
      destruct (l1d_groups _); [destruct (l2_groups _)|]; reflexivity. }
  split; [exact (f_equal (fun p => fst (fst p)) C0)|].
  split; [exact (f_equal (fun p => snd (fst p)) C0)|].
  split; [exact (f_equal snd C0)|].
  rewrite Ids.
  split; [|split]; intros Hn; apply Forall_forall; intros en Hin;
    apply list_elem_of_In, in_map_iff in Hin as (k & <- & _); unfold entry;
    cbn [l1d_group l2_group l3_group]; unfold a.
  - now rewrite derive_null_l1d.
  - now rewrite derive_null_l2.
  - now rewrite derive_null_l3.
Qed.

Lemma allocation_failure_counts_nothing_witness :
  let out := fst (main host_no_memory os_two) in
  Os.heap_l1d host_no_memory = None /\
  out_num_logical_cores out = 2 /\
  l1d_instances out = 0 /\
  Forall (fun en => l1d_group en = -1) (out_apic_ids out).
Proof.
  assert (H : Os.heap_l1d host_no_memory = None) by reflexivity.
  pose proof (allocation_failure_counts_nothing host_no_memory os_two
                (or_introl H)) as (A & _ & _ & B & _).
  exact (conj H (conj eq_refl (conj A (B H)))).
Defined.

Lemma size_counted_le l : (size (counted l) <= length l)%nat.
Proof.
  induction l as [|g l IH].
  { change (counted []) with (∅ : gset Z). rewrite size_empty. simpl. lia. }
  destruct (in_table g) eqn:E.
  - rewrite (counted_cons_in _ _ E). cbn [length].
    destruct (decide (g ∈ counted l)) as [I|I].
    + replace ({[g]} ∪ counted l) with (counted l) by set_solver. lia.
    + rewrite size_union, size_singleton by set_solver. lia.
  - rewrite (counted_cons_out _ _ E). cbn [length]. lia.
Qed.

(** The emitted processor count lies in 0..256 and is the length of the
    [apic_ids] array; each of the three instance counts lies between 0
    and the processor count. *)
Theorem output_counts_bounded w st :
  let out := fst (main w st) in
  let n := out_num_logical_cores out in
  0 <= n <= 256 /\
  Z.of_nat (length (out_apic_ids out)) = n /\
  0 <= l1d_instances out <= n /\
  0 <= l2_instances out <= n /\
  0 <= l3_instances out <= n.
Proof.
  intros out n.
  destruct (main_counts w st) as (Num & Ids & Cnt). fold out in Num, Ids, Cnt.
  cbv zeta in Ids, Cnt. fold n in Num. clearbody out.
  assert (B : 0 <= n <= 256).
  { rewrite Num.
    pose proof (detect_num_cores w st (replicate 256 topo_zero)) as L.
    split; [exact L|].
    unfold Topo.detect_apic_topology.
    destruct (_ <? 0xB); [cbn; lia|].
    destruct (Os.core_query w) as [| | |infos]; try (cbn; lia).
    destruct (Os.SetThreadAffinityMask st 1) as [st1 orig].
    pose proof (pin_loop_bounds w (eax (read_cpuid (Os.cpu w st) 0 0))
                  (if eax (read_cpuid (Os.cpu w st) 0 0) >=? 31 then 31 else 11)
                  (Z.to_nat (Topo.count_processors infos)) 0
                  (Topo.mkEnum st1 (replicate 256 topo_zero) 0)
                  ltac:(cbn; lia)) as P.
    cbv zeta in P. destruct P as (P & _).
    destruct (orig =? 0); cbn [Topo.num_cores]; lia. }
  rewrite <- Num in Ids, Cnt.
  split; [exact B|].
  split; [rewrite Ids, length_map, length_seq; lia|].
  remember (derive_cache_sharing_groups _ _ _ _ _ _) as a eqn:Ha.
  assert (C : forall g, length g = Z.to_nat n ->
                        0 <= count_unique g (Z.to_nat n) <= n).
  { intros g Hg. rewrite <- Hg, count_unique_distinct. unfold distinct_in_table.
    pose proof (size_counted_le g). lia. }
  destruct a as [[g1|] [g2|] [g3|]]; cbn [l1d_groups l2_groups l3_groups] in Cnt;
    pose proof (f_equal (fun p => fst (fst p)) Cnt) as C1;
    pose proof (f_equal (fun p => snd (fst p)) Cnt) as C2;
    pose proof (f_equal snd Cnt) as C3; cbn [fst snd] in C1, C2, C3;
    try lia.
  assert (Hn : 0 < n).
  { destruct (Z.eq_dec n 0) as [Z0|]; [|lia]. exfalso.
    unfold derive_cache_sharing_groups in Ha. rewrite Z0 in Ha.
    discriminate Ha. }
  symmetry in Ha.
  destruct (derive_all_allocated _ _ _ _ _ _ _ _ _ Hn Ha) as (G1 & G2 & G3).
  rewrite C1, C2, C3.
  split; [apply C; rewrite G1; now rewrite length_map, length_seq|].
  split; apply C; [rewrite G2 | rewrite G3]; now rewrite length_map, length_seq.
Qed.

End MainOutput.
